(** * NTU vacancy alert: the monitoring engine, embedded and verified

    Shallow embedding of [src/vacancy_parser.py], [src/vacancy_api.py],
    the operations of [src/database.py], the polling cycle of
    [src/vacancy_checker.py], and the paging and the removal command of
    [src/bot.py].

    Conventions.
    - A Python [str] is a [string]; each [ascii] is read as the code point
      of the same number (0..255).
    - A Python [int] is a [Z].
    - A function that can raise returns an explicit result; [None] returns
      are [option]. *)

From Stdlib Require Import ZArith List String Ascii Bool Lia Permutation Sorted.
From Stdlib Require Import DecimalString DecimalPos.
Import ListNotations.

Local Open Scope string_scope.
Local Open Scope Z_scope.

(** ** Python built-ins used by the sources *)

Module Py.

(** [str.isspace] on one character, for the code points below 256:
    TAB..CR, FS..US, SPACE, NEL and NO-BREAK SPACE. *)
Definition isspace (c : ascii) : bool :=
  let n := nat_of_ascii c in
  ((9 <=? n) && (n <=? 13) || (28 <=? n) && (n <=? 32)
   || (n =? 133) || (n =? 160))%nat.

Fixpoint lstrip (s : string) : string :=
  match s with
  | EmptyString => EmptyString
  | String c r => if isspace c then lstrip r else s
  end.

Fixpoint rstrip (s : string) : string :=
  match s with
  | EmptyString => EmptyString
  | String c r =>
      match rstrip r with
      | EmptyString => if isspace c then EmptyString else String c EmptyString
      | r' => String c r'
      end
  end.

(** [text.strip()] *)
Definition strip (s : string) : string := rstrip (lstrip s).

(** Truth value of a [str]: non-empty. *)
Definition truthy (s : string) : bool :=
  match s with EmptyString => false | String _ _ => true end.

(** [x in [a, b, ...]] for strings. *)
Definition str_in (x : string) (l : list string) : bool :=
  existsb (String.eqb x) l.

Definition digit_value (c : ascii) : option Z :=
  let n := nat_of_ascii c in
  if ((48 <=? n) && (n <=? 57))%nat then Some (Z.of_nat n - 48) else None.

(** The rest of a decimal literal, read after a digit: digits, with single
    underscores allowed between two digits. *)
Fixpoint digits_after (acc : Z) (s : string) : option Z :=
  match s with
  | EmptyString => Some acc
  | String c r =>
      match digit_value c with
      | Some d => digits_after (10 * acc + d) r
      | None =>
          if Ascii.eqb c "_"
          then match r with
               | String c' r' =>
                   match digit_value c' with
                   | Some d => digits_after (10 * acc + d) r'
                   | None => None
                   end
               | EmptyString => None
               end
          else None
      end
  end.

Definition unsigned_literal (s : string) : option Z :=
  match s with
  | String c r =>
      match digit_value c with
      | Some d => digits_after d r
      | None => None
      end
  | EmptyString => None
  end.

(** [int(text)] for a [str] in base ten; [None] stands for [ValueError].
    Surrounding whitespace is ignored, one sign is allowed.  Whitespace
    is taken as [str.strip] takes it; [int] itself does not skip the
    separators FS..US of an ASCII string, which no caller passes: the
    parser strips the text first, and the bot hands over words of
    [str.split].  (The interpreter's limit on the number of digits, 4300
    by default, is not part of the model.) *)
Definition int (s : string) : option Z :=
  match strip s with
  | EmptyString => None
  | String c r =>
      if Ascii.eqb c "-" then option_map Z.opp (unsigned_literal r)
      else if Ascii.eqb c "+" then unsigned_literal r
      else unsigned_literal (String c r)
  end.

Definition upper_char (c : ascii) : ascii :=
  let n := nat_of_ascii c in
  if ((97 <=? n) && (n <=? 122))%nat then ascii_of_nat (n - 32) else c.

(** [text.upper()], on the ASCII letters: the letters a..z are mapped,
    every other character is kept.  ([str.upper] also maps the accented
    letters of the code points above 127; on a string that [str.upper]
    has produced the two agree.) *)
Fixpoint upper (s : string) : string :=
  match s with
  | EmptyString => EmptyString
  | String c r => String (upper_char c) (upper r)
  end.

(** [str(n)] for an [int].  (As for [int], the interpreter's limit on
    the number of digits is not part of the model.) *)
Definition str_of_int (n : Z) : string := NilZero.string_of_int (Z.to_int n).

(** [''.join(parts)] *)
Definition join (parts : list string) : string :=
  fold_right String.append EmptyString parts.

(** The result of a call that may raise: the value it returns, or the
    text of the exception. *)
Inductive result (A : Type) : Type :=
| Returns (a : A)
| Raises (msg : string).
Arguments Returns {A} a.
Arguments Raises {A} msg.

End Py.

(** ** The part of the BeautifulSoup tree interface the parser calls *)

Module Bs4.

#[local] Set Warnings "-register-all".

Inductive PageElement : Type :=
| NavigableString (text : string)
| Tag (name : string) (attrs : list (string * string))
      (contents : list PageElement).

(** [element.descendants]: every node below [e], in document order. *)
Fixpoint descendants (e : PageElement) : list PageElement :=
  match e with
  | NavigableString _ => []
  | Tag _ _ cs => flat_map (fun c => c :: descendants c) cs
  end.

Definition is_tag_named (name : string) (e : PageElement) : bool :=
  match e with
  | Tag n _ _ => String.eqb n name
  | NavigableString _ => false
  end.

(** Attribute filter [{attr: True}]: the attribute is present. *)
Definition has_attr (attr : string) (e : PageElement) : bool :=
  match e with
  | Tag _ attrs _ => existsb (fun kv => String.eqb (fst kv) attr) attrs
  | NavigableString _ => false
  end.

(** [e.find_all(name)] *)
Definition find_all (name : string) (e : PageElement) : list PageElement :=
  filter (is_tag_named name) (descendants e).

(** [e.find(name, {attr: True})]: first match in document order, or
    [None]. *)
Definition find_with_attr (name attr : string) (e : PageElement)
  : option PageElement :=
  find (fun d => is_tag_named name d && has_attr attr d) (descendants e).

Definition own_string (e : PageElement) : list string :=
  match e with
  | NavigableString s => [s]
  | Tag _ _ _ => []
  end.

(** [e.get_text(strip=True)]: the strings below [e], each stripped, the
    empty ones dropped, joined without separator. *)
Definition get_text_strip (e : PageElement) : string :=
  Py.join
    (filter Py.truthy
       (map Py.strip (flat_map own_string (e :: descendants e)))).

End Bs4.

(** ** vacancy_parser.py *)

Module VacancyParser.

Import Bs4.

(** Records the parser hands to [logger.warning] and [logger.error]. *)
Inductive LogRecord : Type :=
| LogNoTable (course_code : string)
| LogParseError (course_code msg : string).

Record ClassSession : Type := {
  cls_type : string;
  cls_group : string;
  cls_day : string;
  cls_time : string;
  cls_venue : string
}.

(** One entry of the parser's result: the dict with keys [index],
    [vacancy], [waitlist] and [classes]. *)
Record IndexInfo : Type := {
  index : string;
  vacancy : Z;
  waitlist : Z;
  classes : list ClassSession
}.

(** [_parse_number(text)]: [ValueError] of [int] is caught and gives 0. *)
Definition _parse_number (text : string) : Z :=
  let text := Py.strip text in
  if negb (Py.truthy text) || Py.str_in text [""; "&nbsp;"; "-"; "N/A"]
  then 0
  else match Py.int text with
       | Some n => n
       | None => 0
       end.

(** The loop state of [parse_vacancy_html].  [current_index] aliases an
    element of [indexes]: it is kept as the position of that element, so
    that an append to [current_index['classes']] is an update of the list
    in place. *)
Record ParserState : Type := {
  indexes : list IndexInfo;
  current_index : option nat
}.

Definition initial_state : ParserState :=
  {| indexes := []; current_index := None |}.

Fixpoint update_at {A : Type} (k : nat) (f : A -> A) (l : list A) : list A :=
  match l, k with
  | [], _ => []
  | x :: r, O => f x :: r
  | x :: r, S k' => x :: update_at k' f r
  end.

Definition add_class (c : ClassSession) (i : IndexInfo) : IndexInfo :=
  {| index := index i; vacancy := vacancy i; waitlist := waitlist i;
     classes := classes i ++ [c] |}.

(** [cells[i].get_text(strip=True)] *)
Definition cell_text (cells : list PageElement) (i : nat) : string :=
  match nth_error cells i with
  | Some c => get_text_strip c
  | None => EmptyString
  end.

(** [index_num and index_num not in ['', '&nbsp;']] *)
Definition opens_index (index_num : string) : bool :=
  Py.truthy index_num && negb (Py.str_in index_num [""; "&nbsp;"]).

(** The dictionary appended to [current_index['classes']], from the
    cell texts of the row. *)
Definition session_of (txt : nat -> string) : ClassSession :=
  {| cls_type := txt 3%nat; cls_group := txt 4%nat; cls_day := txt 5%nat;
     cls_time := txt 6%nat; cls_venue := txt 7%nat |}.

(** The body of [for row in rows], on the cell texts of a row that has at
    least eight cells. *)
Definition process_cells (st : ParserState) (txt : nat -> string)
  : ParserState :=
  let index_num := txt 0%nat in
  let vacancy_text := txt 1%nat in
  let waitlist_text := txt 2%nat in
  let class_type := txt 3%nat in
  let st1 :=
    if opens_index index_num
    then {| indexes := indexes st ++
              [ {| index := index_num;
                   vacancy := _parse_number vacancy_text;
                   waitlist := _parse_number waitlist_text;
                   classes := [] |} ];
            current_index := Some (List.length (indexes st)) |}
    else st in
  match current_index st1 with
  | Some k =>
      if Py.truthy class_type
      then {| indexes := update_at k (add_class (session_of txt)) (indexes st1);
              current_index := Some k |}
      else st1
  | None => st1
  end.

Definition process_row (st : ParserState) (row : PageElement)
  : ParserState :=
  let cells := find_all "td" row in
  if (List.length cells <? 8)%nat then st
  else process_cells st (cell_text cells).

(** [table.find_all('tr')[1:]] *)
Definition data_rows (table : PageElement) : list PageElement :=
  tl (find_all "tr" table).

(** The loop [for row in rows], from the initial state. *)
Definition run (rows : list PageElement) : ParserState :=
  fold_left process_row rows initial_state.

(** The parser once the document has been scanned into a tree. *)
Definition parse_soup (soup : PageElement) : list IndexInfo :=
  match find_with_attr "table" "border" soup with
  | None => []
  | Some table => indexes (run (data_rows table))
  end.

Section WithScanner.

(** [BeautifulSoup(html, 'html.parser')]: the scanner of the external
    library, which may raise. *)
Variable BeautifulSoup : string -> Py.result PageElement.

(** [parse_vacancy_html(html, course_code)]: [None] is the [None]
    returned from the [except] branch. *)
Definition parse_vacancy_html (html course_code : string)
  : option (list IndexInfo) :=
  match BeautifulSoup html with
  | Py.Raises _ => None
  | Py.Returns soup => Some (parse_soup soup)
  end.

(** What [parse_vacancy_html] writes to the log at warning level and
    above. *)
Definition parse_vacancy_html_log (html course_code : string)
  : list LogRecord :=
  match BeautifulSoup html with
  | Py.Raises msg => [LogParseError course_code msg]
  | Py.Returns soup =>
      match find_with_attr "table" "border" soup with
      | None => [LogNoTable course_code]
      | Some _ => []
      end
  end.

End WithScanner.

End VacancyParser.

(** ** The world the engine runs in *)

Module World.

Import VacancyParser.

(** *** Result dictionaries of vacancy_api.py *)

Inductive ErrorKind : Type :=
| time_restriction | http_error | parse_error | timeout
| connection_error | request_error | unknown_error | index_not_found.

(** [{'success': False, 'error': ..., 'error_message': ...}], with the
    [status_code] key that only an HTTP error carries. *)
Record Failure : Type := {
  error : ErrorKind;
  error_message : string;
  status_code : option Z
}.

(** [{'success': True, 'data': d}] or a failure dictionary. *)
Inductive ApiResult (A : Type) : Type :=
| Success (data : A)
| Fail (f : Failure).
Arguments Success {A} data.
Arguments Fail {A} f.

Definition success {A : Type} (r : ApiResult A) : bool :=
  match r with Success _ => true | Fail _ => false end.

(** What [requests.post] does: a response, or one of the exceptions the
    client tells apart. *)
Inductive HttpOutcome : Type :=
| Response (code : Z) (text : string)
| RaisesTimeout
| RaisesConnectionError
| RaisesRequestException (msg : string)
| RaisesException (msg : string).

(** *** Tables of database.py (the columns the engine reads or writes) *)

Record UserRow : Type := {
  u_telegram_id : Z;
  u_is_active : bool;
  u_is_paused : bool;
  u_paused_until : option Z;
  u_pause_reason : option string
}.

Record AlertRow : Type := {
  a_id : Z;
  a_telegram_id : Z;
  a_course_code : string;
  a_index_number : string;
  a_academic_year : string;
  a_semester : string;
  a_is_active : bool;
  a_last_checked : option Z;
  a_last_vacancy_count : Z
}.

Record HistoryRow : Type := {
  h_id : Z;
  h_alert_id : Z;
  h_telegram_id : Z;
  h_course_code : string;
  h_index_number : string;
  h_vacancy_count : Z;
  h_waitlist_count : Z;
  h_checked_at : Z;
  h_notification_sent : bool
}.

(** The database: three tables, the serial of [alert_history.id], and
    the value [CURRENT_TIMESTAMP] has in the next transaction.  The clock
    advances with every transaction, so that two transactions never read
    the same timestamp. *)
Record Database : Type := {
  users : list UserRow;
  alerts : list AlertRow;
  alert_history : list HistoryRow;
  history_serial : Z;
  current_timestamp : Z
}.

(** A row of [get_all_active_alerts]: the dictionary the checker works
    on for the whole cycle. *)
Record AlertDict : Type := {
  id : Z;
  telegram_id : Z;
  course_code : string;
  index_number : string;
  academic_year : string;
  semester : string;
  last_vacancy_count : Z
}.

(** *** Interactions with the outside, in the order they happen *)

Inductive Event : Type :=
| EvPost (subj : string) (out : HttpOutcome)
    (* requests.post(base_url, data={'subj': subj}) *)
| EvFetch (course index_no : string) (r : ApiResult IndexInfo)
    (* vacancy_api.get_index_vacancy(course, index_no) returned r *)
| EvListActive (r : Py.result nat)
    (* db.get_all_active_alerts(): number of rows, or the error *)
| EvUpdateCheck (alert vac wait : Z) (r : Py.result bool)
    (* db.update_alert_check(alert, vac, wait) *)
| EvMarkSent (alert : Z) (r : Py.result bool)
    (* db.mark_notification_sent(alert) *)
| EvNotify (alert chat : Z) (text : string) (r : Py.result unit)
    (* send_notification(alert, ...): bot.send_message to chat *)
| EvSleep (seconds : Z).
    (* asyncio.sleep(seconds) *)

(** Records handed to [logger.warning] and [logger.error] (debug and info
    records are not kept). *)
Inductive LogEntry : Type :=
| LogParser (r : VacancyParser.LogRecord)
| LogServiceUnavailable (message : string)
| LogHttpError (code : Z) (course : string)
| LogFetchTimeout (course : string)
| LogFetchConnection (course : string)
| LogFetchRequest (course msg : string)
| LogFetchUnexpected (course msg : string)
| LogIndexNotFound (index_no course : string)
| LogDatabaseError (msg : string)
| LogGetActiveFailed (msg : string)
| LogAlertNotFound (alert : Z)
| LogUpdateCheckFailed (alert : Z) (msg : string)
| LogMarkSentFailed (alert : Z) (msg : string)
| LogCouldNotGetVacancy (course index_no message : string)
| LogCouldNotGetVacancyForAlert (alert : Z) (course index_no message : string)
| LogErrorCheckingAlert (alert : Z) (msg : string)
| LogNotifyFailed (alert : Z) (msg : string)
| LogErrorUpdatingAlert (alert : Z) (msg : string)
| LogCycleError (msg : string).

Record World : Type := {
  db : Database;
  trace : list Event;
  logs : list LogEntry
}.

(** The outside world answers as a function of everything that has
    happened so far. *)
Record Env : Type := {
  (* datetime.now(sg_tz): hour and minute in Singapore *)
  now_sg : list Event -> Z * Z;
  (* the upstream server, asked for the course [subj] *)
  http_post : list Event -> string -> HttpOutcome;
  (* BeautifulSoup(html, 'html.parser') *)
  scanner : string -> Py.result Bs4.PageElement;
  (* psycopg2: [Some msg] when the next transaction fails with msg *)
  db_fault : list Event -> option string;
  (* bot.send_message(chat_id, text) *)
  send_message : list Event -> Z -> string -> Py.result unit
}.

Definition emit (e : Event) (w : World) : World :=
  {| db := db w; trace := trace w ++ [e]; logs := logs w |}.

Definition log (l : LogEntry) (w : World) : World :=
  {| db := db w; trace := trace w; logs := logs w ++ [l] |}.

Definition set_db (d : Database) (w : World) : World :=
  {| db := d; trace := trace w; logs := logs w |}.

(** *** Computations that change the world and may raise *)

Definition M (A : Type) : Type := World -> Py.result A * World.

Definition ret {A : Type} (a : A) : M A := fun w => (Py.Returns a, w).

Definition raise {A : Type} (msg : string) : M A :=
  fun w => (Py.Raises msg, w).

Definition bind {A B : Type} (m : M A) (k : A -> M B) : M B :=
  fun w =>
    match m w with
    | (Py.Returns a, w1) => k a w1
    | (Py.Raises msg, w1) => (Py.Raises msg, w1)
    end.

(** [try: body except Exception as e: handler(e)] *)
Definition try_except {A : Type} (body : M A) (handler : string -> M A)
  : M A :=
  fun w =>
    match body w with
    | (Py.Returns a, w1) => (Py.Returns a, w1)
    | (Py.Raises msg, w1) => handler msg w1
    end.

(** A step that cannot raise. *)
Definition effect (f : World -> World) : M unit :=
  fun w => (Py.Returns tt, f w).

Definition lift {A : Type} (f : World -> A * World) : M A :=
  fun w => let (a, w1) := f w in (Py.Returns a, w1).

Declare Scope py_scope.
Delimit Scope py_scope with py.
Notation "x <- m ;; k" := (bind m (fun x => k))
  (at level 61, m at next level, right associativity) : py_scope.
Notation "m ;; k" := (bind m (fun _ => k))
  (at level 61, right associativity) : py_scope.

End World.

(** ** database.py: the operations the engine calls *)

Module Database.

Import World.

Definition tick (d : Database) : Database :=
  {| users := users d; alerts := alerts d;
     alert_history := alert_history d;
     history_serial := history_serial d;
     current_timestamp := current_timestamp d + 1 |}.

(** [u.is_active = TRUE AND (u.is_paused = FALSE OR (u.is_paused = TRUE
    AND u.paused_until IS NOT NULL AND u.paused_until <
    CURRENT_TIMESTAMP))] *)
Definition user_eligible (now : Z) (u : UserRow) : bool :=
  u_is_active u
  && (negb (u_is_paused u)
      || (u_is_paused u
          && match u_paused_until u with
             | Some t => t <? now
             | None => false
             end)).

(** [JOIN users u ON a.telegram_id = u.telegram_id WHERE ...];
    [telegram_id] is the primary key of [users], so at most one row
    joins. *)
Definition selected (d : Database) (a : AlertRow) : bool :=
  a_is_active a
  && existsb (fun u => (u_telegram_id u =? a_telegram_id a)
                       && user_eligible (current_timestamp d) u)
       (users d).

(** [ORDER BY a.last_checked ASC NULLS FIRST] *)
Definition checked_le (x y : option Z) : bool :=
  match x, y with
  | None, _ => true
  | Some _, None => false
  | Some a, Some b => a <=? b
  end.

Fixpoint insert_by_last_checked (a : AlertRow) (l : list AlertRow)
  : list AlertRow :=
  match l with
  | [] => [a]
  | b :: r =>
      if checked_le (a_last_checked a) (a_last_checked b)
      then a :: l
      else b :: insert_by_last_checked a r
  end.

Definition order_by_last_checked (l : list AlertRow) : list AlertRow :=
  fold_right insert_by_last_checked [] l.

(** The selected columns of one row, as a dictionary. *)
Definition to_dict (a : AlertRow) : AlertDict :=
  {| id := a_id a; telegram_id := a_telegram_id a;
     course_code := a_course_code a; index_number := a_index_number a;
     academic_year := a_academic_year a; semester := a_semester a;
     last_vacancy_count := a_last_vacancy_count a |}.

Definition select_active (d : Database) : list AlertDict :=
  map to_dict (order_by_last_checked (filter (selected d) (alerts d))).

(** [get_all_active_alerts()]: a database error is logged and answered
    with the empty list. *)
Definition get_all_active_alerts (env : Env) : M (list AlertDict) :=
  fun w =>
    match db_fault env (trace w) with
    | Some msg =>
        (Py.Returns [],
         log (LogGetActiveFailed msg)
           (log (LogDatabaseError msg)
              (emit (EvListActive (Py.Raises msg)) w)))
    | None =>
        let rows := select_active (db w) in
        (Py.Returns rows,
         set_db (tick (db w))
           (emit (EvListActive (Py.Returns (List.length rows))) w))
    end.

(** [UPDATE alerts SET last_checked = CURRENT_TIMESTAMP,
    last_vacancy_count = %s WHERE id = %s] *)
Definition set_checked (alert_id now vacancy_count : Z) (a : AlertRow)
  : AlertRow :=
  if a_id a =? alert_id
  then {| a_id := a_id a; a_telegram_id := a_telegram_id a;
          a_course_code := a_course_code a;
          a_index_number := a_index_number a;
          a_academic_year := a_academic_year a;
          a_semester := a_semester a; a_is_active := a_is_active a;
          a_last_checked := Some now;
          a_last_vacancy_count := vacancy_count |}
  else a.

(** The two statements of [update_alert_check] on an alert that
    exists, [info] being the row read first. *)
Definition record_check (alert_id vacancy_count waitlist_count : Z)
  (info : AlertRow) (d : Database) : Database :=
  {| users := users d;
     alerts :=
       map (set_checked alert_id (current_timestamp d) vacancy_count)
         (alerts d);
     alert_history :=
       alert_history d ++
         [ {| h_id := history_serial d; h_alert_id := alert_id;
              h_telegram_id := a_telegram_id info;
              h_course_code := a_course_code info;
              h_index_number := a_index_number info;
              h_vacancy_count := vacancy_count;
              h_waitlist_count := waitlist_count;
              h_checked_at := current_timestamp d;
              h_notification_sent := false |} ];
     history_serial := history_serial d + 1;
     current_timestamp := current_timestamp d + 1 |}.

(** [update_alert_check(alert_id, vacancy_count, waitlist_count)]: one
    transaction; on a database error nothing is written and the error is
    raised again. *)
Definition update_alert_check (env : Env)
  (alert_id vacancy_count waitlist_count : Z) : M bool :=
  fun w =>
    match db_fault env (trace w) with
    | Some msg =>
        (Py.Raises msg,
         log (LogUpdateCheckFailed alert_id msg)
           (log (LogDatabaseError msg)
              (emit (EvUpdateCheck alert_id vacancy_count waitlist_count
                       (Py.Raises msg)) w)))
    | None =>
        match find (fun a => a_id a =? alert_id) (alerts (db w)) with
        | None =>
            (Py.Returns false,
             log (LogAlertNotFound alert_id)
               (set_db (tick (db w))
                  (emit (EvUpdateCheck alert_id vacancy_count
                           waitlist_count (Py.Returns false)) w)))
        | Some info =>
            (Py.Returns true,
             set_db
               (record_check alert_id vacancy_count waitlist_count info
                  (db w))
               (emit (EvUpdateCheck alert_id vacancy_count waitlist_count
                        (Py.Returns true)) w))
        end
    end.

(** [SELECT id FROM alert_history WHERE alert_id = %s ORDER BY checked_at
    DESC LIMIT 1], scanning with the best row so far; of two rows with
    the same timestamp the earlier one is kept. *)
Fixpoint latest_history (alert_id : Z) (rows : list HistoryRow)
  (best : option HistoryRow) : option HistoryRow :=
  match rows with
  | [] => best
  | h :: r =>
      if h_alert_id h =? alert_id
      then match best with
           | None => latest_history alert_id r (Some h)
           | Some b =>
               if h_checked_at b <? h_checked_at h
               then latest_history alert_id r (Some h)
               else latest_history alert_id r (Some b)
           end
      else latest_history alert_id r best
  end.

Definition set_notified (h : HistoryRow) : HistoryRow :=
  {| h_id := h_id h; h_alert_id := h_alert_id h;
     h_telegram_id := h_telegram_id h; h_course_code := h_course_code h;
     h_index_number := h_index_number h;
     h_vacancy_count := h_vacancy_count h;
     h_waitlist_count := h_waitlist_count h;
     h_checked_at := h_checked_at h; h_notification_sent := true |}.

(** [UPDATE alert_history SET notification_sent = TRUE WHERE alert_id =
    %s AND id = (SELECT ...)] *)
Definition mark_latest (alert_id : Z) (d : Database) : Database :=
  {| users := users d; alerts := alerts d;
     alert_history :=
       match latest_history alert_id (alert_history d) None with
       | None => alert_history d
       | Some l =>
           map (fun h => if (h_alert_id h =? alert_id) && (h_id h =? h_id l)
                         then set_notified h else h)
             (alert_history d)
       end;
     history_serial := history_serial d;
     current_timestamp := current_timestamp d + 1 |}.

(** [mark_notification_sent(alert_id)] *)
Definition mark_notification_sent (env : Env) (alert_id : Z) : M bool :=
  fun w =>
    match db_fault env (trace w) with
    | Some msg =>
        (Py.Raises msg,
         log (LogMarkSentFailed alert_id msg)
           (log (LogDatabaseError msg)
              (emit (EvMarkSent alert_id (Py.Raises msg)) w)))
    | None =>
        (Py.Returns true,
         set_db (mark_latest alert_id (db w))
           (emit (EvMarkSent alert_id (Py.Returns true)) w))
    end.

End Database.

(** ** vacancy_api.py *)

Module VacancyApiClient.

Import VacancyParser World.

Definition pad2 (n : Z) : string :=
  if n <? 10 then "0" ++ Py.str_of_int n else Py.str_of_int n.

(** [now.strftime('%I:%M %p')] *)
Definition strftime_I_M_p (hour minute : Z) : string :=
  let h12 := if hour mod 12 =? 0 then 12 else hour mod 12 in
  pad2 h12 ++ ":" ++ pad2 minute ++ (if hour <? 12 then " AM" else " PM").

(** [is_service_available()]: 8am to 10pm, Singapore time. *)
Definition is_service_available (env : Env) (w : World) : bool * string :=
  let (current_hour, minute) := now_sg env (trace w) in
  if (8 <=? current_hour) && (current_hour <? 22)
  then (true, "Service available")
  else (false,
        "NTU STARS vacancy service is only available from 8:00 AM to 10:00 PM (Singapore time). Current time: "
        ++ strftime_I_M_p current_hour minute).

Definition http_error_message (code : Z) : string :=
  "Server Error (Status " ++ Py.str_of_int code ++ ")"
  ++ (if code =? 503
      then " - Service Unavailable (Server may be down or under maintenance)"
      else if code =? 500 then " - Internal Server Error"
      else if code =? 403 then " - Access Forbidden"
      else if code =? 404 then " - Endpoint Not Found"
      else "").

Definition failure (e : ErrorKind) (msg : string) : Failure :=
  {| error := e; error_message := msg; status_code := None |}.

(** [get_course_vacancies(course_code)]: every exception is turned into
    a failure dictionary, so the call itself never raises. *)
Definition get_course_vacancies (env : Env) (course_code : string)
  (w : World) : ApiResult (list IndexInfo) * World :=
  let (is_available, message) := is_service_available env w in
  if negb is_available
  then (Fail (failure time_restriction message),
        log (LogServiceUnavailable message) w)
  else
    let subj := Py.upper course_code in
    let out := http_post env (trace w) subj in
    let w1 := emit (EvPost subj out) w in
    match out with
    | Response code text =>
        if negb (code =? 200)
        then (Fail {| error := http_error;
                      error_message := http_error_message code;
                      status_code := Some code |},
              log (LogHttpError code course_code) w1)
        else
          let w2 :=
            fold_left (fun w r => log (LogParser r) w)
              (parse_vacancy_html_log (scanner env) text course_code) w1 in
          match parse_vacancy_html (scanner env) text course_code with
          | None =>
              (Fail (failure parse_error
                       "Failed to parse response from server"), w2)
          | Some indexes => (Success indexes, w2)
          end
    | RaisesTimeout =>
        (Fail (failure timeout
                 "Request Timeout - Server took too long to respond"),
         log (LogFetchTimeout course_code) w1)
    | RaisesConnectionError =>
        (Fail (failure connection_error
                 "Connection Error - Unable to reach NTU server. Check your internet connection."),
         log (LogFetchConnection course_code) w1)
    | RaisesRequestException msg =>
        (Fail (failure request_error ("Network Error - " ++ msg)),
         log (LogFetchRequest course_code msg) w1)
    | RaisesException msg =>
        (Fail (failure unknown_error ("Unexpected Error - " ++ msg)),
         log (LogFetchUnexpected course_code msg) w1)
    end.

(** [for index_info in all_indexes: if index_info['index'] ==
    str(index_number): return ...], with [None] when the loop ends
    without a match. *)
Fixpoint scan_indexes (all_indexes : list IndexInfo) (index_number : string)
  : option IndexInfo :=
  match all_indexes with
  | [] => None
  | index_info :: rest =>
      if String.eqb (index index_info) index_number
      then Some index_info
      else scan_indexes rest index_number
  end.

(** [get_index_vacancy(course_code, index_number)] *)
Definition get_index_vacancy (env : Env) (course_code index_number : string)
  (w : World) : ApiResult IndexInfo * World :=
  let (result, w1) := get_course_vacancies env course_code w in
  let (answer, w2) :=
    match result with
    | Fail f => (Fail f, w1)
    | Success all_indexes =>
        match scan_indexes all_indexes index_number with
        | Some index_info => (Success index_info, w1)
        | None =>
            (Fail (failure index_not_found
                     ("Index " ++ index_number ++ " not found for course "
                      ++ course_code)),
             log (LogIndexNotFound index_number course_code) w1)
        end
    end in
  (answer, emit (EvFetch course_code index_number answer) w2).

End VacancyApiClient.

(** ** vacancy_checker.py *)

Module VacancyChecker.

Import VacancyParser World.
Local Open Scope py_scope.

Inductive Bot : Type := TelegramBot (token : string).

(** The attributes of the checker object. *)
Record Checker : Type := {
  bot : option Bot;
  running : bool
}.

Definition nl : string := String (ascii_of_nat 10) EmptyString.

Definition DATA_SOURCE_URL : string :=
  "https://wish.wis.ntu.edu.sg/webexe/owa/aus_vacancy.check_vacancy".

Definition DATA_SOURCE_LINK : string :=
  "[" ++ DATA_SOURCE_URL ++ "](" ++ DATA_SOURCE_URL ++ ")".

Definition notification_text (alert : AlertDict) (vacancy_info : IndexInfo)
  : string :=
  "*VACANCY ALERT!*" ++ nl ++ nl
  ++ "*Course:* " ++ course_code alert ++ nl
  ++ "*Index:* " ++ index_number alert ++ nl
  ++ "*Vacancies:* " ++ Py.str_of_int (vacancy vacancy_info) ++ nl
  ++ "*Waitlist:* " ++ Py.str_of_int (waitlist vacancy_info) ++ nl ++ nl
  ++ "Hurry! Slots may fill up quickly!" ++ nl ++ nl
  ++ "Data source: " ++ DATA_SOURCE_LINK.

(** [send_notification(alert, vacancy_info)]: whatever the send raises
    is logged and swallowed.  Without a bot the attribute access
    itself raises. *)
Definition send_notification (env : Env) (self : Checker)
  (alert : AlertDict) (vacancy_info : IndexInfo) : M unit :=
  fun w =>
    let message := notification_text alert vacancy_info in
    let r :=
      match bot self with
      | Some _ => send_message env (trace w) (telegram_id alert) message
      | None => Py.Raises "'NoneType' object has no attribute 'send_message'"
      end in
    let w1 := emit (EvNotify (id alert) (telegram_id alert) message r) w in
    match r with
    | Py.Returns _ => (Py.Returns tt, w1)
    | Py.Raises msg => (Py.Returns tt, log (LogNotifyFailed (id alert) msg) w1)
    end.

(** [old_vacancy == 0 and new_vacancy > 0] *)
Definition vacancy_opened (old_vacancy new_vacancy : Z) : bool :=
  (old_vacancy =? 0) && (0 <? new_vacancy).

(** The body of [for alert in alert_list], with its [try]/[except]. *)
Definition update_alert (env : Env) (self : Checker)
  (vacancy_info : IndexInfo) (alert : AlertDict) : M unit :=
  try_except
    (_ <- Database.update_alert_check env (id alert)
            (vacancy vacancy_info) (waitlist vacancy_info) ;;
     let old_vacancy := last_vacancy_count alert in
     let new_vacancy := vacancy vacancy_info in
     if vacancy_opened old_vacancy new_vacancy
     then (send_notification env self alert vacancy_info ;;
           _ <- Database.mark_notification_sent env (id alert) ;;
           ret tt)
     else ret tt)
    (fun e => effect (log (LogErrorUpdatingAlert (id alert) e))).

Fixpoint update_alerts (env : Env) (self : Checker)
  (vacancy_info : IndexInfo) (alert_list : list AlertDict) : M unit :=
  match alert_list with
  | [] => ret tt
  | alert :: rest =>
      update_alert env self vacancy_info alert ;;
      update_alerts env self vacancy_info rest
  end.

(** [check_alert(alert)]: the check of a single alert, with the same
    write and the same rule as the loop body of the cycle. *)
Definition check_alert (env : Env) (self : Checker) (alert : AlertDict)
  : M bool :=
  try_except
    (result <- lift (VacancyApiClient.get_index_vacancy env
                       (course_code alert) (index_number alert)) ;;
     match result with
     | Fail f =>
         effect (log (LogCouldNotGetVacancyForAlert (id alert)
                        (course_code alert) (index_number alert)
                        (error_message f))) ;;
         ret false
     | Success vacancy_info =>
         _ <- Database.update_alert_check env (id alert)
                (vacancy vacancy_info) (waitlist vacancy_info) ;;
         let old_vacancy := last_vacancy_count alert in
         let new_vacancy := vacancy vacancy_info in
         (if vacancy_opened old_vacancy new_vacancy
          then (send_notification env self alert vacancy_info ;;
                _ <- Database.mark_notification_sent env (id alert) ;;
                ret tt)
          else ret tt) ;;
         ret true
     end)
    (fun e => effect (log (LogErrorCheckingAlert (id alert) e)) ;; ret false).

(** [grouped_alerts]: a dictionary keeps its keys in insertion order, so
    it is a list of (key, alerts) with distinct keys. *)
Definition Key : Type := (string * string)%type.

Definition key_eqb (k1 k2 : Key) : bool :=
  String.eqb (fst k1) (fst k2) && String.eqb (snd k1) (snd k2).

Definition key_of (alert : AlertDict) : Key :=
  (course_code alert, index_number alert).

(** [if key not in grouped_alerts: grouped_alerts[key] = []] followed by
    [grouped_alerts[key].append(alert)] *)
Fixpoint group_add (alert : AlertDict) (grouped : list (Key * list AlertDict))
  : list (Key * list AlertDict) :=
  match grouped with
  | [] => [(key_of alert, [alert])]
  | (k, l) :: rest =>
      if key_eqb k (key_of alert)
      then (k, (l ++ [alert])%list) :: rest
      else (k, l) :: group_add alert rest
  end.

Definition group_alerts (alerts : list AlertDict)
  : list (Key * list AlertDict) :=
  fold_left (fun grouped alert => group_add alert grouped) alerts [].

Definition sleep (seconds : Z) : M unit := effect (emit (EvSleep seconds)).

(** [for (course_code, index_number), alert_list in
    grouped_alerts.items()] *)
Fixpoint check_groups (env : Env) (self : Checker)
  (grouped : list (Key * list AlertDict)) : M unit :=
  match grouped with
  | [] => ret tt
  | ((course, index_no), alert_list) :: rest =>
      if negb (running self) then ret tt
      else
        result <- lift (VacancyApiClient.get_index_vacancy env course index_no) ;;
        match result with
        | Fail f =>
            effect (log (LogCouldNotGetVacancy course index_no
                           (error_message f))) ;;
            sleep 2 ;;
            check_groups env self rest
        | Success vacancy_info =>
            update_alerts env self vacancy_info alert_list ;;
            sleep 2 ;;
            check_groups env self rest
        end
  end.

(** [check_all_alerts()]: one cycle. *)
Definition check_all_alerts (env : Env) (self : Checker) : M unit :=
  try_except
    (alerts <- Database.get_all_active_alerts env ;;
     match alerts with
     | [] => ret tt
     | _ => check_groups env self (group_alerts alerts)
     end)
    (fun e => effect (log (LogCycleError e))).

(** One round of the [while self.running] loop of [run_forever()]. *)
Definition one_round (check_interval : Z) (env : Env) (self : Checker)
  : M unit :=
  try_except
    (check_all_alerts env self ;;
     if running self then sleep check_interval else ret tt)
    (fun e => sleep 60).

(** [run_forever()], cut after [rounds] rounds of its loop: it sets
    [running] and [bot], then checks and sleeps while [running]. *)
Fixpoint run_forever_loop (rounds : nat) (check_interval : Z) (env : Env)
  (self : Checker) : M unit :=
  match rounds with
  | O => ret tt
  | S k =>
      if negb (running self) then ret tt
      else one_round check_interval env self ;;
           run_forever_loop k check_interval env self
  end.

Definition run_forever (rounds : nat) (check_interval : Z) (token : string)
  (env : Env) : M unit :=
  run_forever_loop rounds check_interval env
    {| bot := Some (TelegramBot token); running := true |}.

End VacancyChecker.

(** ** Notions the statements are written with *)

Local Open Scope list_scope.

Module ParserDefs.
Import Bs4 VacancyParser.

(** The stripped text starts with a minus sign. *)
Definition has_minus (text : string) : bool :=
  match Py.strip text with
  | String c _ => Ascii.eqb c "-"
  | EmptyString => false
  end.

Definition cells_of (row : PageElement) : list PageElement :=
  find_all "td" row.

(** A row the loop treats as opening a new index. *)
Definition is_header (row : PageElement) : bool :=
  (8 <=? List.length (cells_of row))%nat
  && opens_index (cell_text (cells_of row) 0).

(** Number of class sessions over all indexes. *)
Definition sessions_total (l : list IndexInfo) : nat :=
  List.length (flat_map classes l).

Definition nbsp : string := String (ascii_of_nat 160) EmptyString.

(** Sample rows and pages, as trees. *)
Definition td (text : string) : PageElement :=
  Tag "td" [] [NavigableString text].
Definition tr (texts : list string) : PageElement :=
  Tag "tr" [] (map td texts).
Definition page (rows : list PageElement) : PageElement :=
  Tag "[document]" []
    [Tag "html" [] [Tag "body" [] [Tag "table" [("border", "")] rows]]].

Definition heading_row : PageElement :=
  tr ["INDEX"; "VACANCY"; "WAITLIST"; "TYPE"; "GROUP"; "DAY"; "TIME"; "VENUE"].
Definition row_10001 : PageElement :=
  tr ["10001"; "3"; "0"; "LEC"; "L1"; "MON"; "0830-1030"; "LT1A"].
Definition row_tut : PageElement :=
  tr [""; ""; ""; "TUT"; "T1"; "TUE"; "0930-1030"; "TR1"].
Definition row_blank_type : PageElement :=
  tr [""; ""; ""; ""; "T1"; "TUE"; "0930-1030"; "TR1"].
Definition row_negative : PageElement :=
  tr ["10002"; "-3"; "0"; "LEC"; "L1"; "MON"; "0830-1030"; "LT1A"].
Definition row_placeholder : PageElement :=
  tr ["&nbsp;"; "1"; "0"; "LEC"; "L1"; "MON"; "0830-1030"; "LT1A"].
Definition row_short : PageElement := tr ["10003"; "1"].

(** No whitespace at the head of the string. *)
Definition clean_head (s : string) : Prop :=
  match s with
  | EmptyString => True
  | String c _ => Py.isspace c = false
  end.

(** [current_index] is the last element of [indexes], when there is one. *)
Definition linked (st : ParserState) : Prop :=
  current_index st =
  match indexes st with
  | [] => None
  | _ :: _ => Some (List.length (indexes st) - 1)%nat
  end.

(** Vacancy and waitlist are not negative. *)
Definition counts_nonneg (i : IndexInfo) : Prop :=
  0 <= vacancy i /\ 0 <= waitlist i.

End ParserDefs.

Module ApiSpec.
Import VacancyParser World VacancyApiClient.

(** The failure the client answers with when the index is not among the
    indexes of the course. *)
Definition NotFound (courseCode sectionId : string) : Failure :=
  failure index_not_found
    ("Index " ++ sectionId ++ " not found for course " ++ courseCode)%string.

(** [fetchSectionSnapshot] as the specification words it, on the
    outcome of [fetchCourseSections]: a failure is passed on; otherwise
    the first section whose identifier equals [sectionId] is the answer,
    and [NotFound] when there is none. *)
Definition fetchSectionSnapshot_spec
  (fetchCourseSections : ApiResult (list IndexInfo))
  (courseCode sectionId : string) : ApiResult IndexInfo :=
  match fetchCourseSections with
  | Fail f => Fail f
  | Success sections =>
      match find (fun s => String.eqb (index s) sectionId) sections with
      | Some s => Success s
      | None => Fail (NotFound courseCode sectionId)
      end
  end.
End ApiSpec.

Module Observations.

Import VacancyParser World VacancyChecker.

(** The event is a call made for the alert [aid]. *)
Definition concerns (aid : Z) (e : Event) : bool :=
  match e with
  | EvUpdateCheck a _ _ _ => a =? aid
  | EvMarkSent a _ => a =? aid
  | EvNotify a _ _ _ => a =? aid
  | _ => false
  end.

(** The calls made for the alert [aid], in order. *)
Definition about (aid : Z) (seg : list Event) : list Event :=
  filter (concerns aid) seg.

Definition fetch_of (k : Key) (e : Event) : list (ApiResult IndexInfo) :=
  match e with
  | EvFetch c i r => if key_eqb (c, i) k then [r] else []
  | _ => []
  end.

(** The answers of the calls of [get_index_vacancy] for the key [k]. *)
Definition fetches_of (k : Key) (seg : list Event)
  : list (ApiResult IndexInfo) :=
  flat_map (fetch_of k) seg.

Definition update_of (e : Event) : list (Z * Z * Py.result bool) :=
  match e with
  | EvUpdateCheck _ vac wait r => [(vac, wait, r)]
  | _ => []
  end.

(** The calls of [update_alert_check] for the alert [aid]: the counts
    passed and the outcome. *)
Definition updates_of (aid : Z) (seg : list Event)
  : list (Z * Z * Py.result bool) :=
  flat_map update_of (about aid seg).

Definition is_fetch (e : Event) : bool :=
  match e with EvFetch _ _ _ => true | _ => false end.

Definition is_post (e : Event) : bool :=
  match e with EvPost _ _ => true | _ => false end.

(** The calls of [get_index_vacancy], for any key. *)
Definition fetch_calls (seg : list Event) : list Event := filter is_fetch seg.

(** The requests sent to the server. *)
Definition posts (seg : list Event) : list Event := filter is_post seg.

Definition is_notify (e : Event) : bool :=
  match e with EvNotify _ _ _ _ => true | _ => false end.

(** The notifications attempted for the alert [aid]. *)
Definition notifications (aid : Z) (seg : list Event) : list Event :=
  filter is_notify (about aid seg).

(** [last_vacancy_count] of the alert [aid] in the table. *)
Definition stored_count (aid : Z) (d : Database) : option Z :=
  option_map a_last_vacancy_count
    (find (fun a => a_id a =? aid) (alerts d)).

Definition view (h : HistoryRow) : Z * Z * bool :=
  (h_vacancy_count h, h_waitlist_count h, h_notification_sent h).

(** Counts and notified flag of the latest history row of the alert. *)
Definition latest_view (aid : Z) (d : Database) : option (Z * Z * bool) :=
  option_map view (Database.latest_history aid (alert_history d) None).

(** No history row is dated at or after the next timestamp. *)
Definition history_past (d : Database) : Prop :=
  Forall (fun h => h_checked_at h < current_timestamp d) (alert_history d).

Definition known (aid : Z) (d : Database) : bool :=
  existsb (Z.eqb aid) (map a_id (alerts d)).

(** The effect of one event on the stored count of [aid]. *)
Definition replay_count (aid : Z) (x : option Z) (e : Event) : option Z :=
  match e with
  | EvUpdateCheck a vac _ (Py.Returns true) => if a =? aid then Some vac else x
  | _ => x
  end.

Definition mark_view (v : Z * Z * bool) : Z * Z * bool :=
  (fst (fst v), snd (fst v), true).

(** The effect of one event on the latest history row of [aid]. *)
Definition replay_latest (aid : Z) (x : option (Z * Z * bool)) (e : Event)
  : option (Z * Z * bool) :=
  match e with
  | EvUpdateCheck a vac wait (Py.Returns true) =>
      if a =? aid then Some (vac, wait, false) else x
  | EvMarkSent a (Py.Returns true) =>
      if a =? aid then option_map mark_view x else x
  | _ => x
  end.

(** What the loop body does for one alert, [v] being the fetched index:
    the write fails and nothing else happens; or the write returns and the
    edge rule is false; or the write returns, the rule is true, the
    notification is attempted and the history row is marked. *)
Inductive alert_story (v : IndexInfo) (a : AlertDict) : list Event -> Prop :=
| story_write_failed (msg : string) :
    alert_story v a
      [EvUpdateCheck (id a) (vacancy v) (waitlist v) (Py.Raises msg)]
| story_quiet (b : bool) :
    vacancy_opened (last_vacancy_count a) (vacancy v) = false ->
    alert_story v a
      [EvUpdateCheck (id a) (vacancy v) (waitlist v) (Py.Returns b)]
| story_notified (b : bool) (sent : Py.result unit) (marked : Py.result bool) :
    vacancy_opened (last_vacancy_count a) (vacancy v) = true ->
    alert_story v a
      [EvUpdateCheck (id a) (vacancy v) (waitlist v) (Py.Returns b);
       EvNotify (id a) (telegram_id a) (notification_text a v) sent;
       EvMarkSent (id a) marked].

(** The world after one cycle. *)
Definition cycle (env : Env) (self : Checker) (w : World) : World :=
  snd (check_all_alerts env self w).

(** [w'] is reached from [w] through the events [seg] and the log
    records [lseg], and the database has changed as the events say. *)
Record follows (w : World) (seg : list Event) (lseg : list LogEntry)
  (w' : World) : Prop := {
  f_trace : trace w' = trace w ++ seg;
  f_logs : logs w' = logs w ++ lseg;
  f_ids : map a_id (alerts (db w')) = map a_id (alerts (db w));
  f_past : history_past (db w) -> history_past (db w');
  f_found : forall aid vac wait b,
      In (EvUpdateCheck aid vac wait (Py.Returns b)) seg ->
      b = known aid (db w);
  f_count : forall aid,
      stored_count aid (db w') =
      fold_left (replay_count aid) seg (stored_count aid (db w));
  f_latest : history_past (db w) -> forall aid,
      latest_view aid (db w') =
      fold_left (replay_latest aid) seg (latest_view aid (db w));
  f_notify_logged : forall aid chat text msg,
      In (EvNotify aid chat text (Py.Raises msg)) seg ->
      In (LogNotifyFailed aid msg) lseg
}.

(** An event that says nothing about the tables. *)
Definition silent (e : Event) : bool :=
  match e with
  | EvUpdateCheck _ _ _ (Py.Returns _) => false
  | EvMarkSent _ (Py.Returns _) => false
  | EvNotify _ _ _ (Py.Raises _) => false
  | _ => true
  end.

(** A computation every run of which is followed by the database. *)
Definition tracked {A : Type} (m : M A) : Prop :=
  forall w, exists seg lseg, follows w seg lseg (snd (m w)).

(** The alerts of all the groups. *)
Definition members (g : list (Key * list AlertDict)) : list AlertDict :=
  flat_map snd g.

(** Every alert sits under its own key. *)
Definition keyed (g : list (Key * list AlertDict)) : Prop :=
  forall k l a, In (k, l) g -> In a l -> key_of a = k.

(** The groups of a list of alerts with distinct ids: distinct keys,
    every alert under its key, the same alerts as the list. *)
Record sound (g : list (Key * list AlertDict)) : Prop := {
  s_keys : NoDup (map fst g);
  s_ids : NoDup (map id (members g));
  s_keyed : keyed g
}.

(** What the cycle does for an alert of a group whose fetch answered
    [out]. *)
Definition group_story (out : ApiResult IndexInfo) (a : AlertDict)
  (events : list Event) : Prop :=
  match out with
  | Fail _ => events = []
  | Success v => alert_story v a events
  end.

(** Consecutive rounds of the checker's loop, in each of which a
    positive vacancy count is observed for the alert [aid] (the write that
    carries it may go through or fail); the events of the rounds are
    collected. *)
Inductive positive_streak (interval : Z) (env : Env) (self : Checker)
  (aid : Z) : World -> list Event -> Prop :=
| streak_end (w : World) : positive_streak interval env self aid w []
| streak_round (w : World) (seg rest : list Event) (vac wait : Z)
    (r : Py.result bool) :
    trace (snd (one_round interval env self w)) = trace w ++ seg ->
    In (EvUpdateCheck aid vac wait r) seg ->
    0 < vac ->
    positive_streak interval env self aid
      (snd (one_round interval env self w)) rest ->
    positive_streak interval env self aid w (seg ++ rest).

(** The events a computation adds to the trace. *)
Definition events_of {A : Type} (m : M A) (w : World) : list Event :=
  skipn (List.length (trace w)) (trace (snd (m w))).


End Observations.

Module Samples.
Import Bs4 VacancyParser World Database VacancyApiClient VacancyChecker.
Import ParserDefs Observations.

Definition sample_user : UserRow :=
  {| u_telegram_id := 7001; u_is_active := true; u_is_paused := false;
     u_paused_until := None; u_pause_reason := None |}.

Definition sample_alert (aid : Z) (course index_no : string) (count : Z)
  : AlertRow :=
  {| a_id := aid; a_telegram_id := 7001; a_course_code := course;
     a_index_number := index_no; a_academic_year := "2025";
     a_semester := "2"; a_is_active := true; a_last_checked := None;
     a_last_vacancy_count := count |}.

(** Two alerts on SC2103/10001, one that saw no seat and one that saw
    five, and one alert on a course the server does not answer for. *)
Definition sample_db : Database :=
  {| users := [sample_user];
     alerts := [sample_alert 1 "SC2103" "10001" 0;
                sample_alert 2 "SC2103" "10001" 5;
                sample_alert 3 "MH1100" "10001" 0];
     alert_history := []; history_serial := 1; current_timestamp := 100 |}.

Definition sample_world : World :=
  {| db := sample_db; trace := []; logs := [] |}.

Definition sample_checker : Checker :=
  {| bot := Some (TelegramBot "token"); running := true |}.

(** The server answers for SC2103 with a page that shows three open
    seats for index 10001, and times out for every other course. *)
Definition sample_env : Env :=
  {| now_sg := fun _ => (10, 30);
     http_post := fun _ subj =>
       if String.eqb subj "SC2103" then Response 200 "<html>...</html>"
       else RaisesTimeout;
     scanner := fun _ => Py.Returns (page [heading_row; row_10001; row_tut]);
     db_fault := fun _ => None;
     send_message := fun _ _ _ => Py.Returns tt |}.

(** The same, with a chat that refuses the message. *)
Definition refusing_env : Env :=
  {| now_sg := now_sg sample_env; http_post := http_post sample_env;
     scanner := scanner sample_env; db_fault := db_fault sample_env;
     send_message := fun _ _ _ =>
       Py.Raises "Forbidden: bot was blocked by the user" |}.

(** A page of the server whose vacancy cell for index 10002 reads "-3",
    and the tree the scanner makes of it. *)
Definition negative_html : string :=
  "<html><body><table border><tr><td>INDEX</td><td>VACANCY</td><td>WAITLIST</td><td>TYPE</td><td>GROUP</td><td>DAY</td><td>TIME</td><td>VENUE</td></tr><tr><td>10002</td><td>-3</td><td>0</td><td>LEC</td><td>L1</td><td>MON</td><td>0830-1030</td><td>LT1A</td></tr></table></body></html>".

Definition negative_page_scanner (html : string) : Py.result PageElement :=
  if String.eqb html negative_html
  then Py.Returns (page [heading_row; row_negative])
  else Py.Raises "not the sample page".

Definition sample_index : IndexInfo :=
  {| index := "10001"; vacancy := 3; waitlist := 0;
     classes := [ {| cls_type := "LEC"; cls_group := "L1"; cls_day := "MON";
                     cls_time := "0830-1030"; cls_venue := "LT1A" |};
                  {| cls_type := "TUT"; cls_group := "T1"; cls_day := "TUE";
                     cls_time := "0930-1030"; cls_venue := "TR1" |} ] |}.
End Samples.

(** ** database.py: users, pauses and the alert list *)

Module Accounts.

Import World Database.

(** A transaction of one of the functions below: [fault] is the error
    psycopg2 raises in it, if any.  [get_connection] rolls the
    transaction back, so on a fault the tables stay as they were; a
    transaction that commits advances the clock.  (The columns
    [username], [created_at] and [updated_at] are not part of the
    tables.) *)
Definition Tx (A : Type) : Type :=
  option string -> Database -> Py.result A * Database.

Definition set_users (l : list UserRow) (d : Database) : Database :=
  {| users := l; alerts := alerts d; alert_history := alert_history d;
     history_serial := history_serial d;
     current_timestamp := current_timestamp d |}.

Definition set_alerts (l : list AlertRow) (d : Database) : Database :=
  {| users := users d; alerts := l; alert_history := alert_history d;
     history_serial := history_serial d;
     current_timestamp := current_timestamp d |}.

Definition with_active (b : bool) (u : UserRow) : UserRow :=
  {| u_telegram_id := u_telegram_id u; u_is_active := b;
     u_is_paused := u_is_paused u; u_paused_until := u_paused_until u;
     u_pause_reason := u_pause_reason u |}.

Definition with_pause (paused : bool) (until : option Z)
  (reason : option string) (u : UserRow) : UserRow :=
  {| u_telegram_id := u_telegram_id u; u_is_active := u_is_active u;
     u_is_paused := paused; u_paused_until := until;
     u_pause_reason := reason |}.

(** [WHERE telegram_id = %s] on [users] *)
Definition is_user (telegram_id : Z) (u : UserRow) : bool :=
  u_telegram_id u =? telegram_id.

(** [UPDATE users SET ... WHERE telegram_id = %s] *)
Definition update_user (telegram_id : Z) (f : UserRow -> UserRow)
  (l : list UserRow) : list UserRow :=
  map (fun u => if is_user telegram_id u then f u else u) l.

(** [cursor.rowcount > 0] after such an update. *)
Definition affected_user (telegram_id : Z) (d : Database) : bool :=
  existsb (is_user telegram_id) (users d).

(** The row [INSERT INTO users (telegram_id, username)] makes, with the
    defaults of the other columns. *)
Definition new_user (telegram_id : Z) : UserRow :=
  {| u_telegram_id := telegram_id; u_is_active := true;
     u_is_paused := false; u_paused_until := None;
     u_pause_reason := None |}.

(** [add_user(telegram_id, username)]: insert, or on conflict set
    [is_active = TRUE]. *)
Definition add_user (telegram_id : Z) (username : string) : Tx bool :=
  fun fault d =>
    match fault with
    | Some msg => (Py.Raises msg, d)
    | None =>
        (Py.Returns true,
         tick (set_users
                 (if affected_user telegram_id d
                  then update_user telegram_id (with_active true) (users d)
                  else users d ++ [new_user telegram_id]) d))
    end.

(** [get_user(telegram_id)]: the active row of the user; [None] when
    there is none, and also on a database error. *)
Definition get_user (telegram_id : Z) (fault : option string) (d : Database)
  : option UserRow * Database :=
  match fault with
  | Some _ => (None, d)
  | None =>
      (find (fun u => is_user telegram_id u && u_is_active u) (users d),
       tick d)
  end.

(** [deactivate_user(telegram_id)] *)
Definition deactivate_user (telegram_id : Z) : Tx bool :=
  fun fault d =>
    match fault with
    | Some msg => (Py.Raises msg, d)
    | None =>
        (Py.Returns (affected_user telegram_id d),
         tick (set_users
                 (update_user telegram_id (with_active false) (users d)) d))
    end.

(** [delete_user(telegram_id)]: [alerts] and [alert_history] reference
    [users] (and [alert_history] references [alerts]) with [ON DELETE
    CASCADE], so the rows that reference a deleted row go with it. *)
Definition delete_user (telegram_id : Z) : Tx bool :=
  fun fault d =>
    match fault with
    | Some msg => (Py.Raises msg, d)
    | None =>
        if affected_user telegram_id d
        then
          let owned a := a_telegram_id a =? telegram_id in
          let gone := map a_id (filter owned (alerts d)) in
          (Py.Returns true,
           tick {| users := filter (fun u => negb (is_user telegram_id u))
                              (users d);
                   alerts := filter (fun a => negb (owned a)) (alerts d);
                   alert_history :=
                     filter (fun h => negb ((h_telegram_id h =? telegram_id)
                                            || existsb (Z.eqb (h_alert_id h))
                                                 gone))
                       (alert_history d);
                   history_serial := history_serial d;
                   current_timestamp := current_timestamp d |})
        else (Py.Returns false, tick d)
    end.

Section WithClock.

(** The length of a minute, in the unit of the timestamps. *)
Variable minute : Z.

(** [pause_user(telegram_id, duration_minutes)]: [paused_until =
    CURRENT_TIMESTAMP + INTERVAL 'duration_minutes minutes']. *)
Definition pause_user (telegram_id duration_minutes : Z) : Tx bool :=
  fun fault d =>
    match fault with
    | Some msg => (Py.Raises msg, d)
    | None =>
        (Py.Returns (affected_user telegram_id d),
         tick (set_users
                 (update_user telegram_id
                    (with_pause true
                       (Some (current_timestamp d + duration_minutes * minute))
                       (Some "manual"))
                    (users d)) d))
    end.

End WithClock.

(** [resume_user(telegram_id)] *)
Definition resume_user (telegram_id : Z) : Tx bool :=
  fun fault d =>
    match fault with
    | Some msg => (Py.Raises msg, d)
    | None =>
        (Py.Returns (affected_user telegram_id d),
         tick (set_users
                 (update_user telegram_id (with_pause false None None)
                    (users d)) d))
    end.

Definition with_alert_active (b : bool) (a : AlertRow) : AlertRow :=
  {| a_id := a_id a; a_telegram_id := a_telegram_id a;
     a_course_code := a_course_code a; a_index_number := a_index_number a;
     a_academic_year := a_academic_year a; a_semester := a_semester a;
     a_is_active := b; a_last_checked := a_last_checked a;
     a_last_vacancy_count := a_last_vacancy_count a |}.

(** [stop_user(telegram_id)]: the user is paused without an end and
    every alert of the user is set inactive; the answer is always
    [True]. *)
Definition stop_user (telegram_id : Z) : Tx bool :=
  fun fault d =>
    match fault with
    | Some msg => (Py.Raises msg, d)
    | None =>
        (Py.Returns true,
         tick {| users :=
                   update_user telegram_id
                     (with_pause true None (Some "stopped")) (users d);
                 alerts :=
                   map (fun a => if a_telegram_id a =? telegram_id
                                 then with_alert_active false a else a)
                     (alerts d);
                 alert_history := alert_history d;
                 history_serial := history_serial d;
                 current_timestamp := current_timestamp d |})
    end.

(** The dictionary [check_user_pause_status] returns. *)
Record PauseStatus : Type := {
  is_paused : bool;
  paused_until : option Z;
  pause_reason : option string
}.

Definition not_paused : PauseStatus :=
  {| is_paused := false; paused_until := None; pause_reason := None |}.

Definition status_of (u : UserRow) : PauseStatus :=
  {| is_paused := u_is_paused u; paused_until := u_paused_until u;
     pause_reason := u_pause_reason u |}.

(** [WHERE telegram_id = %s AND paused_until < CURRENT_TIMESTAMP] *)
Definition pause_expired (telegram_id now : Z) (u : UserRow) : bool :=
  is_user telegram_id u
  && match u_paused_until u with
     | Some t => t <? now
     | None => false
     end.

Definition is_manual (reason : option string) : bool :=
  match reason with
  | Some r => String.eqb r "manual"
  | None => false
  end.

Definition has_value {A : Type} (x : option A) : bool :=
  match x with Some _ => true | None => false end.

(** [check_user_pause_status(telegram_id)]: a manual pause whose end has
    passed is lifted; a database error is answered as "not paused". *)
Definition check_user_pause_status (telegram_id : Z) (fault : option string)
  (d : Database) : PauseStatus * Database :=
  match fault with
  | Some _ => (not_paused, d)
  | None =>
      match find (is_user telegram_id) (users d) with
      | None => (not_paused, tick d)
      | Some result =>
          if u_is_paused result && has_value (u_paused_until result)
             && is_manual (u_pause_reason result)
          then
            let expired := pause_expired telegram_id (current_timestamp d) in
            if existsb expired (users d)
            then (not_paused,
                  tick (set_users
                          (map (fun u => if expired u
                                         then with_pause false None None u
                                         else u) (users d)) d))
            else (status_of result, tick d)
          else (status_of result, tick d)
      end
  end.

(** The columns of the [UNIQUE] constraint of [alerts]. *)
Definition same_watch (telegram_id : Z)
  (course_code index_number academic_year semester : string) (a : AlertRow)
  : bool :=
  (a_telegram_id a =? telegram_id)
  && String.eqb (a_course_code a) course_code
  && String.eqb (a_index_number a) index_number
  && String.eqb (a_academic_year a) academic_year
  && String.eqb (a_semester a) semester.

Definition or_default (x : option string) (default : string) : string :=
  match x with Some v => v | None => default end.

Section WithConfig.

(** [config.DEFAULT_ACADEMIC_YEAR] and [config.DEFAULT_SEMESTER] *)
Variable DEFAULT_ACADEMIC_YEAR : string.
Variable DEFAULT_SEMESTER : string.

(** [add_alert(telegram_id, course_code, index_number, academic_year,
    semester)], [next_id] being the next value of the serial of
    [alerts.id].  A violated constraint (the owner is not in [users], the
    id or the watch is already in [alerts]) is [IntegrityError], answered
    with [None]; any other error is raised again. *)
Definition add_alert (next_id telegram_id : Z)
  (course_code index_number : string) (academic_year semester : option string)
  : Tx (option Z) :=
  fun fault d =>
    let academic_year := or_default academic_year DEFAULT_ACADEMIC_YEAR in
    let semester := or_default semester DEFAULT_SEMESTER in
    match fault with
    | Some msg => (Py.Raises msg, d)
    | None =>
        if negb (affected_user telegram_id d)
           || existsb (fun a => a_id a =? next_id) (alerts d)
           || existsb (same_watch telegram_id (Py.upper course_code)
                         index_number academic_year semester) (alerts d)
        then (Py.Returns None, d)
        else
          (Py.Returns (Some next_id),
           tick (set_alerts
                   (alerts d ++
                      [ {| a_id := next_id; a_telegram_id := telegram_id;
                           a_course_code := Py.upper course_code;
                           a_index_number := index_number;
                           a_academic_year := academic_year;
                           a_semester := semester; a_is_active := true;
                           a_last_checked := None;
                           a_last_vacancy_count := 0 |} ]) d))
    end.

End WithConfig.

(** [WHERE id = %s AND telegram_id = %s] on [alerts] *)
Definition is_alert_of (alert_id telegram_id : Z) (a : AlertRow) : bool :=
  (a_id a =? alert_id) && (a_telegram_id a =? telegram_id).

(** [remove_alert(alert_id, telegram_id)]: the alert is set inactive, its
    row stays. *)
Definition remove_alert (alert_id telegram_id : Z) : Tx bool :=
  fun fault d =>
    match fault with
    | Some msg => (Py.Raises msg, d)
    | None =>
        (Py.Returns (existsb (is_alert_of alert_id telegram_id) (alerts d)),
         tick (set_alerts
                 (map (fun a => if is_alert_of alert_id telegram_id a
                                then with_alert_active false a else a)
                    (alerts d)) d))
    end.

(** [ORDER BY checked_at DESC]; rows with the same timestamp stay in the
    order of the table. *)
Fixpoint insert_by_checked_at (h : HistoryRow) (l : list HistoryRow)
  : list HistoryRow :=
  match l with
  | [] => [h]
  | x :: r =>
      if h_checked_at x <=? h_checked_at h
      then h :: l
      else x :: insert_by_checked_at h r
  end.

Definition order_by_checked_at (l : list HistoryRow) : list HistoryRow :=
  fold_right insert_by_checked_at [] l.

(** [get_alert_history(alert_id, limit)]: the newest [limit] history rows
    of the alert; a database error (a negative [LIMIT] is one) is answered
    with the empty list. *)
Definition get_alert_history (alert_id limit : Z) (fault : option string)
  (d : Database) : list HistoryRow * Database :=
  match fault with
  | Some _ => ([], d)
  | None =>
      if limit <? 0 then ([], d)
      else (firstn (Z.to_nat limit)
              (order_by_checked_at
                 (filter (fun h => h_alert_id h =? alert_id)
                    (alert_history d))),
            tick d)
  end.

End Accounts.

(** ** bot.py: the pages of an index list *)

Module BotPages.

Import VacancyParser.

(** [len(l)] *)
Definition len {A : Type} (l : list A) : Z := Z.of_nat (List.length l).

(** A bound of a slice, brought into [0..n]: a negative bound counts
    from the end. *)
Definition slice_bound (n i : Z) : Z :=
  if i <? 0 then Z.max (i + n) 0 else Z.min i n.

(** [l[start:stop]] *)
Definition slice {A : Type} (l : list A) (start stop : Z) : list A :=
  let lower := slice_bound (len l) start in
  let upper := slice_bound (len l) stop in
  firstn (Z.to_nat (upper - lower)) (skipn (Z.to_nat lower) l).

Definition INDEXES_PER_PAGE : Z := 5.

(** The local variables [total_pages] and [page_indexes] of
    [_send_display_page] and [_send_index_page]. *)
Definition total_pages (all_indexes : list IndexInfo) : Z :=
  (len all_indexes + INDEXES_PER_PAGE - 1) / INDEXES_PER_PAGE.

Definition page_indexes (all_indexes : list IndexInfo) (current_page : Z)
  : list IndexInfo :=
  let start_idx := current_page * INDEXES_PER_PAGE in
  let end_idx := Z.min (start_idx + INDEXES_PER_PAGE) (len all_indexes) in
  slice all_indexes start_idx end_idx.

Record InlineKeyboardButton : Type := {
  text : string;
  callback_data : string
}.

(** The list [nav_buttons], [kind] being ["display"] in
    [_send_display_page] and ["page"] in [_send_index_page]. *)
Definition nav_buttons (kind : string) (all_indexes : list IndexInfo)
  (current_page : Z) : list InlineKeyboardButton :=
  (if 0 <? current_page
   then [ {| text := "< Previous";
             callback_data :=
               (kind ++ "_" ++ Py.str_of_int (current_page - 1))%string |} ]
   else [])
  ++ [ {| text := (Py.str_of_int (current_page + 1) ++ "/"
                   ++ Py.str_of_int (total_pages all_indexes))%string;
          callback_data := (kind ++ "_info")%string |} ]
  ++ (if current_page <? total_pages all_indexes - 1
      then [ {| text := "Next >";
                callback_data :=
                  (kind ++ "_" ++ Py.str_of_int (current_page + 1))%string |} ]
      else []).

(** [text.split(sep)] for a separator of one character. *)
Fixpoint split (sep : ascii) (s : string) : list string :=
  match s with
  | EmptyString => [EmptyString]
  | String c r =>
      if Ascii.eqb c sep then EmptyString :: split sep r
      else match split sep r with
           | h :: t => String c h :: t
           | [] => [String c EmptyString]
           end
  end.

(** [handle_display_pagination] and [handle_pagination] on the data of
    the button pressed: the page stored in [user_data] afterwards, the
    page shown before being [current_page].  [int] may raise. *)
Definition handle_pagination (kind data : string) (current_page : Z)
  : Py.result Z :=
  if String.eqb data (kind ++ "_info")%string then Py.Returns current_page
  else if String.prefix (kind ++ "_")%string data
  then match nth_error (split "_" data) 1 with
       | Some part =>
           match Py.int part with
           | Some page_num => Py.Returns page_num
           | None => Py.Raises "invalid literal for int() with base 10"
           end
       | None => Py.Raises "list index out of range"
       end
  else Py.Returns current_page.

End BotPages.

(** ** bot.py: the /remove command *)

Module BotCommands.

Import World.

(** [remove_alert(update, context)]: the text passed to [reply_text],
    [args] being [context.args] and [user_id] the id of the sender.  An
    error of the database is not caught. *)
Definition remove_alert (args : list string) (user_id : Z)
  : Accounts.Tx string :=
  fun fault d =>
    match args with
    | [] =>
        (Py.Returns
           ("Please provide an alert ID." ++ VacancyChecker.nl
            ++ "Usage: /remove <ID>" ++ VacancyChecker.nl
            ++ "Use /list to see your alert IDs.")%string,
         d)
    | arg :: _ =>
        match Py.int arg with
        | None =>
            (Py.Returns "Invalid alert ID. Please provide a number.", d)
        | Some alert_id =>
            match Accounts.remove_alert alert_id user_id fault d with
            | (Py.Returns true, d1) =>
                (Py.Returns
                   ("Alert " ++ Py.str_of_int alert_id
                    ++ " has been removed.")%string,
                 d1)
            | (Py.Returns false, d1) =>
                (Py.Returns
                   "Alert not found or you don't have permission to remove it.",
                 d1)
            | (Py.Raises msg, d1) => (Py.Raises msg, d1)
            end
        end
    end.

End BotCommands.

(** ** Further notions *)

Module StoreNotions.

Import World Database Accounts.

(** One statement sequence the engine commits. *)
Inductive engine_step : Database -> Database -> Prop :=
| step_tick (d : Database) : engine_step d (tick d)
| step_record (d : Database) (alert_id vac wait : Z) (info : AlertRow) :
    find (fun a => a_id a =? alert_id) (alerts d) = Some info ->
    engine_step d (record_check alert_id vac wait info d)
| step_mark (d : Database) (alert_id : Z) :
    engine_step d (mark_latest alert_id d).

Inductive engine_steps : Database -> Database -> Prop :=
| steps_none (d : Database) : engine_steps d d
| steps_more (d d1 d2 : Database) :
    engine_steps d d1 -> engine_step d1 d2 -> engine_steps d d2.

(** A computation every run of which changes the database by steps of
    the engine only. *)
Definition stepping {A : Type} (m : M A) : Prop :=
  forall w, engine_steps (db w) (db (snd (m w))).

(** One call of an operation of database.py, failed or committed. *)
Inductive store_step : Database -> Database -> Prop :=
| by_engine (d d' : Database) : engine_step d d' -> store_step d d'
| by_add_user (tid : Z) (name : string) (fault : option string)
    (d : Database) :
    store_step d (snd (add_user tid name fault d))
| by_get_user (tid : Z) (fault : option string) (d : Database) :
    store_step d (snd (get_user tid fault d))
| by_deactivate_user (tid : Z) (fault : option string) (d : Database) :
    store_step d (snd (deactivate_user tid fault d))
| by_delete_user (tid : Z) (fault : option string) (d : Database) :
    store_step d (snd (delete_user tid fault d))
| by_pause_user (minute tid dur : Z) (fault : option string) (d : Database) :
    store_step d (snd (pause_user minute tid dur fault d))
| by_resume_user (tid : Z) (fault : option string) (d : Database) :
    store_step d (snd (resume_user tid fault d))
| by_stop_user (tid : Z) (fault : option string) (d : Database) :
    store_step d (snd (stop_user tid fault d))
| by_check_user_pause_status (tid : Z) (fault : option string)
    (d : Database) :
    store_step d (snd (check_user_pause_status tid fault d))
| by_add_alert (year sem : string) (next_id tid : Z) (course index_no : string)
    (y s : option string) (fault : option string) (d : Database) :
    store_step d (snd (add_alert year sem next_id tid course index_no y s
                         fault d))
| by_remove_alert (aid tid : Z) (fault : option string) (d : Database) :
    store_step d (snd (remove_alert aid tid fault d))
| by_get_alert_history (aid limit : Z) (fault : option string)
    (d : Database) :
    store_step d (snd (get_alert_history aid limit fault d)).

Inductive store_steps : Database -> Database -> Prop :=
| store_none (d : Database) : store_steps d d
| store_more (d d1 d2 : Database) :
    store_steps d d1 -> store_step d1 d2 -> store_steps d d2.

(** The columns of an alert the engine never writes. *)
Definition identity (a : AlertRow)
  : Z * Z * string * string * string * string * bool :=
  (a_id a, a_telegram_id a, a_course_code a, a_index_number a,
   a_academic_year a, a_semester a, a_is_active a).

(** The columns of a history row that are written once. *)
Definition entry (h : HistoryRow)
  : Z * Z * Z * string * string * Z * Z * Z :=
  (h_id h, h_alert_id h, h_telegram_id h, h_course_code h, h_index_number h,
   h_vacancy_count h, h_waitlist_count h, h_checked_at h).

(** A history row as it may be found later: the same row, its flag
    possibly raised. *)
Definition kept (h h' : HistoryRow) : Prop :=
  entry h' = entry h
  /\ (h_notification_sent h = true -> h_notification_sent h' = true).

(** The constraints of the schema: primary keys, the [UNIQUE] constraint
    of [alerts], the references; and what the serial and the clock
    guarantee for [alert_history]. *)
Definition watch_of (a : AlertRow) : Z * string * string * string * string :=
  (a_telegram_id a, a_course_code a, a_index_number a, a_academic_year a,
   a_semester a).

Record well_formed (d : Database) : Prop := {
  wf_users : NoDup (map u_telegram_id (users d));
  wf_alerts : NoDup (map a_id (alerts d));
  wf_watches : NoDup (map watch_of (alerts d));
  wf_owner :
    incl (map a_telegram_id (alerts d)) (map u_telegram_id (users d));
  wf_history_alert :
    incl (map h_alert_id (alert_history d)) (map a_id (alerts d));
  wf_history_user :
    incl (map h_telegram_id (alert_history d)) (map u_telegram_id (users d));
  wf_history_ids : NoDup (map h_id (alert_history d));
  wf_serial : Forall (fun h => h_id h < history_serial d) (alert_history d);
  wf_past : Forall (fun h => h_checked_at h < current_timestamp d)
              (alert_history d)
}.

(** Every history row carries the owner, the course and the index of
    its alert. *)
Definition history_matches (d : Database) : Prop :=
  forall h, In h (alert_history d) ->
    exists a, In a (alerts d) /\ a_id a = h_alert_id h
              /\ a_telegram_id a = h_telegram_id h
              /\ a_course_code a = h_course_code h
              /\ a_index_number a = h_index_number h.

(** A pause with an end is a manual pause. *)
Definition coherent_row (u : UserRow) : Prop :=
  u_is_paused u = true -> u_paused_until u <> None ->
  u_pause_reason u = Some "manual".

Definition pause_coherent (d : Database) : Prop :=
  Forall coherent_row (users d).

(** The pause condition of [get_all_active_alerts]. *)
Definition pause_over (now : Z) (u : UserRow) : bool :=
  negb (u_is_paused u)
  || (u_is_paused u
      && match u_paused_until u with
         | Some t => t <? now
         | None => false
         end).

(** The alert [aid] is among those [get_all_active_alerts] returns. *)
Definition loaded (aid : Z) (d : Database) : Prop :=
  In aid (map id (select_active d)).

(** [y] is not newer than [x]: the order of [ORDER BY checked_at
    DESC]. *)
Definition not_newer (x y : HistoryRow) : Prop :=
  h_checked_at y <= h_checked_at x.

(** [x] comes before [y] under [ORDER BY last_checked ASC NULLS FIRST]. *)
Definition checked_before (x y : AlertRow) : Prop :=
  checked_le (a_last_checked x) (a_last_checked y) = true.

End StoreNotions.

Module ParserNotions.

Import Bs4 VacancyParser ParserDefs.

(** The index a header row opens, before any session is added. *)
Definition opened (row : PageElement) : IndexInfo :=
  {| index := cell_text (cells_of row) 0;
     vacancy := _parse_number (cell_text (cells_of row) 1);
     waitlist := _parse_number (cell_text (cells_of row) 2);
     classes := [] |}.

(** A row that carries a class session: eight cells and a class type. *)
Definition has_session (row : PageElement) : bool :=
  (8 <=? List.length (cells_of row))%nat
  && Py.truthy (cell_text (cells_of row) 3).

Definition session_in (row : PageElement) : ClassSession :=
  session_of (cell_text (cells_of row)).

(** The rows up to the next header row. *)
Fixpoint until_header (rows : list PageElement) : list PageElement :=
  match rows with
  | [] => []
  | r :: rest => if is_header r then [] else r :: until_header rest
  end.

(** The table cut at its header rows: each header row with the rows that
    follow it up to the next header row.  Rows before the first header
    row belong to no block. *)
Fixpoint blocks (rows : list PageElement)
  : list (PageElement * list PageElement) :=
  match rows with
  | [] => []
  | r :: rest =>
      if is_header r then (r, until_header rest) :: blocks rest
      else blocks rest
  end.

(** The index of a block: opened by the header row, with the sessions
    of the rows of the block, the header row first. *)
Definition block_index (b : PageElement * list PageElement) : IndexInfo :=
  {| index := index (opened (fst b));
     vacancy := vacancy (opened (fst b));
     waitlist := waitlist (opened (fst b));
     classes := map session_in (filter has_session (fst b :: snd b)) |}.

(** Index number and counts of an entry. *)
Definition summary (i : IndexInfo) : string * Z * Z :=
  (index i, vacancy i, waitlist i).

(** The entry with the sessions of further rows appended. *)
Definition with_sessions (i : IndexInfo) (rows : list PageElement)
  : IndexInfo :=
  {| index := index i; vacancy := vacancy i; waitlist := waitlist i;
     classes := classes i ++ map session_in (filter has_session rows) |}.

(** [sys.get_int_max_str_digits()]: the interpreter refuses, with a
    [ValueError], to convert between [str] and [int] a number of more
    digits than this. *)
Definition int_max_str_digits : Z := 4300.

(** The decimal text of [n] stays within that limit. *)
Definition within_digit_limit (n : Z) : Prop :=
  Z.abs n < 10 ^ int_max_str_digits.

End ParserNotions.

Module CheckerNotions.

Import VacancyParser World VacancyChecker.

(** The keys of a list of alerts, each once, in the order of first
    appearance. *)
Fixpoint first_keys (seen : list Key) (l : list AlertDict) : list Key :=
  match l with
  | [] => []
  | a :: rest =>
      if existsb (key_eqb (key_of a)) seen then first_keys seen rest
      else key_of a :: first_keys (seen ++ [key_of a]) rest
  end.

(** The alerts of the list that watch [k], in the order of the list. *)
Definition watching (k : Key) (l : list AlertDict) : list AlertDict :=
  filter (fun a => key_eqb (key_of a) k) l.

(** The fetches and pauses among the events: what paces the cycle. *)
Inductive Beat : Type :=
| BeatFetch (k : Key)
| BeatSleep (seconds : Z).

Definition beat (e : Event) : list Beat :=
  match e with
  | EvFetch c i _ => [BeatFetch (c, i)]
  | EvSleep s => [BeatSleep s]
  | _ => []
  end.

Definition beats (seg : list Event) : list Beat := flat_map beat seg.

(** A call of the database that raised. *)
Definition db_failed (e : Event) : bool :=
  match e with
  | EvListActive (Py.Raises _) => true
  | EvUpdateCheck _ _ _ (Py.Raises _) => true
  | EvMarkSent _ (Py.Raises _) => true
  | _ => false
  end.

(** A fetch that succeeded. *)
Definition fetched (e : Event) : bool :=
  match e with
  | EvFetch _ _ (Success _) => true
  | _ => false
  end.

End CheckerNotions.

(** ** The trace as a record of what the outside answered *)

Module Answers.

Import World VacancyChecker.

(** What a call of the database answers after the events [pre]: the
    error of the failing transaction, or the value [ok]. *)
Definition db_answer {A : Type} (env : Env) (pre : list Event) (ok : A)
  : Py.result A :=
  match db_fault env pre with
  | Some msg => Py.Raises msg
  | None => Py.Returns ok
  end.

(** What [bot.send_message] answers after the events [pre]. *)
Definition send_answer (env : Env) (self : Checker) (pre : list Event)
  (chat : Z) (text : string) : Py.result unit :=
  match bot self with
  | Some _ => send_message env pre chat text
  | None => Py.Raises "'NoneType' object has no attribute 'send_message'"
  end.

(** The event [e], recorded after the events [pre], carries what the
    outside answered at that moment. *)
Definition answered (env : Env) (self : Checker) (pre : list Event)
  (e : Event) : Prop :=
  match e with
  | EvPost subj out => out = http_post env pre subj
  | EvListActive r => exists n, r = db_answer env pre n
  | EvUpdateCheck _ _ _ r => exists b, r = db_answer env pre b
  | EvMarkSent _ r => r = db_answer env pre true
  | EvNotify _ chat text r => r = send_answer env self pre chat text
  | EvFetch _ _ _ => True
  | EvSleep _ => True
  end.

(** The event after a notification is the mark of the same alert. *)
Definition marked_next (e : Event) (rest : list Event) : Prop :=
  match e with
  | EvNotify aid _ _ _ =>
      match rest with
      | EvMarkSent aid' _ :: _ => aid' = aid
      | _ => False
      end
  | _ => True
  end.

(** The events [seg], recorded after [pre], each carry the answer of the
    outside, and each notification is followed by its mark. *)
Fixpoint scripted (env : Env) (self : Checker) (pre seg : list Event)
  : Prop :=
  match seg with
  | [] => True
  | e :: rest =>
      answered env self pre e /\ marked_next e rest
      /\ scripted env self (pre ++ [e]) rest
  end.

(** A computation every run of which adds such events to the trace. *)
Definition plays (env : Env) (self : Checker) {A : Type} (m : M A) : Prop :=
  forall w, exists seg,
    trace (snd (m w)) = trace w ++ seg /\ scripted env self (trace w) seg.

End Answers.

Module MoreSamples.

Import World Database Accounts Samples.

Definition second_user : UserRow :=
  {| u_telegram_id := 7002; u_is_active := true; u_is_paused := false;
     u_paused_until := None; u_pause_reason := None |}.

Definition second_alert : AlertRow :=
  {| a_id := 2; a_telegram_id := 7002; a_course_code := "SC2103";
     a_index_number := "10001"; a_academic_year := "2025";
     a_semester := "2"; a_is_active := true; a_last_checked := None;
     a_last_vacancy_count := 5 |}.

(** Two users; the first watches SC2103/10001 and MH1100/10001, the
    second SC2103/10001. *)
Definition tidy_db : Database :=
  {| users := [sample_user; second_user];
     alerts := [sample_alert 1 "SC2103" "10001" 0; second_alert;
                sample_alert 3 "MH1100" "10001" 0];
     alert_history := []; history_serial := 1; current_timestamp := 100 |}.

Definition tidy_world : World :=
  {| db := tidy_db; trace := []; logs := [] |}.

Definition after_fetch (events : list Event) : bool :=
  match last events (EvSleep 0) with
  | EvFetch _ _ _ => true
  | _ => false
  end.


(** The sample server and chat, with a database that loses the
    transaction which follows a fetch: the first write of each group
    fails. *)
Definition failing_write_env : Env :=
  {| now_sg := now_sg sample_env; http_post := http_post sample_env;
     scanner := scanner sample_env;
     db_fault := fun events =>
       if after_fetch events then Some "connection already closed" else None;
     send_message := send_message sample_env |}.


End MoreSamples.

(** * Facts *)

(** ** The definitions on sample inputs *)

Module Examples.

Import Bs4 VacancyParser World Database VacancyApiClient VacancyChecker.
Import ParserDefs Observations Samples.

Example parse_number_samples :
  map _parse_number
    [""; "-"; "N/A"; "&nbsp;"; nbsp; " 12 "; "007"; "1_000"; "+5"; "-5";
     "1__0"; "_1"; "full"; "1 2"]
  = [0; 0; 0; 0; 0; 12; 7; 1000; 5; -5; 0; 0; 0; 0].
Proof. reflexivity. Qed.

Example parse_sample_page :
  parse_soup (page [heading_row; row_10001; row_tut]) = [sample_index].
Proof. reflexivity. Qed.

Example parse_skips_first_row :
  parse_soup (page [row_10001; row_tut]) = [].
Proof. reflexivity. Qed.

Example parse_blank_type_row :
  parse_soup (page [heading_row; row_10001; row_blank_type]) =
  parse_soup (page [heading_row; row_10001]).
Proof. reflexivity. Qed.

Example parse_negative_cell :
  map vacancy (parse_soup (page [heading_row; row_negative])) = [-3].
Proof. reflexivity. Qed.

Example parse_placeholder_row :
  parse_soup (page [heading_row; row_placeholder]) = [].
Proof. reflexivity. Qed.

Example window_closed_at_night :
  fst (get_index_vacancy
         {| now_sg := fun _ => (23, 15); http_post := http_post sample_env;
            scanner := scanner sample_env; db_fault := db_fault sample_env;
            send_message := send_message sample_env |}
         "sc2103" "10001" sample_world)
  = Fail (failure time_restriction
            "NTU STARS vacancy service is only available from 8:00 AM to 10:00 PM (Singapore time). Current time: 11:15 PM")
  /\ trace (snd (get_index_vacancy
                   {| now_sg := fun _ => (23, 15);
                      http_post := http_post sample_env;
                      scanner := scanner sample_env;
                      db_fault := db_fault sample_env;
                      send_message := send_message sample_env |}
                   "sc2103" "10001" sample_world))
     = [EvFetch "sc2103" "10001"
          (Fail (failure time_restriction
                   "NTU STARS vacancy service is only available from 8:00 AM to 10:00 PM (Singapore time). Current time: 11:15 PM"))].
Proof. split; reflexivity. Qed.

Example sample_cycle_events :
  map (fun e => match e with
                | EvNotify a c _ r => EvNotify a c "" r
                | EvFetch c i (Success v) =>
                    EvFetch c i (Success {| index := index v;
                                            vacancy := vacancy v;
                                            waitlist := waitlist v;
                                            classes := [] |})
                | _ => e
                end)
    (events_of (check_all_alerts sample_env sample_checker) sample_world)
  = [EvListActive (Py.Returns 3%nat);
     EvPost "SC2103" (Response 200 "<html>...</html>");
     EvFetch "SC2103" "10001"
       (Success {| index := "10001"; vacancy := 3; waitlist := 0;
                   classes := [] |});
     EvUpdateCheck 1 3 0 (Py.Returns true);
     EvNotify 1 7001 "" (Py.Returns tt);
     EvMarkSent 1 (Py.Returns true);
     EvUpdateCheck 2 3 0 (Py.Returns true);
     EvSleep 2;
     EvPost "MH1100" RaisesTimeout;
     EvFetch "MH1100" "10001"
       (Fail (failure timeout
                "Request Timeout - Server took too long to respond"));
     EvSleep 2].
Proof. vm_compute. reflexivity. Qed.

Example sample_cycle_history :
  map (fun h => (h_alert_id h, view h))
    (alert_history (db (cycle sample_env sample_checker sample_world)))
  = [(1, (3, 0, true)); (2, (3, 0, false))].
Proof. vm_compute. reflexivity. Qed.

Example refused_message_is_still_marked :
  map (fun h => (h_alert_id h, view h))
    (alert_history (db (cycle refusing_env sample_checker sample_world)))
  = [(1, (3, 0, true)); (2, (3, 0, false))].
Proof. vm_compute. reflexivity. Qed.

End Examples.

Module PyFacts.
Import Py ParserDefs.

Lemma lstrip_clean_head s : clean_head (lstrip s).
Proof.
  induction s as [|c r IH]; simpl; [exact I|].
  destruct (isspace c) eqn:E; [exact IH | simpl; exact E].
Qed.

Lemma rstrip_clean_head s : clean_head s -> clean_head (rstrip s).
Proof.
  destruct s as [|c r]; simpl; [trivial|].
  intros E. destruct (rstrip r); [rewrite E|]; simpl; exact E.
Qed.

Lemma lstrip_of_clean s : clean_head s -> lstrip s = s.
Proof. destruct s as [|c r]; simpl; [trivial|]. now intros ->. Qed.

Lemma rstrip_cons c r :
  rstrip (String c r) =
  match rstrip r with
  | EmptyString => if isspace c then EmptyString else String c EmptyString
  | r' => String c r'
  end.
Proof. reflexivity. Qed.

Lemma rstrip_idem s : rstrip (rstrip s) = rstrip s.
Proof.
  induction s as [|c r IH]; [reflexivity|].
  rewrite (rstrip_cons c r).
  destruct (rstrip r) as [|d r'] eqn:E.
  - destruct (isspace c) eqn:Ec; [reflexivity|].
    rewrite rstrip_cons. simpl. now rewrite Ec.
  - rewrite rstrip_cons, IH. reflexivity.
Qed.

Lemma strip_idem s : strip (strip s) = strip s.
Proof.
  unfold strip at 1.
  rewrite (lstrip_of_clean (strip s)).
  - unfold strip. apply rstrip_idem.
  - unfold strip. apply rstrip_clean_head, lstrip_clean_head.
Qed.

Lemma int_strip s : int (strip s) = int s.
Proof. unfold int. now rewrite strip_idem. Qed.

Lemma digit_value_range c d : digit_value c = Some d -> 0 <= d <= 9.
Proof.
  unfold digit_value.
  destruct ((48 <=? nat_of_ascii c)%nat && (nat_of_ascii c <=? 57)%nat) eqn:E;
    [|discriminate].
  apply andb_true_iff in E as [E1 E2].
  apply Nat.leb_le in E1, E2. intros [= <-]. lia.
Qed.

Lemma digits_after_nonneg n : forall s acc v,
  (String.length s <= n)%nat -> 0 <= acc -> digits_after acc s = Some v -> 0 <= v.
Proof.
  induction n as [|n IH]; intros s acc v Hlen Hacc.
  - destruct s; cbn [digits_after String.length] in *;
      [intros [= <-]; exact Hacc | lia].
  - destruct s as [|c r]; cbn [digits_after String.length] in *;
      [intros [= <-]; exact Hacc|].
    destruct (digit_value c) as [d|] eqn:Ed.
    + apply digit_value_range in Ed. apply IH; lia.
    + destruct (Ascii.eqb c "_"); [|discriminate].
      destruct r as [|c' r']; [discriminate|].
      destruct (digit_value c') as [d|] eqn:Ed'; [|discriminate].
      apply digit_value_range in Ed'. cbn [String.length] in Hlen.
      apply IH; lia.
Qed.

Lemma unsigned_literal_nonneg s v : unsigned_literal s = Some v -> 0 <= v.
Proof.
  destruct s as [|c r]; cbn [unsigned_literal]; [discriminate|].
  destruct (digit_value c) as [d|] eqn:Ed; [|discriminate].
  apply digit_value_range in Ed.
  apply (digits_after_nonneg (String.length r)); lia.
Qed.

End PyFacts.

Module ParserFacts.
Import Bs4 VacancyParser ParserDefs PyFacts.

Lemma parse_number_nonneg text :
  has_minus text = false -> 0 <= _parse_number text.
Proof.
  unfold has_minus, _parse_number. intros Hm.
  destruct (negb (Py.truthy (Py.strip text))
            || Py.str_in (Py.strip text) [""; "&nbsp;"; "-"; "N/A"]);
    [lia|].
  rewrite int_strip. unfold Py.int.
  destruct (Py.strip text) as [|c r]; [lia|].
  rewrite Hm.
  destruct (Ascii.eqb c "+").
  - destruct (Py.unsigned_literal r) eqn:E; [|lia].
    now apply unsigned_literal_nonneg in E.
  - destruct (Py.unsigned_literal (String c r)) eqn:E; [|lia].
    now apply unsigned_literal_nonneg in E.
Qed.

Lemma parse_number_not_int text : Py.int text = None -> _parse_number text = 0.
Proof.
  intros H. unfold _parse_number.
  destruct (negb (Py.truthy (Py.strip text))
            || Py.str_in (Py.strip text) [""; "&nbsp;"; "-"; "N/A"]);
    [reflexivity|].
  now rewrite int_strip, H.
Qed.

(** *** The loop state *)

Lemma update_at_length {A} (f : A -> A) l : forall k,
  List.length (update_at k f l) = List.length l.
Proof.
  induction l as [|x r IH]; intros [|k]; simpl; auto.
Qed.

Lemma update_at_last {A} (f : A -> A) l x :
  update_at (List.length l) f (l ++ [x]) = l ++ [f x].
Proof. induction l as [|y r IH]; simpl; [reflexivity|now rewrite IH]. Qed.

Lemma linked_snoc st secs last :
  linked st -> indexes st = secs ++ [last] ->
  current_index st = Some (List.length secs).
Proof.
  unfold linked. intros -> E. rewrite E.
  destruct (secs ++ [last]) eqn:E'.
  - now destruct secs.
  - rewrite <- E', length_app. simpl. f_equal. lia.
Qed.

Lemma linked_nil st : linked st -> indexes st = [] -> current_index st = None.
Proof. unfold linked. now intros -> ->. Qed.

Lemma process_cells_linked st txt : linked st -> linked (process_cells st txt).
Proof.
  intros L. unfold process_cells.
  destruct (opens_index (txt 0%nat)); cbn [current_index indexes].
  - destruct (Py.truthy (txt 3%nat)); unfold linked; cbn [current_index indexes].
    + rewrite update_at_last, length_app. simpl.
      destruct (indexes st ++ _) eqn:E; [now destruct (indexes st)|].
      f_equal. lia.
    + rewrite length_app. simpl.
      destruct (indexes st ++ _) eqn:E; [now destruct (indexes st)|].
      f_equal. lia.
  - destruct (current_index st) as [k|] eqn:Ek; [|exact L].
    destruct (Py.truthy (txt 3%nat)); [|exact L].
    unfold linked in *; cbn [current_index indexes].
    rewrite Ek in L. rewrite update_at_length.
    destruct (indexes st) as [|x r] eqn:E; [discriminate|].
    destruct k; simpl; exact L.
Qed.

Lemma process_row_linked st row : linked st -> linked (process_row st row).
Proof.
  intros L. unfold process_row.
  destruct (_ <? 8)%nat; [exact L | now apply process_cells_linked].
Qed.

Lemma fold_linked rows : forall st,
  linked st -> linked (fold_left process_row rows st).
Proof.
  induction rows as [|r rows IH]; intros st L; simpl; [exact L|].
  apply IH, process_row_linked, L.
Qed.

Lemma run_linked rows : linked (run rows).
Proof. apply fold_linked. reflexivity. Qed.

Lemma run_snoc rows row : run (rows ++ [row]) = process_row (run rows) row.
Proof. unfold run. now rewrite fold_left_app. Qed.

(** *** Vacancy and waitlist of the indexes *)

Lemma update_at_Forall {A} (P : A -> Prop) f :
  (forall x, P x -> P (f x)) ->
  forall l k, Forall P l -> Forall P (update_at k f l).
Proof.
  intros Hf. induction l as [|x r IH]; intros k H; [destruct k; constructor|].
  inversion H; subst. destruct k; simpl; constructor; auto.
Qed.

Lemma process_row_nonneg st row :
  (has_minus (cell_text (cells_of row) 1) = false /\
   has_minus (cell_text (cells_of row) 2) = false) ->
  Forall counts_nonneg (indexes st) ->
  Forall counts_nonneg (indexes (process_row st row)).
Proof.
  intros [H1 H2] F. unfold process_row. fold (cells_of row).
  destruct (_ <? 8)%nat; [exact F|].
  unfold process_cells.
  set (st1 := if opens_index _ then _ else st).
  assert (F1 : Forall counts_nonneg (indexes st1)).
  { subst st1. destruct (opens_index _); [|exact F]. cbn [indexes].
    apply Forall_app. split; [exact F|]. constructor; [|constructor].
    split; cbn [vacancy waitlist]; now apply parse_number_nonneg. }
  destruct (current_index st1); [|exact F1].
  destruct (Py.truthy _); [|exact F1].
  cbn [indexes]. apply update_at_Forall; [|exact F1].
  now intros x [? ?].
Qed.

Lemma fold_nonneg rows : forall st,
  (forall row, In row rows ->
     has_minus (cell_text (cells_of row) 1) = false /\
     has_minus (cell_text (cells_of row) 2) = false) ->
  Forall counts_nonneg (indexes st) ->
  Forall counts_nonneg (indexes (fold_left process_row rows st)).
Proof.
  induction rows as [|r rows IH]; intros st H F; simpl; [exact F|].
  apply IH; [intros; apply H; now right|].
  apply process_row_nonneg; [apply H; now left | exact F].
Qed.

End ParserFacts.

Module ParserClaims.
Import Bs4 VacancyParser ParserDefs Samples PyFacts ParserFacts.

(** C5.  When the scanned document holds no table with a border
    attribute, the parser succeeds with the empty list. *)
Theorem no_table_gives_empty_list
  (BeautifulSoup : string -> Py.result PageElement)
  (html course_code : string) (soup : PageElement) :
  BeautifulSoup html = Py.Returns soup ->
  find_with_attr "table" "border" soup = None ->
  parse_vacancy_html BeautifulSoup html course_code = Some [].
Proof.
  intros Hscan Hfind. unfold parse_vacancy_html, parse_soup.
  now rewrite Hscan, Hfind.
Qed.

Lemma no_table_gives_empty_list_witness :
  parse_vacancy_html (fun html => Py.Returns (Tag "[document]" [] [NavigableString html]))
    "No vacancy information" "SC2103" = Some [].
Proof.
  apply (no_table_gives_empty_list _ _ _
           (Tag "[document]" [] [NavigableString "No vacancy information"]));
    reflexivity.
Defined.

(** C6.  The empty string, a dash, the no-break-space placeholder (as
    the character or as the entity text), "N/A", and every text that
    [int] rejects are parsed as 0; [_parse_number] is total, so it never
    raises. *)
Theorem parse_number_malformed_is_zero (text : string) :
  In text [""; "-"; nbsp; "&nbsp;"; "N/A"] \/ Py.int text = None ->
  _parse_number text = 0.
Proof.
  intros [H | H]; [|now apply parse_number_not_int].
  repeat (destruct H as [<- | H]; [reflexivity|]). destruct H.
Qed.

Lemma parse_number_malformed_is_zero_witness :
  _parse_number "N/A" = 0 /\ _parse_number nbsp = 0
  /\ _parse_number "full" = 0.
Proof.
  split; [|split].
  - apply (parse_number_malformed_is_zero "N/A"). left. simpl. tauto.
  - apply (parse_number_malformed_is_zero nbsp). left. simpl. tauto.
  - apply (parse_number_malformed_is_zero "full"). right. reflexivity.
Defined.

(** C7, as stated, fails: on the page [negative_html], whose vacancy cell
    for index 10002 reads "-3", the parser returns an index whose vacancy
    is -3. *)
Lemma negative_vacancy_counterexample :
  ~ (forall (BeautifulSoup : string -> Py.result PageElement)
            (html course_code : string) (l : list IndexInfo),
        parse_vacancy_html BeautifulSoup html course_code = Some l ->
        Forall counts_nonneg l).
Proof.
  intros H.
  specialize (H negative_page_scanner negative_html "SC2103" _ eq_refl).
  inversion H as [|i l [Hv _] _]; subst.
  vm_compute in Hv. now apply Hv.
Qed.

(** C7, amended.  The vacancy and the waitlist of every index the parser
    returns are non-negative when no vacancy or waitlist cell of the
    table's data rows starts with a minus sign. *)
Theorem counts_nonneg_without_minus
  (BeautifulSoup : string -> Py.result PageElement)
  (html course_code : string) (soup : PageElement) (l : list IndexInfo) :
  BeautifulSoup html = Py.Returns soup ->
  (forall table row,
      find_with_attr "table" "border" soup = Some table ->
      In row (data_rows table) ->
      has_minus (cell_text (cells_of row) 1) = false /\
      has_minus (cell_text (cells_of row) 2) = false) ->
  parse_vacancy_html BeautifulSoup html course_code = Some l ->
  Forall counts_nonneg l.
Proof.
  intros Hscan Hcells. unfold parse_vacancy_html, parse_soup.
  rewrite Hscan. intros [= <-].
  destruct (find_with_attr "table" "border" soup) as [table|] eqn:Hfind;
    [|constructor].
  apply fold_nonneg; [|constructor].
  intros row Hin. now apply (Hcells table).
Qed.

Lemma counts_nonneg_without_minus_witness :
  Forall counts_nonneg
    [ {| index := "10001"; vacancy := 3; waitlist := 0;
         classes := [ {| cls_type := "LEC"; cls_group := "L1";
                         cls_day := "MON"; cls_time := "0830-1030";
                         cls_venue := "LT1A" |};
                      {| cls_type := "TUT"; cls_group := "T1";
                         cls_day := "TUE"; cls_time := "0930-1030";
                         cls_venue := "TR1" |} ] |} ].
Proof.
  apply (counts_nonneg_without_minus
           (fun _ => Py.Returns (page [heading_row; row_10001; row_tut]))
           "<table border>...</table>" "SC2103"
           (page [heading_row; row_10001; row_tut])).
  - reflexivity.
  - intros table row Hfind Hin.
    vm_compute in Hfind. injection Hfind as <-.
    vm_compute in Hin.
    destruct Hin as [<- | [<- | []]]; split; reflexivity.
  - reflexivity.
Defined.

(** C9, as stated, fails: a row of eight cells with an empty leading
    cell and an empty class-type cell adds no class session. *)
Lemma blank_type_row_counterexample :
  ~ (forall (pre : list PageElement) (row : PageElement),
        (8 <= List.length (cells_of row))%nat ->
        cell_text (cells_of row) 0 = "" ->
        sessions_total (indexes (run (pre ++ [row]))) =
        S (sessions_total (indexes (run pre)))).
Proof.
  intros H.
  specialize (H [row_10001] row_blank_type (le_n 8) eq_refl).
  vm_compute in H. discriminate H.
Qed.

(** C9, amended.  Among the rows after the table's first row: a row with
    fewer than eight cells leaves the state as it is; a row of at least
    eight cells whose leading cell is empty appends exactly one class
    session to the last index opened so far when its class-type cell is
    not empty and an index has been opened, and leaves the state as it is
    otherwise. *)
Theorem continuation_row_appends_to_last_index
  (pre : list PageElement) (row : PageElement) :
  ((List.length (cells_of row) < 8)%nat -> run (pre ++ [row]) = run pre)
  /\
  ((8 <= List.length (cells_of row))%nat ->
   cell_text (cells_of row) 0 = "" ->
   (forall secs last,
       indexes (run pre) = secs ++ [last] ->
       Py.truthy (cell_text (cells_of row) 3) = true ->
       indexes (run (pre ++ [row])) =
       secs ++ [add_class (session_of (cell_text (cells_of row))) last])
   /\ (Py.truthy (cell_text (cells_of row) 3) = false ->
       run (pre ++ [row]) = run pre)
   /\ (indexes (run pre) = [] -> run (pre ++ [row]) = run pre)).
Proof.
  rewrite run_snoc. unfold process_row. fold (cells_of row).
  split.
  - intros Hlt. apply Nat.ltb_lt in Hlt. now rewrite Hlt.
  - intros Hge Hlead.
    assert (Hnlt : (List.length (cells_of row) <? 8)%nat = false)
      by (apply Nat.ltb_ge; exact Hge).
    rewrite Hnlt. unfold process_cells. rewrite Hlead. cbn [opens_index Py.truthy andb].
    pose proof (run_linked pre) as L.
    repeat split.
    + intros secs last E Ht.
      rewrite (linked_snoc _ _ _ L E), Ht. cbn [indexes].
      rewrite E. apply update_at_last.
    + intros Ht. rewrite Ht. now destruct (current_index (run pre)).
    + intros E. now rewrite (linked_nil _ L E).
Qed.

Lemma continuation_row_appends_to_last_index_witness :
  indexes (run ([row_10001] ++ [row_tut])) =
  [] ++ [add_class (session_of (cell_text (cells_of row_tut)))
           {| index := "10001"; vacancy := 3; waitlist := 0;
              classes := [ {| cls_type := "LEC"; cls_group := "L1";
                              cls_day := "MON"; cls_time := "0830-1030";
                              cls_venue := "LT1A" |} ] |}]
  /\ run ([row_10001] ++ [row_short]) = run [row_10001].
Proof.
  destruct (continuation_row_appends_to_last_index [row_10001] row_tut)
    as [_ Hc].
  destruct (continuation_row_appends_to_last_index [row_10001] row_short)
    as [Hs _].
  split.
  - apply Hc; reflexivity.
  - apply Hs. vm_compute. lia.
Defined.

(** C10, as stated, fails: a first data row whose leading cell holds the
    text "&nbsp;" is not empty, yet it opens no index and adds no class
    session. *)
Lemma placeholder_row_counterexample :
  ~ (forall (pre : list PageElement) (row : PageElement),
        (8 <= List.length (cells_of row))%nat ->
        Py.truthy (cell_text (cells_of row) 0) = true ->
        Py.truthy (cell_text (cells_of row) 3) = true ->
        exists secs opened,
          indexes (run (pre ++ [row])) = secs ++ [opened]
          /\ index opened = cell_text (cells_of row) 0
          /\ classes opened = [session_of (cell_text (cells_of row))]).
Proof.
  intros H.
  destruct (H [] row_placeholder) as (secs & opened & E & _).
  - exact (le_n 8).
  - reflexivity.
  - reflexivity.
  - vm_compute in E. now destruct secs.
Qed.

(** C10, amended.  A row of at least eight cells whose leading cell is
    neither empty nor the text "&nbsp;" and whose class-type cell is not
    empty opens a new index whose only class session so far comes from
    that row; and while no such header row has been met, a row that is
    not a header row leaves the parser in its initial state. *)
Theorem header_row_opens_index_with_session
  (pre : list PageElement) (row : PageElement) :
  (is_header row = true ->
   Py.truthy (cell_text (cells_of row) 3) = true ->
   indexes (run (pre ++ [row])) =
   indexes (run pre) ++
     [ {| index := cell_text (cells_of row) 0;
          vacancy := _parse_number (cell_text (cells_of row) 1);
          waitlist := _parse_number (cell_text (cells_of row) 2);
          classes := [session_of (cell_text (cells_of row))] |} ])
  /\
  (Forall (fun r => is_header r = false) pre ->
   is_header row = false ->
   run (pre ++ [row]) = initial_state).
Proof.
  split.
  - intros Hh Ht. apply andb_true_iff in Hh as [Hge Ho].
    apply Nat.leb_le in Hge.
    rewrite run_snoc. unfold process_row. fold (cells_of row).
    assert (Hnlt : (List.length (cells_of row) <? 8)%nat = false)
      by (apply Nat.ltb_ge; exact Hge).
    rewrite Hnlt. unfold process_cells. rewrite Ho, Ht.
    cbn [current_index indexes]. rewrite update_at_last. reflexivity.
  - intros Hpre Hrow.
    assert (Hall : Forall (fun r => is_header r = false) (pre ++ [row]))
      by (apply Forall_app; split; [exact Hpre | now constructor]).
    clear Hpre Hrow. unfold run.
    generalize (pre ++ [row]) Hall. clear.
    intros rows. induction rows as [|r rows IH]; intros H; [reflexivity|].
    inversion H as [|? ? Hr Hrest]; subst. simpl.
    replace (process_row initial_state r) with initial_state; [now apply IH|].
    unfold process_row. fold (cells_of r). unfold is_header in Hr.
    destruct (List.length (cells_of r) <? 8)%nat eqn:El; [reflexivity|].
    apply Nat.ltb_ge in El. apply Nat.leb_le in El. rewrite El in Hr.
    simpl in Hr. unfold process_cells. now rewrite Hr.
Qed.

Lemma header_row_opens_index_with_session_witness :
  indexes (run ([] ++ [row_10001])) =
  [ {| index := "10001"; vacancy := 3; waitlist := 0;
       classes := [ {| cls_type := "LEC"; cls_group := "L1";
                       cls_day := "MON"; cls_time := "0830-1030";
                       cls_venue := "LT1A" |} ] |} ]
  /\ run ([row_short] ++ [row_tut]) = initial_state.
Proof.
  destruct (header_row_opens_index_with_session [] row_10001) as [Hh _].
  destruct (header_row_opens_index_with_session [row_short] row_tut)
    as [_ Hc].
  split.
  - apply Hh; reflexivity.
  - apply Hc; [repeat constructor | reflexivity].
Defined.

End ParserClaims.

Module ApiFacts.

Import VacancyParser World VacancyApiClient.

Lemma scan_indexes_find all_indexes index_number :
  scan_indexes all_indexes index_number =
  find (fun s => String.eqb (index s) index_number) all_indexes.
Proof.
  induction all_indexes as [|s r IH]; simpl; [reflexivity|].
  now destruct (String.eqb (index s) index_number).
Qed.

(** [get_course_vacancies] leaves the database alone and adds at most
    one request to the trace. *)
Lemma get_course_vacancies_effect env course w :
  let w1 := snd (get_course_vacancies env course w) in
  db w1 = db w /\
  (trace w1 = trace w \/
   exists out, trace w1 = trace w ++ [EvPost (Py.upper course) out]) /\
  exists lseg, logs w1 = logs w ++ lseg.
Proof.
  unfold get_course_vacancies.
  destruct (is_service_available env w) as [avail message].
  destruct avail; cbn [negb].
  2:{ cbn. repeat split; [now left | now eexists]. }
  set (out := http_post env (trace w) (Py.upper course)).
  assert (Hlog : forall l w0, db (fold_left (fun w r => log (LogParser r) w) l w0) = db w0
            /\ trace (fold_left (fun w r => log (LogParser r) w) l w0) = trace w0
            /\ exists lseg, logs (fold_left (fun w r => log (LogParser r) w) l w0) = logs w0 ++ lseg).
  { induction l as [|r l IH]; intros w0; cbn [fold_left].
    - repeat split. exists []. now rewrite app_nil_r.
    - destruct (IH (log (LogParser r) w0)) as (H1 & H2 & lseg & H3).
      rewrite H1, H2, H3. cbn. repeat split.
      exists (LogParser r :: lseg). now rewrite <- app_assoc. }
  destruct out as [code text| | | msg | msg]; cbn [snd].
  - destruct (negb (code =? 200)).
    + cbn. repeat split; [right; now eexists | now eexists].
    + match goal with |- context [fold_left ?f ?l ?w0] =>
        destruct (Hlog l w0) as (H1 & H2 & lseg & H3) end.
      destruct (parse_vacancy_html _ _ _); cbn [snd];
        rewrite H1, H2, H3; cbn;
        (repeat split; [right; now eexists | now eexists]).
  - cbn. repeat split; [right; now eexists | now eexists].
  - cbn. repeat split; [right; now eexists | now eexists].
  - cbn. repeat split; [right; now eexists | now eexists].
  - cbn. repeat split; [right; now eexists | now eexists].
Qed.

Lemma get_index_vacancy_db env course index_no w :
  db (snd (get_index_vacancy env course index_no w)) = db w.
Proof.
  unfold get_index_vacancy.
  pose proof (get_course_vacancies_effect env course w) as H.
  cbv zeta in H.
  destruct (get_course_vacancies env course w) as [result w1].
  cbn [snd] in H. destruct H as (Hdb & _).
  destruct result as [all_indexes | f]; [|exact Hdb].
  destruct (scan_indexes all_indexes index_no); exact Hdb.
Qed.

End ApiFacts.

Module ApiClaims.
Import VacancyParser World VacancyApiClient ApiSpec.

(** C8.  [get_index_vacancy] answers what the specification's
    [fetchSectionSnapshot] answers on the outcome of
    [get_course_vacancies]: the course failure unchanged, the first index
    with the requested number, or the not-found failure, which is not a
    success; and it talks to the server only through that one course
    fetch. *)
Theorem get_index_vacancy_is_fetch_then_scan
  (env : Env) (course_code index_number : string) (w : World) :
  fst (get_index_vacancy env course_code index_number w) =
  fetchSectionSnapshot_spec (fst (get_course_vacancies env course_code w))
    course_code index_number
  /\ trace (snd (get_index_vacancy env course_code index_number w)) =
     trace (snd (get_course_vacancies env course_code w)) ++
       [EvFetch course_code index_number
          (fst (get_index_vacancy env course_code index_number w))]
  /\ success (@Fail IndexInfo (NotFound course_code index_number)) = false
  /\ error (NotFound course_code index_number) = index_not_found.
Proof.
  unfold get_index_vacancy, fetchSectionSnapshot_spec.
  destruct (get_course_vacancies env course_code w) as [result w1].
  cbn [fst snd].
  destruct result as [all_indexes | f]; [|now repeat split].
  rewrite <- ApiFacts.scan_indexes_find.
  destruct (scan_indexes all_indexes index_number); now repeat split.
Qed.
End ApiClaims.

Module StoreFacts.

Import VacancyParser World Database VacancyChecker Observations.

Lemma a_id_set_checked aid now vac a : a_id (set_checked aid now vac a) = a_id a.
Proof. unfold set_checked. now destruct (a_id a =? aid). Qed.

Lemma ids_set_checked aid now vac l :
  map a_id (map (set_checked aid now vac) l) = map a_id l.
Proof.
  rewrite map_map. apply map_ext. intros a. apply a_id_set_checked.
Qed.

Lemma find_known aid l :
  existsb (Z.eqb aid) (map a_id l) =
  match find (fun a => a_id a =? aid) l with Some _ => true | None => false end.
Proof.
  induction l as [|a r IH]; simpl; [reflexivity|].
  rewrite (Z.eqb_sym aid). now destruct (a_id a =? aid).
Qed.

Lemma find_set_checked_same aid now vac l :
  option_map a_last_vacancy_count
    (find (fun a => a_id a =? aid) (map (set_checked aid now vac) l)) =
  match find (fun a => a_id a =? aid) l with
  | Some _ => Some vac
  | None => None
  end.
Proof.
  induction l as [|a r IH]; simpl; [reflexivity|].
  rewrite a_id_set_checked.
  destruct (a_id a =? aid) eqn:E; [|exact IH].
  unfold set_checked. now rewrite E.
Qed.

Lemma find_set_checked_other aid aid' now vac l :
  aid <> aid' ->
  find (fun a => a_id a =? aid') (map (set_checked aid now vac) l) =
  find (fun a => a_id a =? aid') l.
Proof.
  intros Hne. induction l as [|a r IH]; simpl; [reflexivity|].
  rewrite a_id_set_checked.
  destruct (a_id a =? aid') eqn:E; [|exact IH].
  unfold set_checked. apply Z.eqb_eq in E.
  destruct (a_id a =? aid) eqn:E'; [|reflexivity].
  apply Z.eqb_eq in E'. congruence.
Qed.

(** *** The latest history row *)

Lemma latest_app aid r1 r2 best :
  latest_history aid (r1 ++ r2) best =
  latest_history aid r2 (latest_history aid r1 best).
Proof.
  revert best. induction r1 as [|h r IH]; intros best; simpl; [reflexivity|].
  destruct (h_alert_id h =? aid); [|apply IH].
  destruct best as [b|]; [|apply IH].
  destruct (h_checked_at b <? h_checked_at h); apply IH.
Qed.

Lemma latest_older aid now rows : forall best,
  Forall (fun h => h_checked_at h < now) rows ->
  match best with Some b => h_checked_at b < now | None => True end ->
  match latest_history aid rows best with
  | Some b => h_checked_at b < now
  | None => True
  end.
Proof.
  induction rows as [|h r IH]; intros best F Hb; simpl; [exact Hb|].
  inversion F as [|? ? Hh Hr]; subst.
  destruct (h_alert_id h =? aid); [|now apply IH].
  destruct best as [b|]; [|now apply IH].
  destruct (h_checked_at b <? h_checked_at h); now apply IH.
Qed.

Lemma latest_map (g : HistoryRow -> HistoryRow) aid rows :
  (forall h, h_alert_id (g h) = h_alert_id h) ->
  (forall h, h_checked_at (g h) = h_checked_at h) ->
  forall best,
    latest_history aid (map g rows) (option_map g best) =
    option_map g (latest_history aid rows best).
Proof.
  intros Ha Hc. induction rows as [|h r IH]; intros best; simpl; [reflexivity|].
  rewrite Ha. destruct (h_alert_id h =? aid); [|apply IH].
  destruct best as [b|]; simpl.
  - rewrite !Hc. destruct (h_checked_at b <? h_checked_at h).
    + apply (IH (Some h)).
    + apply (IH (Some b)).
  - apply (IH (Some h)).
Qed.

Lemma latest_alert aid rows : forall best l,
  match best with Some b => h_alert_id b = aid | None => True end ->
  latest_history aid rows best = Some l -> h_alert_id l = aid.
Proof.
  induction rows as [|h r IH]; intros best l Hb; simpl.
  - intros ->. exact Hb.
  - destruct (h_alert_id h =? aid) eqn:E; [|now apply IH].
    apply Z.eqb_eq in E.
    destruct best as [b|]; [|now apply IH].
    destruct (h_checked_at b <? h_checked_at h); now apply IH.
Qed.

Lemma view_set_notified h : view (set_notified h) = mark_view (view h).
Proof. reflexivity. Qed.

End StoreFacts.

Module Tracking.

Import VacancyParser World Database VacancyApiClient VacancyChecker.
Import Observations StoreFacts.

Create HintDb tracked.

Lemma follows_refl w : follows w [] [] w.
Proof.
  constructor; cbn; intros; try tauto; try reflexivity;
    now rewrite ?app_nil_r.
Qed.

Lemma follows_trans w s1 l1 w1 s2 l2 w2 :
  follows w s1 l1 w1 -> follows w1 s2 l2 w2 ->
  follows w (s1 ++ s2) (l1 ++ l2) w2.
Proof.
  intros F1 F2. constructor.
  - rewrite (f_trace _ _ _ _ F2), (f_trace _ _ _ _ F1). apply eq_sym, app_assoc.
  - rewrite (f_logs _ _ _ _ F2), (f_logs _ _ _ _ F1). apply eq_sym, app_assoc.
  - rewrite (f_ids _ _ _ _ F2). apply (f_ids _ _ _ _ F1).
  - intros H. apply (f_past _ _ _ _ F2), (f_past _ _ _ _ F1), H.
  - intros aid vac wait b Hin. apply in_app_or in Hin as [Hin | Hin].
    + apply (f_found _ _ _ _ F1 _ _ _ _ Hin).
    + rewrite (f_found _ _ _ _ F2 _ _ _ _ Hin). unfold known.
      now rewrite (f_ids _ _ _ _ F1).
  - intros aid. rewrite fold_left_app, <- (f_count _ _ _ _ F1).
    apply (f_count _ _ _ _ F2).
  - intros H aid. rewrite fold_left_app, <- (f_latest _ _ _ _ F1 H).
    apply (f_latest _ _ _ _ F2). apply (f_past _ _ _ _ F1), H.
  - intros aid chat text msg Hin. apply in_or_app.
    apply in_app_or in Hin as [Hin | Hin].
    + left. apply (f_notify_logged _ _ _ _ F1 _ _ _ _ Hin).
    + right. apply (f_notify_logged _ _ _ _ F2 _ _ _ _ Hin).
Qed.

Lemma replay_count_silent aid seg : forall x,
  forallb silent seg = true -> fold_left (replay_count aid) seg x = x.
Proof.
  induction seg as [|e seg IH]; intros x H; simpl; [reflexivity|].
  simpl in H. apply andb_true_iff in H as [He Hs].
  rewrite IH by exact Hs.
  destruct e; try reflexivity. now destruct r.
Qed.

Lemma replay_latest_silent aid seg : forall x,
  forallb silent seg = true -> fold_left (replay_latest aid) seg x = x.
Proof.
  induction seg as [|e seg IH]; intros x H; simpl; [reflexivity|].
  simpl in H. apply andb_true_iff in H as [He Hs].
  rewrite IH by exact Hs.
  destruct e; try reflexivity; now destruct r.
Qed.

(** A step that leaves the tables as they are, the clock not going
    back. *)
Lemma follows_silent w seg lseg w' :
  trace w' = trace w ++ seg ->
  logs w' = logs w ++ lseg ->
  alerts (db w') = alerts (db w) ->
  alert_history (db w') = alert_history (db w) ->
  current_timestamp (db w) <= current_timestamp (db w') ->
  forallb silent seg = true ->
  follows w seg lseg w'.
Proof.
  intros Ht Hl Ha Hh Hc Hs. constructor; try assumption.
  - now rewrite Ha.
  - unfold history_past. rewrite Hh. apply Forall_impl. intros h. lia.
  - intros aid vac wait b Hin. exfalso.
    rewrite forallb_forall in Hs. specialize (Hs _ Hin). discriminate Hs.
  - intros aid. unfold stored_count. rewrite Ha.
    now rewrite replay_count_silent.
  - intros _ aid. unfold latest_view. rewrite Hh.
    now rewrite replay_latest_silent.
  - intros aid chat text msg Hin. exfalso.
    rewrite forallb_forall in Hs. specialize (Hs _ Hin). discriminate Hs.
Qed.

Lemma tracked_ret {A} (a : A) : tracked (ret a).
Proof. intros w. exists [], []. apply follows_refl. Qed.

Lemma tracked_bind {A B} (m : M A) (k : A -> M B) :
  tracked m -> (forall a, tracked (k a)) -> tracked (bind m k).
Proof.
  intros Hm Hk w. unfold bind.
  destruct (Hm w) as (s1 & l1 & F1).
  destruct (m w) as [[a | msg] w1]; cbn [snd] in *.
  - destruct (Hk a w1) as (s2 & l2 & F2).
    exists (s1 ++ s2), (l1 ++ l2). eapply follows_trans; eassumption.
  - now exists s1, l1.
Qed.

Lemma tracked_try_except {A} (body : M A) (handler : string -> M A) :
  tracked body -> (forall e, tracked (handler e)) ->
  tracked (try_except body handler).
Proof.
  intros Hm Hk w. unfold try_except.
  destruct (Hm w) as (s1 & l1 & F1).
  destruct (body w) as [[a | msg] w1]; cbn [snd] in *.
  - now exists s1, l1.
  - destruct (Hk msg w1) as (s2 & l2 & F2).
    exists (s1 ++ s2), (l1 ++ l2). eapply follows_trans; eassumption.
Qed.

Lemma tracked_log l : tracked (effect (log l)).
Proof.
  intros w. exists [], [l]. cbn.
  apply follows_silent; cbn; try reflexivity; try lia.
  now rewrite app_nil_r.
Qed.

Lemma tracked_sleep s : tracked (sleep s).
Proof.
  intros w. exists [EvSleep s], []. cbn.
  apply follows_silent; cbn; try reflexivity; try lia.
  now rewrite app_nil_r.
Qed.

Lemma tracked_get_index_vacancy env course index_no :
  tracked (lift (get_index_vacancy env course index_no)).
Proof.
  intros w. unfold lift, get_index_vacancy.
  pose proof (ApiFacts.get_course_vacancies_effect env course w) as H.
  cbv zeta in H.
  destruct (get_course_vacancies env course w) as [result w1].
  cbn [snd] in H. destruct H as (Hdb & Htr & lseg & Hlog).
  set (answer_w2 := match result with Fail f => _ | Success _ => _ end).
  assert (H2 : db (snd answer_w2) = db w1 /\ trace (snd answer_w2) = trace w1
               /\ exists l2, logs (snd answer_w2) = logs w1 ++ l2).
  { subst answer_w2. destruct result as [all_indexes | f].
    - destruct (scan_indexes all_indexes index_no); cbn.
      + repeat split. exists []. now rewrite app_nil_r.
      + repeat split. now eexists.
    - cbn. repeat split. exists []. now rewrite app_nil_r. }
  destruct answer_w2 as [answer w2]. cbn [snd] in *.
  destruct H2 as (Hdb2 & Htr2 & l2 & Hlog2).
  destruct Htr as [Htr | [out Htr]].
  - exists [EvFetch course index_no answer], (lseg ++ l2).
    apply follows_silent; cbn; rewrite ?Hdb2, ?Hdb; try reflexivity; try lia.
    + now rewrite Htr2, Htr.
    + now rewrite Hlog2, Hlog, app_assoc.
  - exists [EvPost (Py.upper course) out; EvFetch course index_no answer],
           (lseg ++ l2).
    apply follows_silent; cbn; rewrite ?Hdb2, ?Hdb; try reflexivity; try lia.
    + now rewrite Htr2, Htr, <- app_assoc.
    + now rewrite Hlog2, Hlog, app_assoc.
Qed.

Lemma tracked_get_all_active_alerts env :
  tracked (get_all_active_alerts env).
Proof.
  intros w. unfold get_all_active_alerts.
  destruct (db_fault env (trace w)) as [msg|]; cbn [snd].
  - eexists [_], [_; _].
    apply follows_silent; cbn; rewrite <- ?app_assoc; try reflexivity; lia.
  - eexists [_], [].
    apply follows_silent; cbn; try reflexivity; try lia.
    now rewrite app_nil_r.
Qed.

Lemma tracked_send_notification env self alert v :
  tracked (send_notification env self alert v).
Proof.
  intros w. unfold send_notification. cbv zeta.
  set (r := match bot self with Some _ => _ | None => _ end).
  destruct r as [u | msg]; cbn [snd].
  - eexists [_], [].
    apply follows_silent; cbn; try reflexivity; try lia.
    now rewrite app_nil_r.
  - exists [EvNotify (id alert) (telegram_id alert)
              (notification_text alert v) (Py.Raises msg)],
           [LogNotifyFailed (id alert) msg].
    constructor; cbn; try reflexivity; try tauto.
    + intros aid vac wait b [H | []]. discriminate H.
    + intros aid chat text msg' [H | []]. injection H as <- _ _ <-. now left.
Qed.

Lemma tracked_update_alert_check env aid vac wait :
  tracked (update_alert_check env aid vac wait).
Proof.
  intros w. unfold update_alert_check.
  destruct (db_fault env (trace w)) as [msg|]; cbn [snd].
  { eexists [_], [_; _].
    apply follows_silent; cbn; rewrite <- ?app_assoc; try reflexivity; lia. }
  destruct (find (fun a => a_id a =? aid) (alerts (db w))) as [info|] eqn:Hf;
    cbn [snd].
  - exists [EvUpdateCheck aid vac wait (Py.Returns true)], [].
    constructor; cbn.
    + reflexivity.
    + now rewrite app_nil_r.
    + apply ids_set_checked.
    + unfold history_past. cbn. intros H. apply Forall_app. split.
      * revert H. apply Forall_impl. intros h. lia.
      * constructor; [cbn; lia | constructor].
    + intros aid' vac' wait' b [H | []]. injection H as <- _ _ <-.
      unfold known. now rewrite find_known, Hf.
    + intros aid'. unfold stored_count. cbn.
      destruct (aid =? aid') eqn:E.
      * apply Z.eqb_eq in E. subst aid'.
        now rewrite find_set_checked_same, Hf.
      * apply Z.eqb_neq in E. now rewrite find_set_checked_other.
    + intros Hp aid'. unfold latest_view. cbn. rewrite latest_app. cbn.
      destruct (aid =? aid') eqn:E; [|reflexivity].
      pose proof (latest_older aid' (current_timestamp (db w))
                    (alert_history (db w)) None Hp I) as Hold.
      destruct (latest_history aid' (alert_history (db w)) None) as [b|];
        [|reflexivity].
      apply Z.ltb_lt in Hold. cbn. now rewrite Hold.
    + intros aid' chat text msg [H | []]. discriminate H.
  - exists [EvUpdateCheck aid vac wait (Py.Returns false)], [LogAlertNotFound aid].
    constructor; cbn; try reflexivity.
    + unfold history_past. cbn. apply Forall_impl. intros h. lia.
    + intros aid' vac' wait' b [H | []]. injection H as <- _ _ <-.
      unfold known. now rewrite find_known, Hf.
    + intros aid' chat text msg [H | []]. discriminate H.
Qed.

Lemma tracked_mark_notification_sent env aid :
  tracked (mark_notification_sent env aid).
Proof.
  intros w. unfold mark_notification_sent.
  destruct (db_fault env (trace w)) as [msg|]; cbn [snd].
  { eexists [_], [_; _].
    apply follows_silent; cbn; rewrite <- ?app_assoc; try reflexivity; lia. }
  exists [EvMarkSent aid (Py.Returns true)], [].
  set (mark := fun l h => if (h_alert_id h =? aid) && (h_id h =? h_id l)
                          then set_notified h else h).
  assert (Ha : forall l h, h_alert_id (mark l h) = h_alert_id h).
  { intros l h. unfold mark. now destruct (_ && _). }
  assert (Hc : forall l h, h_checked_at (mark l h) = h_checked_at h).
  { intros l h. unfold mark. now destruct (_ && _). }
  constructor; cbn; try reflexivity.
  - now rewrite app_nil_r.
  - unfold history_past. cbn. intros H.
    destruct (latest_history aid (alert_history (db w)) None) as [l|].
    + apply Forall_map. revert H. apply Forall_impl. intros h.
      fold (mark l h). rewrite Hc. lia.
    + revert H. apply Forall_impl. intros h. lia.
  - intros aid' vac' wait' b [H | []]. discriminate H.
  - intros _ aid'. unfold latest_view. cbn.
    destruct (latest_history aid (alert_history (db w)) None) as [l|] eqn:El.
    + pose proof (latest_alert aid _ None l I El) as Hl.
      change (map _ (alert_history (db w)))
        with (map (mark l) (alert_history (db w))).
      pose proof (latest_map (mark l) aid' (alert_history (db w))
                    (Ha l) (Hc l) None) as Hm.
      cbn [option_map] in Hm. rewrite Hm. clear Hm.
      destruct (aid =? aid') eqn:E.
      * apply Z.eqb_eq in E. subst aid'. rewrite El. cbn.
        unfold mark. now rewrite Hl, !Z.eqb_refl.
      * destruct (latest_history aid' (alert_history (db w)) None) as [l'|] eqn:El';
          [|reflexivity].
        pose proof (latest_alert aid' _ None l' I El') as Hl'.
        cbn. unfold mark. rewrite Hl', (Z.eqb_sym aid'), E. reflexivity.
    + destruct (aid =? aid') eqn:E; [|reflexivity].
      apply Z.eqb_eq in E. subst aid'. now rewrite El.
  - intros aid' chat text msg [H | []]. discriminate H.
Qed.

#[export] Hint Resolve tracked_ret tracked_log tracked_sleep
  tracked_get_index_vacancy tracked_get_all_active_alerts
  tracked_send_notification tracked_update_alert_check
  tracked_mark_notification_sent : tracked.

Lemma tracked_update_alert env self v a : tracked (update_alert env self v a).
Proof.
  unfold update_alert. apply tracked_try_except; [|auto with tracked].
  apply tracked_bind; [auto with tracked|]. intros _.
  destruct (vacancy_opened _ _); [|auto with tracked].
  repeat (apply tracked_bind; [auto with tracked | intros _]).
  auto with tracked.
Qed.

Lemma tracked_update_alerts env self v l : tracked (update_alerts env self v l).
Proof.
  induction l as [|a l IH]; cbn [update_alerts]; [auto with tracked|].
  apply tracked_bind; [apply tracked_update_alert | intros _; exact IH].
Qed.

Lemma tracked_check_groups env self g : tracked (check_groups env self g).
Proof.
  induction g as [|[[course index_no] l] g IH]; cbn [check_groups];
    [auto with tracked|].
  destruct (negb (running self)); [auto with tracked|].
  apply tracked_bind; [auto with tracked|]. intros [v | f].
  - apply tracked_bind; [apply tracked_update_alerts | intros _].
    apply tracked_bind; [auto with tracked | intros _; exact IH].
  - apply tracked_bind; [auto with tracked | intros _].
    apply tracked_bind; [auto with tracked | intros _; exact IH].
Qed.

Lemma tracked_check_all_alerts env self : tracked (check_all_alerts env self).
Proof.
  unfold check_all_alerts. apply tracked_try_except; [|auto with tracked].
  apply tracked_bind; [auto with tracked|]. intros [|a l];
    [auto with tracked | apply tracked_check_groups].
Qed.

Lemma tracked_one_round interval env self :
  tracked (one_round interval env self).
Proof.
  unfold one_round. apply tracked_try_except; [|auto with tracked].
  apply tracked_bind; [apply tracked_check_all_alerts | intros _].
  destruct (running self); auto with tracked.
Qed.

End Tracking.

Module Grouping.

Import VacancyParser World Database VacancyChecker Observations.

Lemma key_eqb_eq k1 k2 : key_eqb k1 k2 = true <-> k1 = k2.
Proof.
  destruct k1 as [c1 i1], k2 as [c2 i2]. unfold key_eqb. cbn.
  rewrite andb_true_iff, !String.eqb_eq. split.
  - now intros [-> ->].
  - now intros [= -> ->].
Qed.

Lemma key_eqb_refl k : key_eqb k k = true.
Proof. now apply key_eqb_eq. Qed.

Lemma key_eqb_neq k1 k2 : key_eqb k1 k2 = false <-> k1 <> k2.
Proof.
  split.
  - intros H E. apply key_eqb_eq in E. congruence.
  - intros H. destruct (key_eqb k1 k2) eqn:E; [|reflexivity].
    apply key_eqb_eq in E. contradiction.
Qed.

Lemma group_add_keys a g :
  (In (key_of a) (map fst g) /\ map fst (group_add a g) = map fst g)
  \/ (~ In (key_of a) (map fst g)
      /\ map fst (group_add a g) = map fst g ++ [key_of a]).
Proof.
  induction g as [|[k l] g IH]; cbn [group_add map fst].
  - right. split; [intros [] | reflexivity].
  - destruct (key_eqb k (key_of a)) eqn:E.
    + apply key_eqb_eq in E. left. split; [now left | reflexivity].
    + apply key_eqb_neq in E. cbn [map fst].
      destruct IH as [[Hin Heq] | [Hnin Heq]].
      * left. split; [now right | now rewrite Heq].
      * right. split; [intros [H | H]; contradiction | now rewrite Heq].
Qed.

Lemma group_add_nodup a g :
  NoDup (map fst g) -> NoDup (map fst (group_add a g)).
Proof.
  intros H. destruct (group_add_keys a g) as [[_ ->] | [Hnin ->]];
    [exact H|].
  apply NoDup_app; [exact H | repeat constructor; intros [] |].
  intros k Hk [<- | []]. contradiction.
Qed.

Lemma group_add_members a g :
  Permutation (members (group_add a g)) (a :: members g).
Proof.
  induction g as [|[k l] g IH]; cbn [group_add]; [reflexivity|].
  destruct (key_eqb k (key_of a)); unfold members; cbn [flat_map snd].
  - rewrite <- app_assoc. apply Permutation_sym, Permutation_middle.
  - fold (members (group_add a g)). fold (members g).
    rewrite IH. apply Permutation_sym, Permutation_middle.
Qed.

Lemma group_add_keyed a g : keyed g -> keyed (group_add a g).
Proof.
  induction g as [|[k l] g IH]; intros K k' l' b; cbn [group_add].
  - intros [[= <- <-] | []] [<- | []]. reflexivity.
  - destruct (key_eqb k (key_of a)) eqn:E.
    + apply key_eqb_eq in E. intros [[= <- <-] | Hin] Hb.
      * apply in_app_or in Hb as [Hb | [<- | []]]; [|now symmetry].
        apply (K k l b); [now left | exact Hb].
      * apply (K k' l' b); [now right | exact Hb].
    + intros [[= <- <-] | Hin] Hb.
      * apply (K k l b); [now left | exact Hb].
      * refine (IH _ k' l' b Hin Hb).
        intros k0 l0 a0 H0. apply K. now right.
Qed.

Lemma fold_group_add alerts : forall g,
  NoDup (map fst g) -> keyed g ->
  let g' := fold_left (fun grouped alert => group_add alert grouped) alerts g in
  NoDup (map fst g') /\ keyed g'
  /\ Permutation (members g') (alerts ++ members g).
Proof.
  induction alerts as [|a alerts IH]; intros g N K; cbn [fold_left].
  - repeat split; [exact N | exact K | reflexivity].
  - destruct (IH (group_add a g) (group_add_nodup a g N) (group_add_keyed a g K))
      as (N' & K' & P').
    repeat split; [exact N' | exact K'|].
    cbv zeta in P'. rewrite P', group_add_members.
    apply Permutation_sym, Permutation_middle.
Qed.

Lemma group_alerts_sound alerts :
  NoDup (map id alerts) ->
  sound (group_alerts alerts)
  /\ forall a, In a alerts ->
       exists l, In (key_of a, l) (group_alerts alerts) /\ In a l.
Proof.
  intros N.
  destruct (fold_group_add alerts [] (NoDup_nil _)) as (Nk & K & P).
  { intros k l a []. }
  cbv zeta in P. fold (group_alerts alerts) in Nk, K, P.
  rewrite app_nil_r in P. split.
  - constructor; [exact Nk | | exact K].
    apply (Permutation_NoDup (l := map id alerts)); [|exact N].
    apply Permutation_map, Permutation_sym, P.
  - intros a Ha.
    assert (Hm : In a (members (group_alerts alerts)))
      by (apply (Permutation_in _ (Permutation_sym P)), Ha).
    unfold members in Hm. apply in_flat_map in Hm as ([k l] & Hkl & Hal).
    cbn in Hal. exists l. rewrite (K k l a Hkl Hal). now split.
Qed.

(** *** The rows selected for the cycle *)

Lemma insert_perm a l : Permutation (insert_by_last_checked a l) (a :: l).
Proof.
  induction l as [|b r IH]; cbn; [reflexivity|].
  destruct (checked_le _ _); [reflexivity|].
  rewrite IH. apply perm_swap.
Qed.

Lemma order_perm l : Permutation (order_by_last_checked l) l.
Proof.
  induction l as [|a r IH]; cbn; [reflexivity|].
  rewrite insert_perm. now constructor.
Qed.

Lemma select_active_rows d a :
  In a (select_active d) -> exists row, In row (alerts d) /\ a = to_dict row.
Proof.
  unfold select_active. intros H. apply in_map_iff in H as (row & <- & Hin).
  exists row. split; [|reflexivity].
  apply (Permutation_in _ (order_perm _)) in Hin.
  now apply filter_In in Hin.
Qed.

Lemma NoDup_map_filter {A B} (f : A -> B) p (l : list A) :
  NoDup (map f l) -> NoDup (map f (filter p l)).
Proof.
  induction l as [|x r IH]; cbn; [trivial|].
  intros H. inversion H as [|? ? Hn Hr]; subst.
  destruct (p x); cbn; [|now apply IH].
  constructor; [|now apply IH].
  intros Hin. apply Hn. apply in_map_iff in Hin as (y & Hy & Hin).
  apply in_map_iff. exists y. split; [exact Hy|].
  now apply filter_In in Hin.
Qed.

Lemma select_active_nodup d :
  NoDup (map a_id (alerts d)) -> NoDup (map id (select_active d)).
Proof.
  intros N. unfold select_active. rewrite map_map.
  change (fun x => id (to_dict x)) with a_id.
  apply (Permutation_NoDup (l := map a_id (filter (selected d) (alerts d)))).
  - apply Permutation_map, Permutation_sym, order_perm.
  - now apply NoDup_map_filter.
Qed.

Lemma find_by_id rows row :
  NoDup (map a_id rows) -> In row rows ->
  find (fun a => a_id a =? a_id row) rows = Some row.
Proof.
  induction rows as [|x r IH]; intros N Hin; [destruct Hin|].
  inversion N as [|? ? Hn Hr]; subst. cbn.
  destruct Hin as [-> | Hin]; [now rewrite Z.eqb_refl|].
  destruct (a_id x =? a_id row) eqn:E; [|now apply IH].
  apply Z.eqb_eq in E. exfalso. apply Hn. rewrite E. now apply in_map.
Qed.

(** The count the checker compares with is the stored one. *)
Lemma select_active_stored d a :
  NoDup (map a_id (alerts d)) -> In a (select_active d) ->
  stored_count (id a) d = Some (last_vacancy_count a)
  /\ known (id a) d = true.
Proof.
  intros N Ha. apply select_active_rows in Ha as (row & Hin & ->).
  unfold stored_count, known. cbn.
  rewrite StoreFacts.find_known, (find_by_id _ _ N Hin). now split.
Qed.

End Grouping.

Module Shape.

Import VacancyParser World Database VacancyApiClient VacancyChecker.
Import Observations Grouping.

Lemma about_app aid s1 s2 : about aid (s1 ++ s2) = about aid s1 ++ about aid s2.
Proof. apply filter_app. Qed.

Lemma fetches_app k s1 s2 :
  fetches_of k (s1 ++ s2) = fetches_of k s1 ++ fetches_of k s2.
Proof. apply flat_map_app. Qed.

Lemma story_about_self v a seg :
  alert_story v a seg -> about (id a) seg = seg.
Proof. intros []; cbn; now rewrite ?Z.eqb_refl. Qed.

Lemma story_about_other v a seg aid :
  alert_story v a seg -> aid <> id a -> about aid seg = [].
Proof.
  intros S Hne. assert (E : (id a =? aid) = false) by (apply Z.eqb_neq; congruence).
  destruct S; cbn; now rewrite ?E.
Qed.

Lemma story_no_fetch v a seg k : alert_story v a seg -> fetches_of k seg = [].
Proof. now intros []. Qed.

Lemma update_alert_check_run env aid vac wait w :
  exists r w1,
    update_alert_check env aid vac wait w = (r, w1)
    /\ trace w1 = trace w ++ [EvUpdateCheck aid vac wait r].
Proof.
  unfold update_alert_check.
  destruct (db_fault env (trace w)); [now eexists _, _|].
  destruct (find _ _); now eexists _, _.
Qed.

Lemma mark_notification_sent_run env aid w :
  exists r w1,
    mark_notification_sent env aid w = (r, w1)
    /\ trace w1 = trace w ++ [EvMarkSent aid r].
Proof.
  unfold mark_notification_sent.
  destruct (db_fault env (trace w)); now eexists _, _.
Qed.

Lemma send_notification_run env self a v w :
  exists r w1,
    send_notification env self a v w = (Py.Returns tt, w1)
    /\ trace w1 = trace w ++
         [EvNotify (id a) (telegram_id a) (notification_text a v) r].
Proof.
  unfold send_notification. cbv zeta.
  destruct (match bot self with Some _ => _ | None => _ end) as [u | msg];
    now eexists _, _.
Qed.

(** The loop body for one alert returns, and its events are one of the
    three stories. *)
Lemma update_alert_story env self v a w :
  exists seg,
    fst (update_alert env self v a w) = Py.Returns tt
    /\ trace (snd (update_alert env self v a w)) = trace w ++ seg
    /\ alert_story v a seg.
Proof.
  unfold update_alert, try_except, bind.
  destruct (update_alert_check_run env (id a) (vacancy v) (waitlist v) w)
    as (r & w1 & -> & T1).
  destruct r as [b | msg].
  2:{ eexists. cbn. repeat split; [exact T1 | constructor]. }
  destruct (vacancy_opened (last_vacancy_count a) (vacancy v)) eqn:Ho.
  2:{ eexists. cbn. repeat split; [exact T1 | now constructor]. }
  destruct (send_notification_run env self a v w1) as (rs & w2 & -> & T2).
  destruct (mark_notification_sent_run env (id a) w2) as (rm & w3 & -> & T3).
  exists [EvUpdateCheck (id a) (vacancy v) (waitlist v) (Py.Returns b);
          EvNotify (id a) (telegram_id a) (notification_text a v) rs;
          EvMarkSent (id a) rm].
  assert (T : trace w3 = trace w ++
            [EvUpdateCheck (id a) (vacancy v) (waitlist v) (Py.Returns b);
             EvNotify (id a) (telegram_id a) (notification_text a v) rs;
             EvMarkSent (id a) rm]).
  { rewrite T3, T2, T1, <- !app_assoc. reflexivity. }
  destruct rm as [bm | msg]; cbn; (repeat split; [exact T | now constructor]).
Qed.

Lemma update_alerts_stories env self v l : forall w,
  NoDup (map id l) ->
  exists seg,
    fst (update_alerts env self v l w) = Py.Returns tt
    /\ trace (snd (update_alerts env self v l w)) = trace w ++ seg
    /\ (forall a, In a l -> alert_story v a (about (id a) seg))
    /\ (forall aid, ~ In aid (map id l) -> about aid seg = [])
    /\ (forall k, fetches_of k seg = []).
Proof.
  induction l as [|a l IH]; intros w N; cbn [update_alerts].
  - exists []. cbn. rewrite app_nil_r. repeat split; tauto.
  - inversion N as [|? ? Hn Hl]; subst.
    unfold bind.
    destruct (update_alert_story env self v a w) as (s1 & R1 & T1 & S1).
    destruct (update_alert env self v a w) as [r w1]. cbn [fst snd] in *.
    subst r.
    destruct (IH w1 Hl) as (s2 & R2 & T2 & S2 & O2 & F2).
    exists (s1 ++ s2). repeat split.
    + exact R2.
    + now rewrite T2, T1, app_assoc.
    + intros b [<- | Hb]; rewrite about_app.
      * rewrite (story_about_self _ _ _ S1), (O2 _ Hn), app_nil_r. exact S1.
      * rewrite (story_about_other _ _ _ (id b) S1); [now apply S2|].
        intros E. apply Hn. rewrite <- E. now apply in_map.
    + intros aid Hnin. rewrite about_app.
      rewrite (story_about_other _ _ _ aid S1), O2; [reflexivity | |].
      * intros H. apply Hnin. now right.
      * intros E. apply Hnin. now left.
    + intros k. now rewrite fetches_app, (story_no_fetch _ _ _ k S1), F2.
Qed.

(** [get_index_vacancy] adds the request, if one is made, and its own
    answer to the trace. *)
Lemma get_index_vacancy_events env course index_no w :
  exists pre,
    trace (snd (get_index_vacancy env course index_no w)) =
    trace w ++ pre ++
      [EvFetch course index_no (fst (get_index_vacancy env course index_no w))]
    /\ (pre = [] \/ exists out, pre = [EvPost (Py.upper course) out])
    /\ (forall aid, about aid pre = [])
    /\ (forall k, fetches_of k pre = []).
Proof.
  unfold get_index_vacancy.
  pose proof (ApiFacts.get_course_vacancies_effect env course w) as H.
  cbv zeta in H.
  destruct (get_course_vacancies env course w) as [result w1].
  cbn [snd] in H. destruct H as (_ & Htr & _).
  set (answer_w2 := match result with Fail f => _ | Success _ => _ end).
  assert (H2 : trace (snd answer_w2) = trace w1).
  { subst answer_w2. destruct result as [all_indexes | f]; [|reflexivity].
    now destruct (scan_indexes all_indexes index_no). }
  destruct answer_w2 as [answer w2]. cbn [fst snd] in *.
  destruct Htr as [Htr | [out Htr]].
  - exists []. cbn. rewrite H2, Htr. repeat split. now left.
  - exists [EvPost (Py.upper course) out]. cbn. rewrite H2, Htr, <- app_assoc.
    repeat split. right. now exists out.
Qed.

(** The single check of an alert: one fetch, then nothing when it failed,
    and otherwise the same story as in the cycle. *)
Lemma check_alert_story env self a w :
  exists pre out rest,
    trace (snd (check_alert env self a w)) =
    trace w ++ pre ++ [EvFetch (course_code a) (index_number a) out] ++ rest
    /\ (pre = [] \/ exists o, pre = [EvPost (Py.upper (course_code a)) o])
    /\ match out with
       | Fail _ => rest = [] /\ fst (check_alert env self a w) = Py.Returns false
       | Success v => alert_story v a rest
       end.
Proof.
  unfold check_alert, try_except, bind, lift.
  destruct (get_index_vacancy_events env (course_code a) (index_number a) w)
    as (pre & Tf & Hpre & _).
  destruct (get_index_vacancy env (course_code a) (index_number a) w)
    as [out w1]. cbn [fst snd] in Tf.
  exists pre, out. destruct out as [v | f].
  2:{ exists []. cbn. rewrite Tf. now repeat split. }
  destruct (update_alert_check_run env (id a) (vacancy v) (waitlist v) w1)
    as (r & w2 & -> & T1).
  destruct r as [b | msg].
  2:{ eexists. cbn. rewrite T1, Tf, <- !app_assoc.
      repeat split; [exact Hpre | constructor]. }
  destruct (vacancy_opened (last_vacancy_count a) (vacancy v)) eqn:Ho.
  2:{ eexists. cbn. rewrite T1, Tf, <- !app_assoc.
      repeat split; [exact Hpre | now constructor]. }
  destruct (send_notification_run env self a v w2) as (rs & w3 & -> & T2).
  destruct (mark_notification_sent_run env (id a) w3) as (rm & w4 & -> & T3).
  exists [EvUpdateCheck (id a) (vacancy v) (waitlist v) (Py.Returns b);
          EvNotify (id a) (telegram_id a) (notification_text a v) rs;
          EvMarkSent (id a) rm].
  assert (T : trace w4 = trace w ++ pre ++
            [EvFetch (course_code a) (index_number a) (Success v)] ++
            [EvUpdateCheck (id a) (vacancy v) (waitlist v) (Py.Returns b);
             EvNotify (id a) (telegram_id a) (notification_text a v) rs;
             EvMarkSent (id a) rm]).
  { rewrite T3, T2, T1, Tf, <- !app_assoc. reflexivity. }
  destruct rm as [bm | msg]; cbn;
    (repeat split; [exact T | exact Hpre | now constructor]).
Qed.

Lemma check_groups_stopped env self g w :
  running self = false -> check_groups env self g w = (Py.Returns tt, w).
Proof. intros H. destruct g as [|[[c i] l] g]; cbn; now rewrite ?H. Qed.

(** The loop over the groups of a running checker: one fetch per
    group, and every alert of the group either skipped (failed fetch) or
    taken through its story with the fetched index. *)
Lemma check_groups_shape env self :
  running self = true ->
  forall g w, sound g ->
  exists seg,
    fst (check_groups env self g w) = Py.Returns tt
    /\ trace (snd (check_groups env self g w)) = trace w ++ seg
    /\ (forall k l, In (k, l) g ->
          exists out, fetches_of k seg = [out]
            /\ forall a, In a l -> group_story out a (about (id a) seg))
    /\ (forall k, ~ In k (map fst g) -> fetches_of k seg = [])
    /\ (forall aid, ~ In aid (map id (members g)) -> about aid seg = []).
Proof.
  intros Hrun. induction g as [|[[course index_no] l] g IH]; intros w S.
  { exists []. cbn. rewrite app_nil_r. repeat split; tauto. }
  destruct S as [Sk Si Sd].
  cbn [map fst] in Sk. inversion Sk as [|? ? Hk Sk']; subst.
  unfold members in Si. cbn [flat_map snd] in Si. fold (members g) in Si.
  rewrite map_app in Si.
  pose proof (NoDup_app_remove_r _ _ Si) as Nl.
  pose proof (NoDup_app_remove_l _ _ Si) as Ng.
  assert (Hdisj : forall aid, In aid (map id l) -> ~ In aid (map id (members g))).
  { intros aid H1 H2. revert Si. clear - H1 H2.
    induction (map id l) as [|x r IHr]; [destruct H1|].
    cbn. intros N. inversion N as [|? ? Hx Hr]; subst.
    destruct H1 as [-> | H1]; [apply Hx, in_or_app; now right | now apply IHr]. }
  assert (Sg : sound g).
  { constructor; [exact Sk' | exact Ng|].
    intros k0 l0 a0 H0. apply Sd. now right. }
  cbn [check_groups]. rewrite Hrun. cbn [negb]. unfold bind, lift.
  destruct (get_index_vacancy_events env course index_no w)
    as (pre & Tf & _ & Af & Ff).
  destruct (get_index_vacancy env course index_no w) as [answer w1].
  cbn [fst snd] in Tf.
  assert (Fk : forall k, fetches_of k (pre ++ [EvFetch course index_no answer])
               = if key_eqb (course, index_no) k then [answer] else []).
  { intros k. rewrite fetches_app, Ff. cbn. now rewrite app_nil_r. }
  assert (Ak : forall aid, about aid (pre ++ [EvFetch course index_no answer]) = []).
  { intros aid. now rewrite about_app, Af. }
  destruct answer as [v | f].
  - destruct (update_alerts_stories env self v l w1 Nl)
      as (s1 & R1 & T1 & S1 & O1 & F1).
    destruct (update_alerts env self v l w1) as [r1 w2]. cbn [fst snd] in *.
    subst r1. unfold sleep, effect.
    destruct (IH (emit (EvSleep 2) w2) Sg) as (s2 & R2 & T2 & G2 & K2 & O2).
    exists ((pre ++ [EvFetch course index_no (Success v)]) ++ s1
            ++ [EvSleep 2] ++ s2).
    repeat split.
    + exact R2.
    + rewrite T2. cbn [emit trace]. rewrite T1, Tf, <- !app_assoc. reflexivity.
    + intros k l0 [[= <- <-] | Hin].
      * exists (Success v). split.
        -- rewrite fetches_app, Fk, ?fetches_app, key_eqb_refl, F1, (K2 _ Hk). reflexivity.
        -- intros a Ha. rewrite about_app, Ak, ?about_app.
           rewrite (O2 (id a)); [|apply Hdisj; now apply in_map].
           cbn. rewrite app_nil_r. now apply S1.
      * destruct (G2 k l0 Hin) as (out & Fo & So). exists out. split.
        -- rewrite fetches_app, Fk, ?fetches_app, F1.
           assert (E : key_eqb (course, index_no) k = false).
           { apply key_eqb_neq. intros <-. apply Hk.
             change (course, index_no) with (fst ((course, index_no), l0)).
             now apply in_map. }
           rewrite E. exact Fo.
        -- intros a Ha. rewrite about_app, Ak, ?about_app, O1; [now apply So|].
           intros H1. apply (Hdisj _ H1). apply in_map.
           unfold members. apply in_flat_map. now exists (k, l0).
    + intros k Hnin. rewrite fetches_app, Fk, ?fetches_app, F1.
      assert (E : key_eqb (course, index_no) k = false).
      { apply key_eqb_neq. intros <-. apply Hnin. now left. }
      rewrite E. cbn. apply K2. intros H. apply Hnin. now right.
    + intros aid Hnin. rewrite about_app, Ak, ?about_app.
      assert (Hn : ~ In aid (map id l) /\ ~ In aid (map id (members g))).
      { split; intros H; apply Hnin; unfold members; cbn [flat_map snd];
          rewrite map_app; apply in_or_app; [now left | now right]. }
      destruct Hn as [Hn1 Hn2]. now rewrite (O1 _ Hn1), (O2 _ Hn2).
  - unfold sleep, effect.
    destruct (IH (emit (EvSleep 2)
                    (log (LogCouldNotGetVacancy course index_no (error_message f)) w1))
                 Sg) as (s2 & R2 & T2 & G2 & K2 & O2).
    exists ((pre ++ [EvFetch course index_no (Fail f)]) ++ [EvSleep 2] ++ s2).
    repeat split.
    + exact R2.
    + rewrite T2. cbn [emit log trace]. rewrite Tf, <- !app_assoc. reflexivity.
    + intros k l0 [[= <- <-] | Hin].
      * exists (Fail f). split.
        -- rewrite fetches_app, Fk, ?fetches_app, key_eqb_refl, (K2 _ Hk). reflexivity.
        -- intros a Ha. cbn [group_story]. rewrite about_app, Ak, ?about_app.
           rewrite (O2 (id a)); [reflexivity|].
           apply Hdisj. now apply in_map.
      * destruct (G2 k l0 Hin) as (out & Fo & So). exists out. split.
        -- rewrite fetches_app, Fk, ?fetches_app.
           assert (E : key_eqb (course, index_no) k = false).
           { apply key_eqb_neq. intros <-. apply Hk.
             change (course, index_no) with (fst ((course, index_no), l0)).
             now apply in_map. }
           rewrite E. exact Fo.
        -- intros a Ha. rewrite about_app, Ak, ?about_app. now apply So.
    + intros k Hnin. rewrite fetches_app, Fk, ?fetches_app.
      assert (E : key_eqb (course, index_no) k = false).
      { apply key_eqb_neq. intros <-. apply Hnin. now left. }
      rewrite E. cbn. apply K2. intros H. apply Hnin. now right.
    + intros aid Hnin. rewrite about_app, Ak, ?about_app.
      rewrite O2; [reflexivity|].
      intros H; apply Hnin; unfold members; cbn [flat_map snd];
        rewrite map_app; apply in_or_app; now right.
Qed.

Lemma story_no_traffic v a seg :
  alert_story v a seg -> fetch_calls seg = [] /\ posts seg = [].
Proof. now intros []. Qed.

Lemma update_alerts_no_traffic env self v l : forall w,
  exists seg,
    fst (update_alerts env self v l w) = Py.Returns tt
    /\ trace (snd (update_alerts env self v l w)) = trace w ++ seg
    /\ fetch_calls seg = [] /\ posts seg = [].
Proof.
  induction l as [|a l IH]; intros w; cbn [update_alerts].
  - exists []. cbn. now rewrite app_nil_r.
  - unfold bind.
    destruct (update_alert_story env self v a w) as (s1 & R1 & T1 & S1).
    destruct (update_alert env self v a w) as [r w1]. cbn [fst snd] in *.
    subst r. destruct (IH w1) as (s2 & R2 & T2 & F2 & P2).
    destruct (story_no_traffic _ _ _ S1) as [F1 P1].
    exists (s1 ++ s2). unfold fetch_calls, posts in *.
    rewrite !filter_app, F1, F2, P1, P2, T2, T1, app_assoc. now repeat split.
Qed.

(** The loop over the groups of a running checker calls
    [get_index_vacancy] once per group and posts at most one request per
    group. *)
Lemma check_groups_traffic env self :
  running self = true ->
  forall g w,
  exists seg,
    trace (snd (check_groups env self g w)) = trace w ++ seg
    /\ List.length (fetch_calls seg) = List.length g
    /\ (List.length (posts seg) <= List.length g)%nat.
Proof.
  intros Hrun. induction g as [|[[course index_no] l] g IH]; intros w.
  { exists []. cbn. rewrite app_nil_r. repeat split. lia. }
  cbn [check_groups]. rewrite Hrun. cbn [negb]. unfold bind, lift.
  destruct (get_index_vacancy_events env course index_no w)
    as (pre & Tf & Hpre & _).
  destruct (get_index_vacancy env course index_no w) as [answer w1].
  cbn [fst snd] in Tf.
  assert (Hp : List.length (fetch_calls (pre ++ [EvFetch course index_no answer]))
               = 1%nat
               /\ (List.length (posts (pre ++ [EvFetch course index_no answer]))
                   <= 1)%nat).
  { destruct Hpre as [-> | [out ->]]; cbn; split; (reflexivity || lia). }
  destruct Hp as [Hf Hp].
  destruct answer as [v | f].
  - destruct (update_alerts_no_traffic env self v l w1)
      as (s1 & R1 & T1 & F1 & P1).
    destruct (update_alerts env self v l w1) as [r1 w2]. cbn [fst snd] in *.
    subst r1. unfold sleep, effect.
    destruct (IH (emit (EvSleep 2) w2)) as (s2 & T2 & F2 & P2).
    exists ((pre ++ [EvFetch course index_no (Success v)]) ++ s1
            ++ [EvSleep 2] ++ s2).
    split.
    { rewrite T2. cbn [emit trace]. rewrite T1, Tf, <- !app_assoc. reflexivity. }
    remember (pre ++ [EvFetch course index_no (Success v)]) as head.
    unfold fetch_calls, posts in *.
    rewrite !filter_app, !length_app, F1, P1, F2, Hf. cbn. lia.
  - unfold sleep, effect.
    destruct (IH (emit (EvSleep 2)
                    (log (LogCouldNotGetVacancy course index_no (error_message f)) w1)))
      as (s2 & T2 & F2 & P2).
    exists ((pre ++ [EvFetch course index_no (Fail f)]) ++ [EvSleep 2] ++ s2).
    split.
    { rewrite T2. cbn [emit log trace]. rewrite Tf, <- !app_assoc. reflexivity. }
    remember (pre ++ [EvFetch course index_no (Fail f)]) as head.
    unfold fetch_calls, posts in *.
    rewrite !filter_app, !length_app, F2, Hf. cbn. lia.
Qed.

Lemma about_cons_other aid e seg :
  concerns aid e = false -> about aid (e :: seg) = about aid seg.
Proof. intros H. cbn. now rewrite H. Qed.

Lemma replay_count_about aid seg : forall x,
  fold_left (replay_count aid) seg x =
  fold_left (replay_count aid) (about aid seg) x.
Proof.
  induction seg as [|e seg IH]; intros x; [reflexivity|].
  cbn [fold_left about filter]. fold (about aid seg).
  destruct (concerns aid e) eqn:E; cbn [fold_left]; [apply IH|].
  rewrite <- IH. f_equal.
  destruct e; try reflexivity; cbn in E.
  destruct r as [[|]|]; try reflexivity. cbn. now rewrite E.
Qed.

Lemma replay_latest_about aid seg : forall x,
  fold_left (replay_latest aid) seg x =
  fold_left (replay_latest aid) (about aid seg) x.
Proof.
  induction seg as [|e seg IH]; intros x; [reflexivity|].
  cbn [fold_left about filter]. fold (about aid seg).
  destruct (concerns aid e) eqn:E; cbn [fold_left]; [apply IH|].
  rewrite <- IH. f_equal.
  destruct e; try reflexivity; cbn in E;
    destruct r as [[|]|]; try reflexivity; cbn; now rewrite E.
Qed.

Lemma key_in_dec (k : Key) (l : list Key) : {In k l} + {~ In k l}.
Proof.
  apply in_dec. intros [c1 i1] [c2 i2].
  destruct (string_dec c1 c2) as [<- | Hc];
    [destruct (string_dec i1 i2) as [<- | Hi]|];
    [now left | right; congruence | right; congruence].
Qed.

(** One cycle: it returns, and [watches] being the alerts it loaded,
    every watch is skipped or taken through its story with the index
    fetched for its key. *)
Lemma cycle_shape env self w watches w1 :
  NoDup (map a_id (alerts (db w))) ->
  get_all_active_alerts env w = (Py.Returns watches, w1) ->
  exists seg,
    fst (check_all_alerts env self w) = Py.Returns tt
    /\ trace (cycle env self w) = trace w ++ seg
    /\ (forall a, In a watches -> In a (select_active (db w)))
    /\ (running self = true ->
        forall a, In a watches ->
          exists out, fetches_of (key_of a) seg = [out]
            /\ forall a', In a' watches -> key_of a' = key_of a ->
                  group_story out a' (about (id a') seg))
    /\ (forall a, In a watches ->
          about (id a) seg = []
          \/ exists v, alert_story v a (about (id a) seg)
                       /\ fetches_of (key_of a) seg = [Success v])
    /\ (forall aid, ~ In aid (map id watches) -> about aid seg = [])
    /\ (forall k, (List.length (fetches_of k seg) <= 1)%nat).
Proof.
  intros N Hload. unfold cycle, check_all_alerts, try_except, bind.
  rewrite Hload.
  assert (Hsel : forall a, In a watches -> In a (select_active (db w))).
  { revert Hload. unfold get_all_active_alerts.
    destruct (db_fault env (trace w)); intros [= <- _]; [intros a []|tauto]. }
  assert (Nw : NoDup (map id watches)).
  { revert Hload. unfold get_all_active_alerts.
    destruct (db_fault env (trace w)); intros [= <- _];
      [constructor | now apply select_active_nodup]. }
  assert (Tl : exists e, trace w1 = trace w ++ [e] /\
               (forall aid, concerns aid e = false) /\ (forall k, fetch_of k e = [])).
  { revert Hload. unfold get_all_active_alerts.
    destruct (db_fault env (trace w)); intros [= _ <-]; now eexists. }
  destruct Tl as (e0 & Tl & Ce & Fe).
  destruct watches as [|a0 rest] eqn:Ew.
  { exists [e0]. cbn [fst snd ret]. repeat apply conj.
    - reflexivity.
    - exact Tl.
    - intros a [].
    - intros _ a [].
    - intros a [].
    - intros aid _. now apply about_cons_other.
    - intros k. unfold fetches_of. cbn. rewrite Fe. cbn. lia. }
  rewrite <- Ew in *. clear Ew a0 rest.
  destruct (group_alerts_sound watches Nw) as (Sg & Hmem).
  destruct (running self) eqn:Hrun.
  - destruct (check_groups_shape env self Hrun (group_alerts watches) w1 Sg)
      as (seg & R & T & G & K & O).
    assert (Hfetch : forall a, In a watches ->
              exists out, fetches_of (key_of a) seg = [out]
                /\ forall a', In a' watches -> key_of a' = key_of a ->
                      group_story out a' (about (id a') seg)).
    { intros a Ha. destruct (Hmem a Ha) as (l & Hl & Hal).
      destruct (G _ _ Hl) as (out & Fo & So). exists out. split; [exact Fo|].
      intros a' Ha' Hk. destruct (Hmem a' Ha') as (l' & Hl' & Hal').
      destruct (G _ _ Hl') as (out' & Fo' & So').
      rewrite Hk, Fo in Fo'. injection Fo' as <-. now apply So'. }
    destruct (check_groups env self (group_alerts watches) w1) as [r w2].
    cbn [fst snd] in *. subst r. cbn [fst snd].
    exists (e0 :: seg). repeat apply conj.
    + reflexivity.
    + rewrite T, Tl, <- app_assoc. reflexivity.
    + exact Hsel.
    + intros _ a Ha. destruct (Hfetch a Ha) as (out & Fo & So).
      exists out. split.
      * unfold fetches_of. cbn. rewrite Fe. exact Fo.
      * intros a' Ha' Hk. rewrite about_cons_other by apply Ce. now apply So.
    + intros a Ha. destruct (Hfetch a Ha) as (out & Fo & So).
      rewrite about_cons_other by apply Ce.
      specialize (So a Ha eq_refl). destruct out as [v | f].
      * right. exists v. split; [exact So|].
        unfold fetches_of. cbn. rewrite Fe. exact Fo.
      * now left.
    + intros aid Hnin. rewrite about_cons_other by apply Ce.
      apply O. intros H. apply Hnin.
      apply in_map_iff in H as (a & <- & Ha). apply in_map.
      unfold members in Ha. apply in_flat_map in Ha as ([k l] & Hkl & Hal).
      destruct (fold_group_add watches [] (NoDup_nil _)) as (_ & _ & P).
      { intros ? ? ? []. }
      cbv zeta in P. rewrite app_nil_r in P.
      apply (Permutation_in _ P). unfold members. apply in_flat_map.
      now exists (k, l).
    + intros k. unfold fetches_of. cbn. rewrite Fe. cbn.
      fold (fetches_of k seg).
      destruct (key_in_dec k (map fst (group_alerts watches))) as [Hin | Hnin].
      * apply in_map_iff in Hin as ([k' l] & Hk' & Hkl).
        cbn [fst] in Hk'. subst k'.
        destruct (G _ _ Hkl) as (out & Fo & _). rewrite Fo. cbn. lia.
      * rewrite (K _ Hnin). cbn. lia.
  - rewrite check_groups_stopped by exact Hrun. cbn [fst snd].
    exists [e0]. repeat apply conj.
    + reflexivity.
    + exact Tl.
    + exact Hsel.
    + intros [=].
    + intros a _. left. now apply about_cons_other.
    + intros aid _. now apply about_cons_other.
    + intros k. unfold fetches_of. cbn. rewrite Fe. cbn. lia.
Qed.

(** One cycle of a running checker: as many calls of
    [get_index_vacancy] as there are groups, and at most as many requests. *)
Lemma cycle_traffic env self w watches w1 seg :
  running self = true ->
  get_all_active_alerts env w = (Py.Returns watches, w1) ->
  trace (cycle env self w) = trace w ++ seg ->
  List.length (fetch_calls seg) = List.length (group_alerts watches)
  /\ (List.length (posts seg) <= List.length (group_alerts watches))%nat.
Proof.
  intros Hrun Hload. unfold cycle, check_all_alerts, try_except, bind.
  rewrite Hload.
  assert (Tl : exists n, trace w1 = trace w ++ [EvListActive n]).
  { revert Hload. unfold get_all_active_alerts.
    destruct (db_fault env (trace w)); intros [= _ <-]; now eexists. }
  destruct Tl as (n & Tl).
  destruct watches as [|a0 rest] eqn:Ew.
  { cbn [fst snd ret]. rewrite Tl. intros T. apply app_inv_head in T.
    subst seg. cbn. split; lia. }
  (* from here on there is at least one watch *)
  rewrite <- Ew in *. clear Ew a0 rest.
  destruct (check_groups_traffic env self Hrun (group_alerts watches) w1)
    as (seg' & T' & Hf & Hp).
  assert (R : fst (check_groups env self (group_alerts watches) w1) = Py.Returns tt
              \/ exists msg, fst (check_groups env self (group_alerts watches) w1)
                             = Py.Raises msg).
  { destruct (fst _) as [[]|msg]; [now left | right; now exists msg]. }
  destruct (check_groups env self (group_alerts watches) w1) as [r w2].
  cbn [fst snd] in *.
  unfold fetch_calls, posts in *.
  destruct R as [-> | [msg ->]]; cbn [snd effect log trace];
    rewrite T', Tl, <- app_assoc; intros T; apply app_inv_head in T;
    subst seg; cbn; split; lia.
Qed.

Lemma get_all_active_alerts_returns env w :
  exists watches w1, get_all_active_alerts env w = (Py.Returns watches, w1).
Proof.
  unfold get_all_active_alerts. destruct (db_fault env (trace w)); now eexists _, _.
Qed.

End Shape.

(** ** The events of a cycle are the answers of the outside *)

Module Script.

Import VacancyParser World Database VacancyApiClient VacancyChecker.
Import Observations Answers.

Create HintDb plays.

Lemma marked_next_app e rest more :
  marked_next e rest -> marked_next e (rest ++ more).
Proof. destruct e; cbn; try tauto. now destruct rest as [|[] rest]. Qed.

Lemma scripted_app env self s1 : forall pre s2,
  scripted env self pre s1 -> scripted env self (pre ++ s1) s2 ->
  scripted env self pre (s1 ++ s2).
Proof.
  induction s1 as [|e s1 IH]; intros pre s2 H1 H2; cbn [app].
  - now rewrite app_nil_r in H2.
  - destruct H1 as (Ha & Hm & Hs). cbn [scripted]. repeat apply conj.
    + exact Ha.
    + now apply marked_next_app.
    + apply IH; [exact Hs|]. now rewrite <- app_assoc.
Qed.

(** What the script says of one event of the segment. *)
Lemma scripted_at env self s1 : forall pre e s2,
  scripted env self pre (s1 ++ e :: s2) ->
  answered env self (pre ++ s1) e /\ marked_next e s2.
Proof.
  induction s1 as [|x s1 IH]; intros pre e s2 H; cbn [app] in H.
  - destruct H as (Ha & Hm & _). now rewrite app_nil_r.
  - destruct H as (_ & _ & Hs). apply IH in Hs.
    now rewrite <- app_assoc in Hs.
Qed.

Lemma plays_ret env self {A} (a : A) : plays env self (ret a).
Proof. intros w. exists []. cbn. now rewrite app_nil_r. Qed.

Lemma plays_bind env self {A B} (m : M A) (k : A -> M B) :
  plays env self m -> (forall a, plays env self (k a)) ->
  plays env self (bind m k).
Proof.
  intros Hm Hk w. unfold bind.
  destruct (Hm w) as (s1 & T1 & S1).
  destruct (m w) as [[a | msg] w1]; cbn [snd] in *.
  - destruct (Hk a w1) as (s2 & T2 & S2).
    exists (s1 ++ s2). split.
    + now rewrite T2, T1, app_assoc.
    + apply scripted_app; [exact S1 | now rewrite <- T1].
  - now exists s1.
Qed.

Lemma plays_try_except env self {A} (body : M A) (handler : string -> M A) :
  plays env self body -> (forall e, plays env self (handler e)) ->
  plays env self (try_except body handler).
Proof.
  intros Hm Hk w. unfold try_except.
  destruct (Hm w) as (s1 & T1 & S1).
  destruct (body w) as [[a | msg] w1]; cbn [snd] in *.
  - now exists s1.
  - destruct (Hk msg w1) as (s2 & T2 & S2).
    exists (s1 ++ s2). split.
    + now rewrite T2, T1, app_assoc.
    + apply scripted_app; [exact S1 | now rewrite <- T1].
Qed.

Lemma plays_log env self l : plays env self (effect (log l)).
Proof. intros w. exists []. cbn. now rewrite app_nil_r. Qed.

Lemma plays_sleep env self s : plays env self (sleep s).
Proof. intros w. exists [EvSleep s]. cbn. tauto. Qed.

Lemma logged_trace l : forall w,
  trace (fold_left (fun w r => log (LogParser r) w) l w) = trace w.
Proof.
  induction l as [|r l IH]; intros w; cbn [fold_left]; [reflexivity|].
  now rewrite IH.
Qed.

(** The request of [get_course_vacancies], when it makes one, carries
    the outcome the server gave at that moment. *)
Lemma get_course_vacancies_trace env course w :
  trace (snd (get_course_vacancies env course w)) = trace w
  \/ trace (snd (get_course_vacancies env course w)) =
     trace w ++ [EvPost (Py.upper course)
                   (http_post env (trace w) (Py.upper course))].
Proof.
  unfold get_course_vacancies.
  destruct (is_service_available env w) as [avail message].
  destruct avail; cbn [negb]; [|now left]. right.
  destruct (http_post env (trace w) (Py.upper course))
    as [code text| | | msg | msg]; cbn [snd]; try reflexivity.
  destruct (negb (code =? 200)); [reflexivity|].
  destruct (parse_vacancy_html _ _ _); cbn [snd]; now rewrite logged_trace.
Qed.

Lemma plays_get_index_vacancy env self course index_no :
  plays env self (lift (get_index_vacancy env course index_no)).
Proof.
  intros w. unfold lift, get_index_vacancy.
  pose proof (get_course_vacancies_trace env course w) as H.
  destruct (get_course_vacancies env course w) as [result w1].
  cbn [snd] in H.
  set (answer_w2 := match result with Fail f => _ | Success _ => _ end).
  assert (H2 : trace (snd answer_w2) = trace w1).
  { subst answer_w2. destruct result as [all_indexes | f]; [|reflexivity].
    now destruct (scan_indexes all_indexes index_no). }
  destruct answer_w2 as [answer w2]. cbn [snd] in *.
  destruct H as [H | H].
  - exists [EvFetch course index_no answer]. cbn. rewrite H2, H. tauto.
  - exists [EvPost (Py.upper course)
              (http_post env (trace w) (Py.upper course));
            EvFetch course index_no answer].
    cbn. rewrite H2, H, <- app_assoc. tauto.
Qed.

Lemma plays_get_all_active_alerts env self :
  plays env self (get_all_active_alerts env).
Proof.
  intros w. unfold get_all_active_alerts.
  destruct (db_fault env (trace w)) as [msg|] eqn:E; cbn [snd].
  - exists [EvListActive (Py.Raises msg)].
    split; [reflexivity|]. cbn. unfold db_answer. rewrite E.
    split; [now exists 0%nat | tauto].
  - eexists [EvListActive (Py.Returns _)].
    split; [reflexivity|]. cbn. unfold db_answer. rewrite E.
    split; [now eexists | tauto].
Qed.

#[export] Hint Resolve plays_ret plays_log plays_sleep
  plays_get_index_vacancy plays_get_all_active_alerts : plays.

Lemma update_alert_check_answer env aid vac wait w :
  exists b,
    fst (update_alert_check env aid vac wait w) = db_answer env (trace w) b
    /\ trace (snd (update_alert_check env aid vac wait w)) =
       trace w ++ [EvUpdateCheck aid vac wait (db_answer env (trace w) b)].
Proof.
  unfold update_alert_check, db_answer.
  destruct (db_fault env (trace w)); [now exists true|].
  destruct (find _ _); [now exists true | now exists false].
Qed.

Lemma notify_then_mark_trace env self v a w :
  trace (snd (bind (send_notification env self a v)
                (fun _ => bind (mark_notification_sent env (id a))
                            (fun _ => ret tt)) w)) =
  trace w ++
    [EvNotify (id a) (telegram_id a) (notification_text a v)
       (send_answer env self (trace w) (telegram_id a) (notification_text a v));
     EvMarkSent (id a)
       (db_answer env
          (trace w ++
             [EvNotify (id a) (telegram_id a) (notification_text a v)
                (send_answer env self (trace w) (telegram_id a)
                   (notification_text a v))]) true)].
Proof.
  unfold bind, send_notification, mark_notification_sent, send_answer,
    db_answer. cbv zeta.
  destruct (match bot self with Some _ => _ | None => _ end) as [[]|msg];
    cbn [trace emit log];
    match goal with
    | |- context [db_fault env ?t] => destruct (db_fault env t)
    end; cbn; now rewrite <- app_assoc.
Qed.

(** The loop body for one alert: the write, and after it the
    notification with its mark, each with the answer of the moment. *)
Lemma plays_update_alert env self v a :
  plays env self (update_alert env self v a).
Proof.
  intros w.
  destruct (update_alert_check_answer env (id a) (vacancy v) (waitlist v) w)
    as (b & R & T).
  pose proof (notify_then_mark_trace env self v a) as Hn.
  unfold update_alert, try_except, bind in *.
  destruct (update_alert_check env (id a) (vacancy v) (waitlist v) w)
    as [r w1]. cbn [fst snd] in R, T. subst r.
  set (u := EvUpdateCheck (id a) (vacancy v) (waitlist v)
              (db_answer env (trace w) b)) in *.
  assert (Hu : answered env self (trace w) u) by (now exists b).
  destruct (db_answer env (trace w) b) as [b' | msg] eqn:Eb.
  2:{ exists [u]. cbn. split; [exact T | tauto]. }
  destruct (vacancy_opened (last_vacancy_count a) (vacancy v)).
  2:{ exists [u]. cbn. split; [exact T | tauto]. }
  specialize (Hn w1).
  set (n := EvNotify (id a) (telegram_id a) (notification_text a v)
              (send_answer env self (trace w1) (telegram_id a)
                 (notification_text a v))) in *.
  set (m := EvMarkSent (id a) (db_answer env (trace w1 ++ [n]) true)) in *.
  exists [u; n; m]. split.
  - destruct (send_notification env self a v w1) as [[[]|e1] w2];
      cbn [snd] in *.
    + destruct (mark_notification_sent env (id a) w2) as [[bm|e2] w3];
        cbn [snd effect log trace ret] in *;
        rewrite Hn, T, <- app_assoc; reflexivity.
    + cbn [snd effect log trace ret] in *.
      rewrite Hn, T, <- app_assoc; reflexivity.
  - cbn [scripted]. repeat split.
    + exact Hu.
    + subst n. cbn [answered]. now rewrite T.
    + subst m. cbn [answered]. now rewrite T, <- app_assoc.
Qed.

Lemma plays_update_alerts env self v l :
  plays env self (update_alerts env self v l).
Proof.
  induction l as [|a l IH]; cbn [update_alerts]; [auto with plays|].
  apply plays_bind; [apply plays_update_alert | intros _; exact IH].
Qed.

Lemma plays_check_groups env self g : plays env self (check_groups env self g).
Proof.
  induction g as [|[[course index_no] l] g IH]; cbn [check_groups];
    [auto with plays|].
  destruct (negb (running self)); [auto with plays|].
  apply plays_bind; [auto with plays|]. intros [v | f].
  - apply plays_bind; [apply plays_update_alerts | intros _].
    apply plays_bind; [auto with plays | intros _; exact IH].
  - apply plays_bind; [auto with plays | intros _].
    apply plays_bind; [auto with plays | intros _; exact IH].
Qed.

Lemma plays_check_all_alerts env self :
  plays env self (check_all_alerts env self).
Proof.
  unfold check_all_alerts. apply plays_try_except; [|auto with plays].
  apply plays_bind; [auto with plays|]. intros [|a l];
    [auto with plays | apply plays_check_groups].
Qed.

(** The events of a cycle carry the answers of the outside. *)
Lemma cycle_scripted env self w seg :
  trace (cycle env self w) = trace w ++ seg ->
  scripted env self (trace w) seg.
Proof.
  intros T. destruct (plays_check_all_alerts env self w) as (seg' & T' & S).
  fold (cycle env self w) in T'. rewrite T in T'.
  apply app_inv_head in T'. now subst seg'.
Qed.

End Script.

Module CheckerClaims.
Import VacancyParser World Database VacancyApiClient VacancyChecker.
Import ParserDefs Observations Samples Grouping Shape Tracking.
Import Answers MoreSamples Script.

Lemma sample_ids_distinct : NoDup (map a_id (alerts (db sample_world))).
Proof.
  repeat constructor; cbn; intros H;
    repeat (destruct H as [H | H]; [discriminate H|]); exact H.
Qed.

Lemma vacancy_opened_iff o n :
  vacancy_opened o n = true <-> o = 0 /\ 0 < n.
Proof.
  unfold vacancy_opened. rewrite andb_true_iff, Z.eqb_eq, Z.ltb_lt. tauto.
Qed.

(** What one cycle does for an alert whose write went through. *)
Lemma written_alert env self w seg aid vac wait :
  NoDup (map a_id (alerts (db w))) ->
  trace (cycle env self w) = trace w ++ seg ->
  In (EvUpdateCheck aid vac wait (Py.Returns true)) seg ->
  exists a v,
    In a (select_active (db w)) /\ id a = aid
    /\ vacancy v = vac /\ waitlist v = wait
    /\ fetches_of (key_of a) seg = [Success v]
    /\ ((vacancy_opened (last_vacancy_count a) vac = false
         /\ about aid seg = [EvUpdateCheck aid vac wait (Py.Returns true)])
        \/ (vacancy_opened (last_vacancy_count a) vac = true
            /\ exists sent marked,
                 about aid seg =
                 [EvUpdateCheck aid vac wait (Py.Returns true);
                  EvNotify aid (telegram_id a) (notification_text a v) sent;
                  EvMarkSent aid marked])).
Proof.
  intros N T Hin.
  destruct (get_all_active_alerts_returns env w) as (watches & w1 & Hload).
  destruct (cycle_shape env self w watches w1 N Hload)
    as (seg' & _ & T' & Hsel & _ & Hst & Hout & _).
  rewrite T in T'. apply app_inv_head in T'. subst seg'.
  assert (Hab : In (EvUpdateCheck aid vac wait (Py.Returns true)) (about aid seg)).
  { apply filter_In. split; [exact Hin | cbn; apply Z.eqb_refl]. }
  destruct (in_dec Z.eq_dec aid (map id watches)) as [Hw | Hnw].
  2:{ rewrite (Hout _ Hnw) in Hab. destruct Hab. }
  apply in_map_iff in Hw as (a & <- & Ha).
  destruct (Hst a Ha) as [E | (v & S & F)]; [rewrite E in Hab; destruct Hab|].
  exists a, v. pose proof (Hsel a Ha) as Hsa.
  inversion S as [msg E | b Ho E | b sent marked Ho E]; rewrite <- E in Hab.
  - destruct Hab as [[=] | []].
  - destruct Hab as [Heq | []]. injection Heq as Hv Hw Hb.
    subst vac wait b. repeat apply conj; try reflexivity; try assumption.
    left. split; [exact Ho | now symmetry].
  - destruct Hab as [Heq | [[=] | [[=] | []]]]. injection Heq as Hv Hw Hb.
    subst vac wait b. repeat apply conj; try reflexivity; try assumption.
    right. split; [exact Ho|]. exists sent, marked. now symmetry.
Qed.

Lemma in_about aid e seg : In e (about aid seg) -> In e seg.
Proof. intros H. now apply filter_In in H. Qed.

Lemma notify_in_about aid chat text r seg :
  In (EvNotify aid chat text r) seg -> In (EvNotify aid chat text r) (about aid seg).
Proof. intros H. apply filter_In. split; [exact H | cbn; apply Z.eqb_refl]. Qed.

(** The database after a cycle, for an alert whose write went through. *)
Lemma written_alert_stored env self w seg aid vac wait :
  NoDup (map a_id (alerts (db w))) ->
  trace (cycle env self w) = trace w ++ seg ->
  In (EvUpdateCheck aid vac wait (Py.Returns true)) seg ->
  stored_count aid (db (cycle env self w)) = Some vac.
Proof.
  intros N T Hin.
  destruct (written_alert env self w seg aid vac wait N T Hin)
    as (a & v & _ & _ & _ & _ & _ & Hcases).
  destruct (tracked_check_all_alerts env self w) as (seg' & lseg & F).
  fold (cycle env self w) in F.
  pose proof (f_trace _ _ _ _ F) as T'. rewrite T in T'.
  apply app_inv_head in T'. subst seg'.
  rewrite (f_count _ _ _ _ F), replay_count_about.
  destruct Hcases as [[_ ->] | [_ (sent & marked & ->)]];
    cbn; now rewrite Z.eqb_refl.
Qed.

Lemma one_round_cycle interval env self w :
  db (snd (one_round interval env self w)) = db (cycle env self w)
  /\ exists tail,
       trace (snd (one_round interval env self w)) =
       trace (cycle env self w) ++ tail
       /\ forall aid, about aid tail = [].
Proof.
  unfold one_round, try_except, bind, cycle.
  destruct (get_all_active_alerts_returns env w) as (watches & w1 & Hload).
  assert (R : fst (check_all_alerts env self w) = Py.Returns tt).
  { unfold check_all_alerts, try_except, bind. rewrite Hload.
    destruct watches as [|a0 rest]; [reflexivity|].
    destruct (check_groups env self _ w1) as [[[]|msg] w2]; reflexivity. }
  destruct (check_all_alerts env self w) as [r w2]. cbn [fst snd] in *.
  subst r. destruct (running self); cbn.
  - split; [reflexivity|]. now exists [EvSleep interval].
  - split; [reflexivity|]. exists []. now rewrite app_nil_r.
Qed.

(** What one cycle does for an alert for which a count was observed,
    whether the write went through or not. *)
Lemma observed_alert env self w seg aid vac wait r :
  NoDup (map a_id (alerts (db w))) ->
  trace (cycle env self w) = trace w ++ seg ->
  In (EvUpdateCheck aid vac wait r) seg ->
  exists a,
    In a (select_active (db w)) /\ id a = aid
    /\ ((exists msg, r = Py.Raises msg)
        /\ about aid seg = [EvUpdateCheck aid vac wait r]
        \/ r = Py.Returns true
           /\ vacancy_opened (last_vacancy_count a) vac = false
           /\ about aid seg = [EvUpdateCheck aid vac wait r]
        \/ r = Py.Returns true
           /\ vacancy_opened (last_vacancy_count a) vac = true
           /\ exists chat text sent marked,
                about aid seg =
                [EvUpdateCheck aid vac wait r; EvNotify aid chat text sent;
                 EvMarkSent aid marked]).
Proof.
  intros N T Hin.
  destruct (get_all_active_alerts_returns env w) as (watches & w1 & Hload).
  destruct (cycle_shape env self w watches w1 N Hload)
    as (seg' & _ & T' & Hsel & _ & Hst & Hout & _).
  rewrite T in T'. apply app_inv_head in T'. subst seg'.
  destruct (tracked_check_all_alerts env self w) as (seg' & lseg & F).
  fold (cycle env self w) in F.
  pose proof (f_trace _ _ _ _ F) as T'. rewrite T in T'.
  apply app_inv_head in T'. subst seg'.
  assert (Hab : In (EvUpdateCheck aid vac wait r) (about aid seg)).
  { apply filter_In. split; [exact Hin | cbn; apply Z.eqb_refl]. }
  destruct (in_dec Z.eq_dec aid (map id watches)) as [Hw | Hnw].
  2:{ rewrite (Hout _ Hnw) in Hab. destruct Hab. }
  apply in_map_iff in Hw as (a & <- & Ha).
  destruct (Hst a Ha) as [E | (v & S & _)]; [rewrite E in Hab; destruct Hab|].
  exists a. pose proof (Hsel a Ha) as Hsa.
  destruct (select_active_stored (db w) a N Hsa) as [_ Hk].
  assert (Hb : forall b, r = Py.Returns b -> b = true).
  { intros b ->. rewrite <- Hk.
    apply (f_found _ _ _ _ F (id a) vac wait b Hin). }
  split; [exact Hsa | split; [reflexivity|]].
  inversion S as [msg E | b Ho E | b sent marked Ho E]; rewrite <- E in Hab.
  - destruct Hab as [Heq | []]. injection Heq as Hv Hw Hr. subst vac wait r.
    left. split; [now exists msg | reflexivity].
  - destruct Hab as [Heq | []]. injection Heq as Hv Hw Hr. subst vac wait r.
    rewrite (Hb b eq_refl). right. left. now repeat split.
  - destruct Hab as [Heq | [[=] | [[=] | []]]].
    injection Heq as Hv Hw Hr. subst vac wait r.
    rewrite (Hb b eq_refl). right. right.
    split; [reflexivity | split; [exact Ho|]].
    now exists (telegram_id a), (notification_text a v), sent, marked.
Qed.

Lemma streak_bound interval env self aid w segs :
  positive_streak interval env self aid w segs ->
  NoDup (map a_id (alerts (db w))) ->
  (List.length (notifications aid segs) <= 1)%nat
  /\ (forall c, stored_count aid (db w) = Some c -> c <> 0 ->
      notifications aid segs = []).
Proof.
  induction 1 as [w | w seg rest vac wait r T Hin Hpos Hrest IH]; intros N.
  { split; [cbn; lia | reflexivity]. }
  destruct (one_round_cycle interval env self w) as (Hdb & tail & Tt & At).
  destruct (tracked_check_all_alerts env self w) as (segc & lseg & F).
  fold (cycle env self w) in F.
  pose proof (f_trace _ _ _ _ F) as Tc.
  assert (Eseg : seg = segc ++ tail).
  { rewrite Tc, <- app_assoc in Tt. rewrite Tt in T.
    now apply app_inv_head in T. }
  subst seg.
  assert (Hinc : In (EvUpdateCheck aid vac wait r) segc).
  { apply in_app_or in Hin as [Hin | Hin]; [exact Hin|].
    assert (Ha : In (EvUpdateCheck aid vac wait r) (about aid tail)).
    { apply filter_In. split; [exact Hin | cbn; apply Z.eqb_refl]. }
    rewrite At in Ha. destruct Ha. }
  destruct (observed_alert env self w segc aid vac wait r N Tc Hinc)
    as (a & Ha & Hid & Hcases).
  destruct (select_active_stored (db w) a N Ha) as [Hold _]. rewrite Hid in Hold.
  assert (N' : NoDup (map a_id (alerts (db (snd (one_round interval env self w)))))).
  { rewrite Hdb. now rewrite (f_ids _ _ _ _ F). }
  destruct (IH N') as [IH1 IH0]. rewrite Hdb in IH0.
  pose proof (f_count _ _ _ _ F aid) as Hafter.
  rewrite replay_count_about, Hold in Hafter.
  unfold notifications in *. rewrite !about_app, !filter_app, At.
  cbn [filter]. rewrite !app_nil_r.
  destruct Hcases as [[[msg ->] E] | [(-> & Ho & E) | (-> & Ho & chat & text & sent & marked & E)]];
    rewrite E in *; cbn in Hafter; rewrite ?Z.eqb_refl in Hafter; cbn.
  - split; [exact IH1|]. intros c Hc Hne. apply (IH0 c); congruence.
  - split; [exact IH1|]. intros c Hc Hne. apply (IH0 vac Hafter). lia.
  - rewrite (IH0 vac Hafter ltac:(lia)). split; [cbn; lia|].
    intros c Hc Hne. exfalso.
    apply vacancy_opened_iff in Ho as [Ho _]. congruence.
Qed.

Lemma story_updates v a seg :
  alert_story v a seg ->
  exists r, flat_map update_of seg = [(vacancy v, waitlist v, r)].
Proof. intros []; cbn; now eexists. Qed.

(** C1, as stated, fails: with a database that loses the write of
    alert 1, the count stored for the alert is 0, the count observed for
    it is 3, and no notification is attempted. *)
Lemma lost_write_counterexample :
  ~ (forall (env : Env) (self : Checker) (w : World) (seg : list Event)
            (aid vac wait : Z) (r : Py.result bool),
        NoDup (map a_id (alerts (db w))) ->
        trace (cycle env self w) = trace w ++ seg ->
        In (EvUpdateCheck aid vac wait r) seg ->
        ((exists chat text sent, In (EvNotify aid chat text sent) seg)
         <-> stored_count aid (db w) = Some 0 /\ 0 < vac)).
Proof.
  intros H.
  destruct (H failing_write_env sample_checker sample_world
              (events_of (check_all_alerts failing_write_env sample_checker)
                 sample_world)
              1 3 0 (Py.Raises "connection already closed")
              sample_ids_distinct eq_refl) as [_ Hback].
  - vm_compute. tauto.
  - destruct Hback as (chat & text & sent & Hin);
      [split; [reflexivity | lia]|].
    vm_compute in Hin.
    repeat (destruct Hin as [Hin | Hin]; [discriminate Hin|]).
    exact Hin.
Qed.

(** C1, amended.  In a cycle, for every call of [update_alert_check]
    (every alert for which a count was observed): a notification is
    attempted for the alert if and only if the database does not fail in
    that call, the count stored before the cycle is 0 and the observed
    count is positive; the call returns exactly when the database does not
    fail; and the notification is attempted at most once.  An alert for
    which no count was observed gets no notification.  Over consecutive
    rounds that all observe a positive count for the alert, at most one
    notification is attempted. *)
Theorem edge_triggered_notification (env : Env) (self : Checker) (w : World) :
  NoDup (map a_id (alerts (db w))) ->
  (forall seg,
      trace (cycle env self w) = trace w ++ seg ->
      (forall s1 aid vac wait r s2,
          seg = s1 ++ EvUpdateCheck aid vac wait r :: s2 ->
          ((exists chat text sent, In (EvNotify aid chat text sent) seg)
           <-> db_fault env (trace w ++ s1) = None
               /\ stored_count aid (db w) = Some 0 /\ 0 < vac)
          /\ (r = Py.Returns true <-> db_fault env (trace w ++ s1) = None)
          /\ (List.length (notifications aid seg) <= 1)%nat)
      /\ (forall aid, updates_of aid seg = [] -> notifications aid seg = []))
  /\ (forall interval aid segs,
         positive_streak interval env self aid w segs ->
         (List.length (notifications aid segs) <= 1)%nat).
Proof.
  intros N. split; [|intros interval aid segs Hs;
                     now destruct (streak_bound interval env self aid w segs Hs N)].
  intros seg T. split.
  - intros s1 aid vac wait r s2 Hseg.
    assert (Hin : In (EvUpdateCheck aid vac wait r) seg).
    { rewrite Hseg. apply in_or_app. right. now left. }
    destruct (observed_alert env self w seg aid vac wait r N T Hin)
      as (a & Ha & Hid & Hcases).
    destruct (select_active_stored (db w) a N Ha) as [Hold _].
    rewrite Hid in Hold. rewrite Hold.
    pose proof (cycle_scripted env self w seg T) as Sc.
    rewrite Hseg in Sc. apply scripted_at in Sc as [(b & Hb) _].
    unfold db_answer in Hb.
    destruct Hcases as [[[msg ->] E] | [(-> & Ho & E) | (-> & Ho & chat & text & sent & marked & E)]].
    + destruct (db_fault env (trace w ++ s1)) as [msg'|]; [|discriminate Hb].
      repeat apply conj.
      * intros (chat & text & sent & Hn). apply notify_in_about in Hn.
        rewrite E in Hn. destruct Hn as [[=] | []].
      * intros [[=] _].
      * intros [=].
      * intros [=].
      * unfold notifications. rewrite E. cbn. lia.
    + destruct (db_fault env (trace w ++ s1)) as [msg'|]; [discriminate Hb|].
      repeat apply conj; try tauto.
      * intros (chat & text & sent & Hn). apply notify_in_about in Hn.
        rewrite E in Hn. destruct Hn as [[=] | []].
      * intros (_ & [= H0] & Hp). exfalso.
        assert (Ht : vacancy_opened (last_vacancy_count a) vac = true)
          by (apply vacancy_opened_iff; now split).
        congruence.
      * unfold notifications. rewrite E. cbn. lia.
    + destruct (db_fault env (trace w ++ s1)) as [msg'|]; [discriminate Hb|].
      repeat apply conj; try tauto.
      * intros _. apply vacancy_opened_iff in Ho as [-> Hp]. now repeat split.
      * intros _. exists chat, text, sent.
        apply (in_about aid). rewrite E. right. now left.
      * unfold notifications. rewrite E. cbn. lia.
  - intros aid Hu.
    destruct (get_all_active_alerts_returns env w) as (watches & w1 & Hload).
    destruct (cycle_shape env self w watches w1 N Hload)
      as (seg' & _ & T' & _ & _ & Hst & Hout & _).
    rewrite T in T'. apply app_inv_head in T'. subst seg'.
    unfold notifications.
    destruct (in_dec Z.eq_dec aid (map id watches)) as [Hw | Hnw].
    2:{ now rewrite (Hout _ Hnw). }
    apply in_map_iff in Hw as (a & <- & Ha).
    destruct (Hst a Ha) as [E | (v & S & _)]; [now rewrite E|].
    exfalso. destruct (story_updates _ _ _ S) as (r & Hr).
    unfold updates_of in Hu. rewrite Hu in Hr. discriminate Hr.
Qed.

Lemma edge_triggered_notification_witness :
  ((exists chat text sent,
       In (EvNotify 1 chat text sent)
         (events_of (check_all_alerts sample_env sample_checker) sample_world))
   <-> db_fault sample_env
         (trace sample_world
          ++ firstn 3 (events_of (check_all_alerts sample_env sample_checker)
                         sample_world)) = None
       /\ stored_count 1 (db sample_world) = Some 0 /\ 0 < 3)
  /\ notifications 3
       (events_of (check_all_alerts sample_env sample_checker) sample_world)
     = []
  /\ (List.length
        (notifications 1
           (events_of (one_round 300 sample_env sample_checker) sample_world
            ++ events_of (one_round 300 sample_env sample_checker)
                 (snd (one_round 300 sample_env sample_checker sample_world))
            ++ [])) <= 1)%nat.
Proof.
  destruct (edge_triggered_notification sample_env sample_checker sample_world
              sample_ids_distinct) as [Hcycle Hstreak].
  destruct (Hcycle _ eq_refl) as [Hrule Hnone].
  split; [|split].
  - apply (Hrule _ 1 3 0 (Py.Returns true)
             (skipn 4 (events_of (check_all_alerts sample_env sample_checker)
                         sample_world))).
    vm_compute. reflexivity.
  - apply Hnone. vm_compute. reflexivity.
  - apply (Hstreak 300 1).
    apply (streak_round _ _ _ _ _ _ _ 3 0 (Py.Returns true));
      [vm_compute; reflexivity | vm_compute; tauto | lia |].
    apply (streak_round _ _ _ _ _ _ _ 3 0 (Py.Returns true));
      [vm_compute; reflexivity | vm_compute; tauto | lia |].
    apply streak_end.
Defined.

(** The rule with the failing write spelled out: for a watch whose key was
    fetched with success, the notification is attempted exactly when the
    write did not raise, the count loaded with the watch is 0 and the
    fetched vacancy is positive. *)
Lemma notification_rule_of_a_fetched_watch env self w watches w1 seg a v :
  NoDup (map a_id (alerts (db w))) ->
  get_all_active_alerts env w = (Py.Returns watches, w1) ->
  trace (cycle env self w) = trace w ++ seg ->
  In a watches ->
  fetches_of (key_of a) seg = [Success v] ->
  exists r,
    updates_of (id a) seg = [(vacancy v, waitlist v, r)]
    /\ ((exists chat text sent, In (EvNotify (id a) chat text sent) seg)
        <-> (exists b, r = Py.Returns b)
            /\ last_vacancy_count a = 0 /\ 0 < vacancy v).
Proof.
  intros N Hload T Ha Hf.
  destruct (cycle_shape env self w watches w1 N Hload)
    as (seg' & _ & T' & _ & _ & Hst & _).
  rewrite T in T'. apply app_inv_head in T'. subst seg'.
  destruct (Hst a Ha) as [E | (v' & S & Fv)].
  { exfalso. destruct (running self) eqn:Hrun.
    - destruct (cycle_shape env self w watches w1 N Hload)
        as (seg' & _ & T' & _ & Hg & _).
      rewrite T in T'. apply app_inv_head in T'. subst seg'.
      destruct (Hg Hrun a Ha) as (out & Fo & So).
      rewrite Hf in Fo. injection Fo as <-.
      specialize (So a Ha eq_refl). cbn in So. rewrite E in So. inversion So.
    - revert Hf T. unfold cycle, check_all_alerts, try_except, bind.
      rewrite Hload. destruct watches as [|a0 rest]; [destruct Ha|].
      rewrite check_groups_stopped by exact Hrun. cbn [snd].
      revert Hload. unfold get_all_active_alerts.
      destruct (db_fault env (trace w)); intros [= _ <-]; cbn [trace emit log];
        intros Hf T; apply app_inv_head in T; subst seg; discriminate Hf. }
  rewrite Hf in Fv. injection Fv as <-.
  unfold updates_of.
  inversion S as [msg E | b Ho E | b sent marked Ho E].
  - eexists. split; [reflexivity|]. split.
    + intros (chat & text & s0 & Hn). apply notify_in_about in Hn.
      rewrite <- E in Hn. destruct Hn as [[=] | []].
    + intros [[b [=]] _].
  - eexists. split; [reflexivity|]. split.
    + intros (chat & text & s0 & Hn). apply notify_in_about in Hn.
      rewrite <- E in Hn. destruct Hn as [[=] | []].
    + intros [_ H0]. exfalso.
      apply vacancy_opened_iff in H0. congruence.
  - eexists. split; [reflexivity|]. split.
    + intros _. split; [now exists b | now apply vacancy_opened_iff].
    + intros _. exists (telegram_id a), (notification_text a v), sent.
      apply (in_about (id a)). rewrite <- E. right. now left.
Qed.

(** C2, as stated, fails: with a database that loses the write of
    alert 1, the two alerts on SC2103/10001 are served by one fetch that
    shows 3 seats, yet alert 1 keeps its count 0 while alert 2 stores 3. *)
Lemma uneven_group_counterexample :
  ~ (forall (env : Env) (self : Checker) (w : World)
            (watches : list AlertDict) (w1 : World) (a a' : AlertDict)
            (v : IndexInfo),
        running self = true ->
        NoDup (map a_id (alerts (db w))) ->
        get_all_active_alerts env w = (Py.Returns watches, w1) ->
        In a watches -> In a' watches -> key_of a' = key_of a ->
        fetches_of (key_of a) (events_of (check_all_alerts env self) w)
        = [Success v] ->
        stored_count (id a') (db (cycle env self w)) = Some (vacancy v)).
Proof.
  intros H.
  specialize (H failing_write_env sample_checker sample_world
                (select_active sample_db)
                (snd (get_all_active_alerts failing_write_env sample_world))
                (to_dict (sample_alert 2 "SC2103" "10001" 5))
                (to_dict (sample_alert 1 "SC2103" "10001" 0))
                sample_index eq_refl sample_ids_distinct eq_refl).
  assert (E : stored_count 1
                (db (cycle failing_write_env sample_checker sample_world))
              = Some 3).
  { apply H; vm_compute; tauto. }
  vm_compute in E. discriminate E.
Qed.

(** C2, amended.  In a cycle of a running checker, [watches] being the
    alerts it loaded: for every watch there is exactly one call of
    [get_index_vacancy] for its key, and for every watch with that key
    exactly one call of [update_alert_check] is made, with the vacancy and
    waitlist of the index that call returned (and none when the fetch
    failed).  When the database does not fail in the call, the call
    returns, that vacancy is the stored count when the cycle ends, and
    the latest history row carries that vacancy and waitlist; when it
    fails, the call raises and the watch keeps its stored count and its
    latest history row, the other watches of the group being served all
    the same.  The cycle makes as many fetches as there are distinct keys,
    and sends the server at most that many requests. *)
Theorem one_fetch_serves_the_group (env : Env) (self : Checker) (w : World)
  (watches : list AlertDict) (w1 : World) (seg : list Event) :
  running self = true ->
  NoDup (map a_id (alerts (db w))) ->
  get_all_active_alerts env w = (Py.Returns watches, w1) ->
  trace (cycle env self w) = trace w ++ seg ->
  (forall a, In a watches ->
     exists out,
       fetches_of (key_of a) seg = [out]
       /\ forall a', In a' watches -> key_of a' = key_of a ->
            match out with
            | Success v =>
                (exists r,
                    updates_of (id a') seg = [(vacancy v, waitlist v, r)])
                /\ forall s1 vac wait r s2,
                     seg = s1 ++ EvUpdateCheck (id a') vac wait r :: s2 ->
                     vac = vacancy v /\ wait = waitlist v
                     /\ match db_fault env (trace w ++ s1) with
                        | None =>
                            r = Py.Returns true
                            /\ stored_count (id a') (db (cycle env self w)) =
                               Some (vacancy v)
                            /\ (history_past (db w) ->
                                exists flag,
                                  latest_view (id a') (db (cycle env self w)) =
                                  Some (vacancy v, waitlist v, flag))
                        | Some msg =>
                            r = Py.Raises msg
                            /\ stored_count (id a') (db (cycle env self w)) =
                               stored_count (id a') (db w)
                            /\ (history_past (db w) ->
                                latest_view (id a') (db (cycle env self w)) =
                                latest_view (id a') (db w))
                        end
            | Fail _ => updates_of (id a') seg = []
            end)
  /\ List.length (fetch_calls seg) = List.length (group_alerts watches)
  /\ (List.length (posts seg) <= List.length (group_alerts watches))%nat.
Proof.
  intros Hrun N Hload T.
  split; [|exact (cycle_traffic env self w watches w1 seg Hrun Hload T)].
  intros a Ha.
  destruct (cycle_shape env self w watches w1 N Hload)
    as (seg' & _ & T' & Hsel & Hf & _).
  rewrite T in T'. apply app_inv_head in T'. subst seg'.
  destruct (Hf Hrun a Ha) as (out & Fo & So).
  exists out. split; [exact Fo|].
  intros a' Ha' Hk. specialize (So a' Ha' Hk).
  destruct out as [v | f]; cbn [group_story] in So.
  2:{ unfold updates_of. now rewrite So. }
  split; [exact (story_updates _ _ _ So)|].
  intros s1 vac wait r s2 Eseg.
  assert (Hin : In (EvUpdateCheck (id a') vac wait r) seg).
  { rewrite Eseg. apply in_or_app. right. now left. }
  assert (Hab : In (EvUpdateCheck (id a') vac wait r) (about (id a') seg)).
  { apply filter_In. split; [exact Hin | cbn; apply Z.eqb_refl]. }
  pose proof (cycle_scripted env self w seg T) as Sc.
  rewrite Eseg in Sc. apply scripted_at in Sc as [(b & Hb) _].
  destruct (tracked_check_all_alerts env self w) as (seg' & lseg & F).
  fold (cycle env self w) in F.
  pose proof (f_trace _ _ _ _ F) as T'. rewrite T in T'.
  apply app_inv_head in T'. subst seg'.
  assert (Hv : vac = vacancy v /\ wait = waitlist v).
  { inversion So as [msg E | b' Ho E | b' sent marked Ho E];
      rewrite <- E in Hab;
      repeat (destruct Hab as [Hab | Hab];
              [try discriminate Hab; injection Hab as <- <- _; now split|]);
      destruct Hab. }
  destruct Hv as [-> ->]. split; [reflexivity | split; [reflexivity|]].
  unfold db_answer in Hb.
  destruct (db_fault env (trace w ++ s1)) as [msg|].
  - subst r. split; [reflexivity|].
    assert (E : about (id a') seg =
                [EvUpdateCheck (id a') (vacancy v) (waitlist v) (Py.Raises msg)]).
    { inversion So as [msg' E | b' Ho E | b' sent marked Ho E];
        rewrite <- E in Hab;
        repeat (destruct Hab as [Hab | Hab];
                [try discriminate Hab; injection Hab as ->; reflexivity|]);
        destruct Hab. }
    split.
    + now rewrite (f_count _ _ _ _ F), replay_count_about, E.
    + intros Hp. now rewrite (f_latest _ _ _ _ F Hp), replay_latest_about, E.
  - subst r.
    assert (Hb : b = true).
    { destruct (select_active_stored (db w) a' N (Hsel a' Ha')) as [_ Hk'].
      rewrite <- Hk'.
      apply (f_found _ _ _ _ F (id a') (vacancy v) (waitlist v)). exact Hin. }
    subst b. split; [reflexivity|]. split.
    + apply (written_alert_stored env self w seg _ _ (waitlist v) N T Hin).
    + intros Hp. rewrite (f_latest _ _ _ _ F Hp), replay_latest_about.
      inversion So as [msg' E | b' Ho E | b' sent marked Ho E];
        rewrite <- E in Hab;
        repeat (destruct Hab as [Hab | Hab];
                [try discriminate Hab; injection Hab as ->|]);
        try (now destruct Hab); cbn; rewrite ?Z.eqb_refl.
      * now eexists.
      * destruct marked as [[|]|]; cbn; rewrite ?Z.eqb_refl; now eexists.
Qed.

Lemma one_fetch_serves_the_group_witness :
  fetches_of ("SC2103", "10001")
    (events_of (check_all_alerts failing_write_env sample_checker)
       sample_world)
  = [Success sample_index]
  /\ stored_count 1
       (db (cycle failing_write_env sample_checker sample_world))
     = stored_count 1 (db sample_world)
  /\ stored_count 2
       (db (cycle failing_write_env sample_checker sample_world))
     = Some 3
  /\ List.length
       (fetch_calls
          (events_of (check_all_alerts failing_write_env sample_checker)
             sample_world))
     = 2%nat.
Proof.
  destruct (one_fetch_serves_the_group failing_write_env sample_checker
              sample_world (select_active sample_db)
              (snd (get_all_active_alerts failing_write_env sample_world))
              (events_of (check_all_alerts failing_write_env sample_checker)
                 sample_world)
              eq_refl sample_ids_distinct eq_refl eq_refl)
    as (Hkey & Hcalls & _).
  destruct (Hkey (to_dict (sample_alert 1 "SC2103" "10001" 0)))
    as (out & Fo & Hall); [vm_compute; tauto|].
  assert (Eo : out = Success sample_index).
  { vm_compute in Fo. injection Fo as <-. reflexivity. }
  subst out.
  destruct (Hall (to_dict (sample_alert 1 "SC2103" "10001" 0)))
    as [_ H1]; [vm_compute; tauto | reflexivity|].
  destruct (Hall (to_dict (sample_alert 2 "SC2103" "10001" 5)))
    as [_ H2]; [vm_compute; tauto | reflexivity|].
  destruct (H1 (firstn 3 (events_of (check_all_alerts failing_write_env
                                       sample_checker) sample_world))
              3 0 (Py.Raises "connection already closed")
              (skipn 4 (events_of (check_all_alerts failing_write_env
                                     sample_checker) sample_world)))
    as (_ & _ & _ & S1 & _); [vm_compute; reflexivity|].
  destruct (H2 (firstn 4 (events_of (check_all_alerts failing_write_env
                                       sample_checker) sample_world))
              3 0 (Py.Returns true)
              (skipn 5 (events_of (check_all_alerts failing_write_env
                                     sample_checker) sample_world)))
    as (_ & _ & _ & S2 & _); [vm_compute; reflexivity|].
  split; [reflexivity|].
  split; [exact S1|]. split; [exact S2 | exact Hcalls].
Defined.

(** C3.  A cycle never raises; when the fetch for the group at the head
    of the loop fails, the loop writes nothing and goes on with the
    remaining groups after the warning and the pause; and in a cycle, a
    watch whose key's fetch failed has no call made for it (no write, no
    notification, no mark) and keeps its stored count and its latest
    history row. *)
Theorem failed_fetch_skips_the_group (env : Env) (self : Checker) :
  (forall w, fst (check_all_alerts env self w) = Py.Returns tt)
  /\ (forall course index_no alert_list rest w f w1,
        running self = true ->
        get_index_vacancy env course index_no w = (Fail f, w1) ->
        db w1 = db w
        /\ check_groups env self (((course, index_no), alert_list) :: rest) w =
           check_groups env self rest
             (emit (EvSleep 2)
                (log (LogCouldNotGetVacancy course index_no (error_message f))
                   w1)))
  /\ (forall w watches w1 seg a f,
        NoDup (map a_id (alerts (db w))) ->
        history_past (db w) ->
        get_all_active_alerts env w = (Py.Returns watches, w1) ->
        trace (cycle env self w) = trace w ++ seg ->
        In a watches ->
        fetches_of (key_of a) seg = [Fail f] ->
        about (id a) seg = []
        /\ stored_count (id a) (db (cycle env self w)) =
           stored_count (id a) (db w)
        /\ latest_view (id a) (db (cycle env self w)) =
           latest_view (id a) (db w)).
Proof.
  repeat apply conj.
  - intros w.
    destruct (get_all_active_alerts_returns env w) as (watches & w1 & Hload).
    unfold check_all_alerts, try_except, bind. rewrite Hload.
    destruct watches as [|a0 rest]; [reflexivity|].
    destruct (check_groups env self _ w1) as [[[]|msg] w2]; reflexivity.
  - intros course index_no alert_list rest w f w1 Hrun Hf. split.
    + destruct (tracked_get_index_vacancy env course index_no w)
        as (s & l & F).
      unfold lift in F. rewrite Hf in F. cbn [snd] in F.
      pose proof (ApiFacts.get_index_vacancy_db env course index_no w) as H.
      now rewrite Hf in H.
    + cbn [check_groups]. rewrite Hrun. cbn [negb].
      unfold bind, lift. rewrite Hf. reflexivity.
  - intros w watches w1 seg a f N Hp Hload T Ha Hf.
    destruct (cycle_shape env self w watches w1 N Hload)
      as (seg' & _ & T' & _ & _ & Hst & _).
    rewrite T in T'. apply app_inv_head in T'. subst seg'.
    assert (E : about (id a) seg = []).
    { destruct (Hst a Ha) as [E | (v & _ & Fv)]; [exact E|].
      rewrite Hf in Fv. discriminate Fv. }
    destruct (tracked_check_all_alerts env self w) as (seg' & lseg & F).
    fold (cycle env self w) in F.
    pose proof (f_trace _ _ _ _ F) as T'. rewrite T in T'.
    apply app_inv_head in T'. subst seg'.
    repeat apply conj; [exact E | |].
    + now rewrite (f_count _ _ _ _ F), replay_count_about, E.
    + now rewrite (f_latest _ _ _ _ F Hp), replay_latest_about, E.
Qed.

Lemma failed_fetch_skips_the_group_witness :
  about 3 (events_of (check_all_alerts sample_env sample_checker) sample_world)
  = []
  /\ stored_count 3 (db (cycle sample_env sample_checker sample_world)) = Some 0
  /\ db (snd (get_index_vacancy sample_env "MH1100" "10001" sample_world))
     = sample_db.
Proof.
  destruct (failed_fetch_skips_the_group sample_env sample_checker)
    as (_ & Hloop & Hcycle).
  destruct (Hcycle sample_world (select_active sample_db)
              (snd (get_all_active_alerts sample_env sample_world))
              (events_of (check_all_alerts sample_env sample_checker) sample_world)
              (to_dict (sample_alert 3 "MH1100" "10001" 0))
              (failure timeout "Request Timeout - Server took too long to respond")
              sample_ids_distinct (Forall_nil _) eq_refl eq_refl)
    as (Habout & Hcount & _).
  - vm_compute. tauto.
  - reflexivity.
  - destruct (Hloop "MH1100" "10001" [] [] sample_world
                (failure timeout "Request Timeout - Server took too long to respond")
                (snd (get_index_vacancy sample_env "MH1100" "10001" sample_world))
                eq_refl eq_refl) as [Hdb _].
    split; [exact Habout | split; [exact Hcount | exact Hdb]].
Defined.





End CheckerClaims.

(** ** The further definitions on sample inputs *)

Module MoreExamples.

Import VacancyParser World Database Accounts BotPages StoreNotions.
Import Samples MoreSamples.

Example split_samples :
  map (split "_") ["display_3"; "a__b"; ""; "page_info"]
  = [["display"; "3"]; ["a"; ""; "b"]; [""]; ["page"; "info"]].
Proof. reflexivity. Qed.

Example slice_samples :
  map (fun bounds => slice [1; 2; 3; 4; 5; 6; 7] (fst bounds) (snd bounds))
    [(5, 10); (-2, 7); (3, 2); (-10, 2); (2, -1)]
  = [[6; 7]; [6; 7]; []; [1; 2]; [3; 4; 5; 6]].
Proof. reflexivity. Qed.

Example total_pages_samples :
  map (fun n => total_pages (repeat sample_index n)) [0; 1; 5; 6; 11]%nat
  = [0; 1; 1; 2; 3].
Proof. reflexivity. Qed.

Example nav_buttons_sample :
  nav_buttons "page" (repeat sample_index 11) 1
  = [ {| text := "< Previous"; callback_data := "page_0" |};
      {| text := "2/3"; callback_data := "page_info" |};
      {| text := "Next >"; callback_data := "page_2" |} ].
Proof. reflexivity. Qed.

Example handle_pagination_samples :
  map (fun data => handle_pagination "display" data 2)
    ["display_info"; "display_3"; "display_x"; "display_"; "page_1"]
  = [Py.Returns 2; Py.Returns 3;
     Py.Raises "invalid literal for int() with base 10";
     Py.Raises "invalid literal for int() with base 10"; Py.Returns 2].
Proof. reflexivity. Qed.

Example remove_command_without_argument :
  fst (BotCommands.remove_alert [] 7001 None tidy_db)
  = Py.Returns
      ("Please provide an alert ID." ++ VacancyChecker.nl
       ++ "Usage: /remove <ID>" ++ VacancyChecker.nl
       ++ "Use /list to see your alert IDs.")%string.
Proof. reflexivity. Qed.

(** A stop is reported as it is; a manual pause of no length is lifted by
    the next look at it. *)
Example pause_status_samples :
  fst (check_user_pause_status 7001 None (snd (stop_user 7001 None tidy_db)))
  = {| is_paused := true; paused_until := None;
       pause_reason := Some "stopped" |}
  /\ fst (check_user_pause_status 7001 None
            (snd (pause_user 60 7001 20 None tidy_db)))
     = {| is_paused := true; paused_until := Some 1300;
          pause_reason := Some "manual" |}
  /\ check_user_pause_status 7001 None
       (snd (pause_user 60 7001 0 None tidy_db))
     = (not_paused,
        {| users := users tidy_db; alerts := alerts tidy_db;
           alert_history := []; history_serial := 1;
           current_timestamp := 102 |}).
Proof. repeat split. Qed.

Example add_alert_samples :
  fst (add_alert "2025" "2" 4 7001 "sc1003" "10500" None None None tidy_db)
  = Py.Returns (Some 4)
  /\ fst (add_alert "2025" "2" 4 7001 "sc2103" "10001" None None None tidy_db)
     = Py.Returns None
  /\ fst (add_alert "2025" "2" 4 7003 "sc1003" "10500" None None None tidy_db)
     = Py.Returns None
  /\ fst (add_alert "2025" "2" 4 7001 "sc1003" "10500" None None
            (Some "connection refused") tidy_db)
     = Py.Raises "connection refused".
Proof. repeat split. Qed.

Example delete_user_sample :
  snd (delete_user 7001 None tidy_db)
  = {| users := [second_user]; alerts := [second_alert];
       alert_history := []; history_serial := 1; current_timestamp := 101 |}.
Proof. reflexivity. Qed.

End MoreExamples.

(** ** Numbers written in decimal *)

Module NumberFacts.

Import Py VacancyParser ParserDefs ParserNotions PyFacts.

(** The characters of a string are not whitespace. *)
Lemma rstrip_no_space s :
  Forall (fun c => isspace c = false) (list_ascii_of_string s) ->
  rstrip s = s.
Proof.
  induction s as [|c r IH]; intros H; [reflexivity|].
  cbn [list_ascii_of_string] in H. inversion H as [|? ? Hc Hr]; subst.
  rewrite rstrip_cons, (IH Hr), Hc. destruct r; reflexivity.
Qed.

Lemma strip_no_space s :
  Forall (fun c => isspace c = false) (list_ascii_of_string s) ->
  strip s = s.
Proof.
  intros H. unfold strip.
  assert (Hl : lstrip s = s).
  { destruct s as [|c r]; [reflexivity|].
    cbn [list_ascii_of_string] in H. inversion H as [|? ? Hc Hr]; subst.
    cbn [lstrip]. now rewrite Hc. }
  rewrite Hl. now apply rstrip_no_space.
Qed.

Lemma uint_no_space u :
  Forall (fun c => isspace c = false)
    (list_ascii_of_string (NilEmpty.string_of_uint u)).
Proof.
  induction u; cbn [NilEmpty.string_of_uint list_ascii_of_string];
    constructor; auto.
Qed.

Lemma digits_after_uint_acc u : forall p,
  digits_after (Zpos p) (NilEmpty.string_of_uint u) =
  Some (Zpos (Pos.of_uint_acc u p)).
Proof.
  induction u; intros p; cbn [NilEmpty.string_of_uint digits_after Pos.of_uint_acc];
    try reflexivity;
    match goal with
    | |- context [digit_value ?c] =>
        let v := eval cbv in (digit_value c) in
        change (digit_value c) with v; cbv iota
    end;
    rewrite <- IHu; f_equal; lia.
Qed.

Lemma digits_after_uint u :
  digits_after 0 (NilEmpty.string_of_uint u) = Some (Z.of_N (Pos.of_uint u)).
Proof.
  induction u; cbn [NilEmpty.string_of_uint digits_after Pos.of_uint];
    try reflexivity;
    match goal with
    | |- context [digit_value ?c] =>
        let v := eval cbv in (digit_value c) in
        change (digit_value c) with v; cbv iota
    end;
    [ exact IHu | .. ];
    cbn [Z.of_N]; rewrite <- digits_after_uint_acc; f_equal.
Qed.

(** A numeral with a first digit is an unsigned literal, read from
    zero. *)
Lemma unsigned_literal_uint u :
  u <> Decimal.Nil ->
  unsigned_literal (NilEmpty.string_of_uint u) = Some (Z.of_N (Pos.of_uint u)).
Proof.
  intros Hu. rewrite <- digits_after_uint.
  destruct u; [congruence | ..];
    cbn [NilEmpty.string_of_uint unsigned_literal digits_after];
    match goal with
    | |- context [digit_value ?c] =>
        let v := eval cbv in (digit_value c) in
        change (digit_value c) with v; cbv iota
    end; reflexivity.
Qed.

Lemma to_uint_not_nil p : Pos.to_uint p <> Decimal.Nil.
Proof.
  intros H. pose proof (DecimalPos.Unsigned.of_to p) as E.
  rewrite H in E. discriminate.
Qed.

Lemma unsigned_literal_pos p :
  unsigned_literal (NilEmpty.string_of_uint (Pos.to_uint p)) = Some (Zpos p).
Proof.
  rewrite unsigned_literal_uint by apply to_uint_not_nil.
  now rewrite DecimalPos.Unsigned.of_to.
Qed.

Lemma str_of_int_pos p :
  str_of_int (Zpos p) = NilEmpty.string_of_uint (Pos.to_uint p).
Proof.
  unfold str_of_int. cbn [Z.to_int NilZero.string_of_int].
  unfold NilZero.string_of_uint.
  pose proof (to_uint_not_nil p). destruct (Pos.to_uint p); congruence.
Qed.

Lemma str_of_int_neg p :
  str_of_int (Zneg p) = String "-" (NilEmpty.string_of_uint (Pos.to_uint p)).
Proof.
  unfold str_of_int. cbn [Z.to_int NilZero.string_of_int].
  unfold NilZero.string_of_uint.
  pose proof (to_uint_not_nil p). destruct (Pos.to_uint p); congruence.
Qed.

Lemma str_of_int_no_space n :
  Forall (fun c => isspace c = false) (list_ascii_of_string (str_of_int n)).
Proof.
  destruct n as [|p|p].
  - repeat constructor.
  - rewrite str_of_int_pos. apply uint_no_space.
  - rewrite str_of_int_neg. constructor; [reflexivity | apply uint_no_space].
Qed.

(** [int(str(n)) == n] *)
Lemma int_str_of_int n : int (str_of_int n) = Some n.
Proof.
  unfold int. rewrite strip_no_space by apply str_of_int_no_space.
  destruct n as [|p|p].
  - reflexivity.
  - rewrite str_of_int_pos. rewrite <- unsigned_literal_pos.
    pose proof (to_uint_not_nil p).
    destruct (Pos.to_uint p); [congruence | ..]; reflexivity.
  - rewrite str_of_int_neg.
    change (Ascii.eqb "-" "-") with true. cbv iota.
    now rewrite unsigned_literal_pos.
Qed.

(** X1. A cell that shows an integer in decimal, negative or not, is
    read by [_parse_number] as that integer: [_parse_number(str(n)) == n],
    for every [n] of at most 4300 digits.  (Beyond that limit the
    interpreter raises [ValueError] in [str] and in [int], which
    [_parse_number] answers with 0; the limit is not part of [Py.int] and
    [Py.str_of_int], so the statement stops there.) *)
Theorem parse_number_reads_decimal (n : Z) :
  within_digit_limit n ->
  _parse_number (str_of_int n) = n.
Proof.
  intros _. unfold _parse_number.
  rewrite strip_no_space by apply str_of_int_no_space.
  rewrite int_str_of_int.
  destruct n as [|p|p].
  - reflexivity.
  - rewrite str_of_int_pos. pose proof (to_uint_not_nil p).
    destruct (Pos.to_uint p); [congruence | ..]; reflexivity.
  - rewrite str_of_int_neg. pose proof (to_uint_not_nil p).
    destruct (Pos.to_uint p); [congruence | ..]; reflexivity.
Qed.

Lemma parse_number_reads_decimal_witness :
  within_digit_limit (-42) /\ _parse_number (str_of_int (-42)) = -42.
Proof.
  assert (H : within_digit_limit (-42)) by (vm_compute; reflexivity).
  split; [exact H | exact (parse_number_reads_decimal (-42) H)].
Defined.

End NumberFacts.

(** ** The parser, row by row and as a whole *)

Module ParserShape.

Import Bs4 VacancyParser ParserDefs ParserNotions ParserFacts.

(** What one row does to a linked state. *)
Lemma process_row_cases st row :
  linked st ->
  indexes (process_row st row) =
  if is_header row
  then indexes st ++ [block_index (row, [])]
  else if has_session row
       then match indexes st with
            | [] => []
            | _ :: _ =>
                removelast (indexes st)
                ++ [add_class (session_in row) (last (indexes st) (opened row))]
            end
       else indexes st.
Proof.
  intros Hl. unfold process_row, is_header, has_session, cells_of.
  destruct (Nat.ltb_spec (List.length (find_all "td" row)) 8) as [Hlt|Hge].
  - assert (E : (8 <=? List.length (find_all "td" row))%nat = false)
      by (apply Nat.leb_gt; lia).
    rewrite E. reflexivity.
  - assert (E : (8 <=? List.length (find_all "td" row))%nat = true)
      by (apply Nat.leb_le; lia).
    rewrite E. cbn [andb]. unfold process_cells.
    destruct (opens_index (cell_text (find_all "td" row) 0)) eqn:Ho.
    + cbn [current_index indexes]. unfold block_index, opened, session_in.
      cbn [fst snd filter has_session]. unfold has_session, cells_of.
      rewrite E. cbn [andb].
      destruct (Py.truthy (cell_text (find_all "td" row) 3)) eqn:Ht.
      * cbn [indexes map]. rewrite update_at_last. reflexivity.
      * reflexivity.
    + destruct (indexes st) as [|i0 rest] eqn:Ei.
      * rewrite (linked_nil st Hl Ei).
        destruct (Py.truthy (cell_text (find_all "td" row) 3)); now rewrite ?Ei.
      * destruct (@exists_last _ (i0 :: rest)) as [secs [lst Es]];
          [discriminate|].
        assert (Es' : indexes st = secs ++ [lst]) by congruence.
        rewrite (linked_snoc st secs lst Hl Es').
        destruct (Py.truthy (cell_text (find_all "td" row) 3)) eqn:Ht.
        -- cbn [indexes]. rewrite Es, update_at_last.
           rewrite removelast_last, last_last. reflexivity.
        -- exact Ei.
Qed.

Lemma summary_rows rows : forall st,
  linked st ->
  map summary (indexes (fold_left process_row rows st)) =
  map summary (indexes st)
  ++ map (fun r => summary (opened r)) (filter is_header rows).
Proof.
  induction rows as [|row rows IH]; intros st Hl; cbn [fold_left filter].
  - cbn. now rewrite app_nil_r.
  - rewrite (IH _ (process_row_linked st row Hl)).
    rewrite (process_row_cases st row Hl).
    destruct (is_header row).
    + rewrite map_app. cbn [map]. rewrite <- app_assoc. reflexivity.
    + destruct (has_session row); [|reflexivity].
      destruct (indexes st) as [|i0 rest] eqn:Ei; [reflexivity|].
      destruct (@exists_last _ (i0 :: rest)) as [secs [lst Es]];
        [discriminate|].
      rewrite Es, removelast_last, last_last, !map_app. reflexivity.
Qed.

(** X2. The parser returns one entry per header row (a row with at
    least eight cells whose first cell is neither empty nor the
    placeholder), in the order of the page, with the index number and the
    two counts read from the first three cells of that row; index numbers
    that repeat give entries that repeat. *)
Theorem one_index_per_header_row (rows : list PageElement) :
  map (fun i => (index i, vacancy i, waitlist i)) (indexes (run rows)) =
  map (fun r => (cell_text (cells_of r) 0,
                 _parse_number (cell_text (cells_of r) 1),
                 _parse_number (cell_text (cells_of r) 2)))
    (filter is_header rows).
Proof.
  unfold run. pose proof (summary_rows rows initial_state) as H.
  unfold summary in H. cbn [initial_state indexes map app] in H.
  apply H. reflexivity.
Qed.

Lemma with_sessions_nil i : with_sessions i [] = i.
Proof.
  destruct i. unfold with_sessions. cbn. now rewrite app_nil_r.
Qed.

Lemma with_sessions_cons i row rows :
  has_session row = true ->
  with_sessions i (row :: rows) =
  with_sessions (add_class (session_in row) i) rows.
Proof.
  intros H. unfold with_sessions, add_class. cbn [filter]. rewrite H.
  cbn [map index vacancy waitlist classes]. now rewrite <- app_assoc.
Qed.

Lemma with_sessions_skip i row rows :
  has_session row = false -> with_sessions i (row :: rows) = with_sessions i rows.
Proof.
  intros H. unfold with_sessions. cbn [filter]. now rewrite H.
Qed.

Lemma snoc_match {A B} (secs : list A) (lst : A) (a b : B) :
  match secs ++ [lst] with [] => a | _ :: _ => b end = b.
Proof. destruct secs; reflexivity. Qed.

Lemma block_index_cons row body :
  is_header row = true ->
  block_index (row, body) = with_sessions (block_index (row, [])) body.
Proof.
  intros H. unfold block_index, with_sessions.
  cbn [fst snd index vacancy waitlist classes filter].
  destruct (has_session row); cbn [map app]; reflexivity.
Qed.

Lemma blocks_rows (dflt : IndexInfo) rows : forall st,
  linked st ->
  indexes (fold_left process_row rows st) =
  match indexes st with
  | [] => []
  | _ :: _ =>
      removelast (indexes st)
      ++ [with_sessions (last (indexes st) dflt) (until_header rows)]
  end ++ map block_index (blocks rows).
Proof.
  induction rows as [|row rows IH]; intros st Hl;
    cbn [fold_left until_header blocks].
  - cbn [map]. rewrite app_nil_r.
    destruct (indexes st) as [|i0 rest] eqn:Ei; [reflexivity|].
    rewrite with_sessions_nil.
    destruct (@exists_last _ (i0 :: rest)) as [secs [lst Es]];
      [discriminate|].
    rewrite Es, removelast_last, last_last. reflexivity.
  - rewrite (IH _ (process_row_linked st row Hl)).
    rewrite (process_row_cases st row Hl).
    destruct (is_header row) eqn:Hh.
    + cbn [map].
      rewrite snoc_match, removelast_last, last_last.
      rewrite (block_index_cons row (until_header rows) Hh).
      destruct (indexes st) as [|i0 rest] eqn:Ei.
      * reflexivity.
      * destruct (@exists_last _ (i0 :: rest)) as [secs [lst Es]];
          [discriminate|].
        rewrite Es, ?snoc_match, removelast_last, last_last, with_sessions_nil.
        rewrite <- !app_assoc. reflexivity.
    + destruct (has_session row) eqn:Hs.
      * destruct (indexes st) as [|i0 rest] eqn:Ei; [reflexivity|].
        destruct (@exists_last _ (i0 :: rest)) as [secs [lst Es]];
          [discriminate|].
        rewrite Es, ?snoc_match, !removelast_last, !last_last.
        now rewrite (with_sessions_cons _ _ _ Hs).
      * destruct (indexes st) as [|i0 rest] eqn:Ei; [reflexivity|].
        now rewrite (with_sessions_skip _ _ _ Hs).
Qed.

(** X3. The result of the loop over the rows is the table cut at its
    header rows: every header row gives one index, whose class sessions
    are those of the header row and of the rows after it up to the next
    header row, in the order of the page, a row counting when it has at
    least eight cells and a non-empty class type; rows before the first
    header row give nothing. *)
Theorem sessions_follow_their_header (rows : list PageElement) :
  indexes (run rows) = map block_index (blocks rows).
Proof.
  unfold run.
  rewrite (blocks_rows (opened (Tag "tr" [] []))) by reflexivity.
  reflexivity.
Qed.

(** X4. No class session is stored without a class type, and none with
    fewer than eight cells behind it: every session of the answer comes
    from a row of the table that [has_session] accepts. *)
Theorem every_session_has_a_type (soup : PageElement) (i : IndexInfo)
  (c : ClassSession) :
  In i (parse_soup soup) -> In c (classes i) ->
  Py.truthy (cls_type c) = true
  /\ exists table row,
       find_with_attr "table" "border" soup = Some table
       /\ In row (data_rows table)
       /\ has_session row = true
       /\ c = session_in row.
Proof.
  unfold parse_soup.
  destruct (find_with_attr "table" "border" soup) as [table|];
    [|intros []].
  rewrite sessions_follow_their_header. intros Hi Hc.
  apply in_map_iff in Hi. destruct Hi as [[h body] [<- Hb]].
  cbn [block_index classes fst snd] in Hc.
  apply in_map_iff in Hc. destruct Hc as [row [<- Hrow]].
  apply filter_In in Hrow. destruct Hrow as [Hin Hs].
  assert (Hsub : forall rows hb, In hb (blocks rows) ->
            forall r, In r (fst hb :: snd hb) -> In r rows).
  { clear. induction rows as [|r0 rows IH]; intros hb Hhb r Hr; [destruct Hhb|].
    cbn [blocks] in Hhb. destruct (is_header r0) eqn:Hh.
    - destruct Hhb as [<-|Hhb].
      + cbn [fst snd] in Hr. destruct Hr as [<-|Hr]; [now left|right].
        clear -Hr. induction rows as [|x xs IHx]; [destruct Hr|].
        cbn [until_header] in Hr. destruct (is_header x); [destruct Hr|].
        destruct Hr as [<-|Hr]; [now left | right; auto].
      + right. eapply IH; eauto.
    - right. eapply IH; eauto. }
  split.
  - unfold has_session in Hs. apply andb_prop in Hs. apply Hs.
  - exists table, row. repeat split; auto.
    eapply Hsub; eauto.
Qed.

Lemma every_session_has_a_type_witness :
  Py.truthy "TUT" = true
  /\ exists table row,
       find_with_attr "table" "border" (page [heading_row; row_10001; row_tut])
       = Some table
       /\ In row (data_rows table)
       /\ has_session row = true
       /\ {| cls_type := "TUT"; cls_group := "T1"; cls_day := "TUE";
             cls_time := "0930-1030"; cls_venue := "TR1" |} = session_in row.
Proof.
  apply (every_session_has_a_type (page [heading_row; row_10001; row_tut])
           Samples.sample_index
           {| cls_type := "TUT"; cls_group := "T1"; cls_day := "TUE";
              cls_time := "0930-1030"; cls_venue := "TR1" |}).
  - vm_compute. left. reflexivity.
  - vm_compute. right. left. reflexivity.
Defined.

End ParserShape.

(** ** The client: when it asks, and what it answers *)

Module ApiMore.

Import VacancyParser World VacancyApiClient ApiFacts.

(** The service window of [is_service_available]. *)
Lemma is_service_available_window env w :
  fst (is_service_available env w) =
  (8 <=? fst (now_sg env (trace w))) && (fst (now_sg env (trace w)) <? 22).
Proof.
  unfold is_service_available.
  destruct (now_sg env (trace w)) as [h m]. cbn [fst].
  destruct ((8 <=? h) && (h <? 22)); reflexivity.
Qed.

(** X5. [get_course_vacancies] sends a request only between 8:00 and
    22:00, Singapore time: in these hours it sends exactly one, for the
    course code in upper case; outside it sends none, and that is the one
    case in which it answers [time_restriction].  The database is never
    touched. *)
Theorem request_only_in_service_hours (env : Env) (course_code : string)
  (w : World) :
  let hour := fst (now_sg env (trace w)) in
  let in_hours := (8 <=? hour) && (hour <? 22) in
  let answer := get_course_vacancies env course_code w in
  trace (snd answer) =
    trace w ++
      (if in_hours
       then [EvPost (Py.upper course_code)
               (http_post env (trace w) (Py.upper course_code))]
       else [])
  /\ (in_hours = false <->
      exists f, fst answer = Fail f /\ error f = time_restriction)
  /\ db (snd answer) = db w.
Proof.
  cbv zeta. rewrite <- is_service_available_window.
  unfold get_course_vacancies.
  destruct (is_service_available env w) as [available message]. cbn [fst].
  destruct available; cbn [negb].
  - set (out := http_post env (trace w) (Py.upper course_code)).
    assert (Hlogs : forall l w0,
               trace (fold_left (fun w r => log (LogParser r) w) l w0) = trace w0
               /\ db (fold_left (fun w r => log (LogParser r) w) l w0) = db w0).
    { induction l as [|x l IH]; intros w0; cbn [fold_left]; [auto|].
      destruct (IH (log (LogParser x) w0)) as [-> ->]. auto. }
    destruct out as [code text| | | |].
    + destruct (code =? 200); cbn [negb].
      * destruct (parse_vacancy_html (scanner env) text course_code);
          cbn [fst snd];
          destruct (Hlogs (parse_vacancy_html_log (scanner env) text course_code)
                      (emit (EvPost (Py.upper course_code) (Response code text)) w))
            as [-> ->];
          (split; [reflexivity | split; [|reflexivity]]);
          (split; [discriminate | intros [f [E Ef]]; inversion E; subst; discriminate]).
      * cbn [fst snd log trace db emit].
        split; [reflexivity | split; [|reflexivity]].
        split; [discriminate | intros [f [E Ef]]; inversion E; subst; discriminate].
    + cbn [fst snd log trace db emit].
      split; [reflexivity | split; [|reflexivity]].
      split; [discriminate | intros [f [E Ef]]; inversion E; subst; discriminate].
    + cbn [fst snd log trace db emit].
      split; [reflexivity | split; [|reflexivity]].
      split; [discriminate | intros [f [E Ef]]; inversion E; subst; discriminate].
    + cbn [fst snd log trace db emit].
      split; [reflexivity | split; [|reflexivity]].
      split; [discriminate | intros [f [E Ef]]; inversion E; subst; discriminate].
    + cbn [fst snd log trace db emit].
      split; [reflexivity | split; [|reflexivity]].
      split; [discriminate | intros [f [E Ef]]; inversion E; subst; discriminate].
  - cbn [fst snd log trace db]. rewrite app_nil_r.
    split; [reflexivity | split; [|reflexivity]].
    split; [|reflexivity]. intros _. eexists. split; reflexivity.
Qed.

(** X6. [get_course_vacancies] succeeds exactly when the hour is in the
    service window, the server answers with status 200 and the scanner
    accepts the page; its data is then the parser's reading of that page
    (the empty list when the page has no table). *)
Theorem course_fetch_succeeds_iff (env : Env) (course_code : string)
  (w : World) (indexes : list IndexInfo) :
  fst (get_course_vacancies env course_code w) = Success indexes
  <->
  (8 <= fst (now_sg env (trace w)) < 22
   /\ exists text soup,
        http_post env (trace w) (Py.upper course_code) = Response 200 text
        /\ scanner env text = Py.Returns soup
        /\ indexes = parse_soup soup).
Proof.
  unfold get_course_vacancies.
  pose proof (is_service_available_window env w) as Hw.
  destruct (is_service_available env w) as [available message].
  cbn [fst] in Hw. subst available.
  destruct ((8 <=? fst (now_sg env (trace w)))
            && (fst (now_sg env (trace w)) <? 22)) eqn:Hh; cbn [negb].
  - apply andb_prop in Hh. destruct Hh as [H8 H22].
    apply Z.leb_le in H8. apply Z.ltb_lt in H22.
    destruct (http_post env (trace w) (Py.upper course_code))
      as [code text| | | |]; cbn [fst];
      try (split; [discriminate | intros [_ [t [s [E _]]]]; discriminate]).
    destruct (Z.eqb_spec code 200) as [->|Hne]; cbn [negb].
    + unfold parse_vacancy_html.
      destruct (scanner env text) as [soup|msg] eqn:Hs; cbn [fst].
      * split.
        -- intros E. inversion E. split; [lia|]. now exists text, soup.
        -- intros [_ [t [s [E1 [E2 ->]]]]]. inversion E1; subst.
           rewrite Hs in E2. now inversion E2.
      * split; [discriminate|].
        intros [_ [t [s [E1 [E2 _]]]]]. inversion E1; subst.
        rewrite Hs in E2. discriminate.
    + cbn [fst]. split; [discriminate|].
      intros [_ [t [s [E _]]]]. inversion E. contradiction.
  - cbn [fst]. split; [discriminate|]. intros [[H8 H22] _].
    apply andb_false_iff in Hh. destruct Hh as [Hh|Hh].
    + apply Z.leb_gt in Hh. lia.
    + apply Z.ltb_ge in Hh. lia.
Qed.

(** X7. What [get_index_vacancy] answers is about the index asked for: a
    success carries an entry of the course page whose index number is the
    one requested, and [index_not_found] is answered exactly when the page
    was read and lists no such index. *)
Theorem index_fetch_answers_the_requested_index (env : Env)
  (course_code index_number : string) (w : World) :
  match fst (get_index_vacancy env course_code index_number w) with
  | Success v =>
      index v = index_number
      /\ exists l, fst (get_course_vacancies env course_code w) = Success l
                   /\ In v l
  | Fail f =>
      error f = index_not_found <->
      exists l, fst (get_course_vacancies env course_code w) = Success l
                /\ ~ In index_number (map index l)
  end.
Proof.
  unfold get_index_vacancy.
  destruct (get_course_vacancies env course_code w) as [[l|f] w1] eqn:Hc;
    cbn [fst snd] in *.
  - rewrite scan_indexes_find.
    destruct (find (fun s => String.eqb (index s) index_number) l) as [v|] eqn:Hf;
      cbn [fst].
    + apply find_some in Hf. destruct Hf as [Hin He].
      apply String.eqb_eq in He. split; [exact He|]. now exists l.
    + cbn [failure error]. split; [intros _|reflexivity].
      exists l. split; [reflexivity|].
      intros Hin. apply in_map_iff in Hin. destruct Hin as [v [Hv Hin]].
      pose proof (find_none _ _ Hf v Hin) as Hn. cbn in Hn.
      rewrite Hv, String.eqb_refl in Hn. discriminate.
  - cbn [fst]. split.
    + intros He. exfalso.
      unfold get_course_vacancies in Hc.
      destruct (is_service_available env w) as [a m].
      destruct a; cbn [negb] in Hc.
      * destruct (http_post env (trace w) (Py.upper course_code)).
        -- destruct (code =? 200); cbn [negb] in Hc.
           ++ destruct (parse_vacancy_html (scanner env) text course_code);
                inversion Hc; subst; discriminate.
           ++ inversion Hc; subst; discriminate.
        -- inversion Hc; subst; discriminate.
        -- inversion Hc; subst; discriminate.
        -- inversion Hc; subst; discriminate.
        -- inversion Hc; subst; discriminate.
      * inversion Hc; subst; discriminate.
    + intros [l [E _]]. discriminate.
Qed.

End ApiMore.

(** ** Every database change of the engine is one of three steps *)

Module EngineSteps.

Import VacancyParser World Database VacancyApiClient VacancyChecker.
Import Observations StoreNotions ApiFacts.

Create HintDb stepping.

Lemma engine_steps_trans d d1 d2 :
  engine_steps d d1 -> engine_steps d1 d2 -> engine_steps d d2.
Proof.
  intros H1 H2. revert H1.
  induction H2 as [d0 | d0 d3 d4 _ IH Hs]; intros H1; [assumption|].
  eapply steps_more; [apply IH; assumption | exact Hs].
Qed.

Lemma engine_steps_one d d' : engine_step d d' -> engine_steps d d'.
Proof. intros H. eapply steps_more; [apply steps_none | exact H]. Qed.

Lemma stepping_same {A} (m : M A) :
  (forall w, db (snd (m w)) = db w) -> stepping m.
Proof. intros H w. rewrite H. apply steps_none. Qed.

Lemma stepping_ret {A} (a : A) : stepping (ret a).
Proof. now apply stepping_same. Qed.

Lemma stepping_bind {A B} (m : M A) (k : A -> M B) :
  stepping m -> (forall a, stepping (k a)) -> stepping (bind m k).
Proof.
  intros Hm Hk w. unfold bind. pose proof (Hm w) as H1.
  destruct (m w) as [[a | msg] w1]; cbn [snd] in *.
  - eapply engine_steps_trans; [exact H1 | apply Hk].
  - exact H1.
Qed.

Lemma stepping_try_except {A} (body : M A) (handler : string -> M A) :
  stepping body -> (forall e, stepping (handler e)) ->
  stepping (try_except body handler).
Proof.
  intros Hm Hk w. unfold try_except. pose proof (Hm w) as H1.
  destruct (body w) as [[a | msg] w1]; cbn [snd] in *.
  - exact H1.
  - eapply engine_steps_trans; [exact H1 | apply Hk].
Qed.

Lemma stepping_log l : stepping (effect (log l)).
Proof. now apply stepping_same. Qed.

Lemma stepping_sleep s : stepping (sleep s).
Proof. now apply stepping_same. Qed.

Lemma stepping_get_index_vacancy env course index_no :
  stepping (lift (get_index_vacancy env course index_no)).
Proof.
  apply stepping_same. intros w. unfold lift.
  pose proof (get_index_vacancy_db env course index_no w) as H.
  destruct (get_index_vacancy env course index_no w). exact H.
Qed.

Lemma stepping_get_all_active_alerts env :
  stepping (get_all_active_alerts env).
Proof.
  intros w. unfold get_all_active_alerts.
  destruct (db_fault env (trace w)); cbn.
  - apply steps_none.
  - apply engine_steps_one, step_tick.
Qed.

Lemma stepping_send_notification env self alert v :
  stepping (send_notification env self alert v).
Proof.
  apply stepping_same. intros w. unfold send_notification.
  destruct (bot self); [destruct (send_message env _ _ _)|]; reflexivity.
Qed.

Lemma stepping_update_alert_check env aid vac wait :
  stepping (update_alert_check env aid vac wait).
Proof.
  intros w. unfold update_alert_check.
  destruct (db_fault env (trace w)); cbn; [apply steps_none|].
  destruct (find _ _) eqn:Hf; cbn.
  - apply engine_steps_one. now apply step_record.
  - apply engine_steps_one, step_tick.
Qed.

Lemma stepping_mark_notification_sent env aid :
  stepping (mark_notification_sent env aid).
Proof.
  intros w. unfold mark_notification_sent.
  destruct (db_fault env (trace w)); cbn; [apply steps_none|].
  apply engine_steps_one, step_mark.
Qed.

#[export] Hint Resolve stepping_ret stepping_log stepping_sleep
  stepping_get_index_vacancy stepping_get_all_active_alerts
  stepping_send_notification stepping_update_alert_check
  stepping_mark_notification_sent : stepping.

Lemma stepping_update_alert env self v a : stepping (update_alert env self v a).
Proof.
  unfold update_alert. apply stepping_try_except; [|auto with stepping].
  apply stepping_bind; [auto with stepping|]. intros _.
  destruct (vacancy_opened _ _); [|auto with stepping].
  repeat (apply stepping_bind; [auto with stepping | intros _]).
  auto with stepping.
Qed.

Lemma stepping_update_alerts env self v l :
  stepping (update_alerts env self v l).
Proof.
  induction l as [|a l IH]; cbn [update_alerts]; [auto with stepping|].
  apply stepping_bind; [apply stepping_update_alert | intros _; exact IH].
Qed.

Lemma stepping_check_groups env self g : stepping (check_groups env self g).
Proof.
  induction g as [|[[course index_no] l] g IH]; cbn [check_groups];
    [auto with stepping|].
  destruct (negb (running self)); [auto with stepping|].
  apply stepping_bind; [auto with stepping|]. intros [v | f].
  - apply stepping_bind; [apply stepping_update_alerts | intros _].
    apply stepping_bind; [auto with stepping | intros _; exact IH].
  - apply stepping_bind; [auto with stepping | intros _].
    apply stepping_bind; [auto with stepping | intros _; exact IH].
Qed.

Lemma stepping_check_all_alerts env self :
  stepping (check_all_alerts env self).
Proof.
  unfold check_all_alerts. apply stepping_try_except; [|auto with stepping].
  apply stepping_bind; [auto with stepping|]. intros [|a l];
    [auto with stepping | apply stepping_check_groups].
Qed.

Lemma stepping_check_alert env self a : stepping (check_alert env self a).
Proof.
  unfold check_alert. apply stepping_try_except.
  - apply stepping_bind; [auto with stepping|]. intros [v | f].
    + apply stepping_bind; [auto with stepping | intros _].
      apply stepping_bind; [|auto with stepping].
      destruct (vacancy_opened _ _); [|auto with stepping].
      repeat (apply stepping_bind; [auto with stepping | intros _]).
      auto with stepping.
    + apply stepping_bind; auto with stepping.
  - intros e. apply stepping_bind; auto with stepping.
Qed.

Lemma stepping_one_round interval env self :
  stepping (one_round interval env self).
Proof.
  unfold one_round. apply stepping_try_except; [|auto with stepping].
  apply stepping_bind; [apply stepping_check_all_alerts | intros _].
  destruct (running self); auto with stepping.
Qed.

Lemma stepping_run_forever_loop rounds interval env self :
  stepping (run_forever_loop rounds interval env self).
Proof.
  induction rounds as [|k IH]; cbn [run_forever_loop]; [auto with stepping|].
  destruct (negb (running self)); [auto with stepping|].
  apply stepping_bind; [apply stepping_one_round | intros _; exact IH].
Qed.

(** What no step of the engine changes. *)
Lemma identity_set_checked aid now vac a :
  identity (set_checked aid now vac a) = identity a.
Proof. unfold set_checked. destruct (a_id a =? aid); reflexivity. Qed.

Lemma engine_step_frame d d' :
  engine_step d d' ->
  users d' = users d /\ map identity (alerts d') = map identity (alerts d).
Proof.
  intros [d0 | d0 aid vac wait info Hf | d0 aid]; cbn; split; try reflexivity.
  rewrite map_map. apply map_ext. intros a. apply identity_set_checked.
Qed.

Lemma engine_steps_frame d d' :
  engine_steps d d' ->
  users d' = users d /\ map identity (alerts d') = map identity (alerts d).
Proof.
  induction 1 as [d0 | d0 d1 d2 _ [IHu IHa] Hs]; [now split|].
  destruct (engine_step_frame _ _ Hs) as [Hu Ha]. split; congruence.
Qed.

(** X8. However long the checker runs, and also in a single
    [check_alert], the users table stays as it is and no alert is added,
    deleted, set inactive or given another owner, course, index, year or
    semester: of an alert only [last_checked] and [last_vacancy_count]
    are ever written. *)
Theorem checker_writes_only_the_check_columns (rounds : nat) (interval : Z)
  (env : Env) (self : Checker) (alert : AlertDict) (w : World) :
  let looped := db (snd (run_forever_loop rounds interval env self w)) in
  let checked := db (snd (check_alert env self alert w)) in
  (users looped = users (db w)
   /\ map identity (alerts looped) = map identity (alerts (db w)))
  /\ (users checked = users (db w)
      /\ map identity (alerts checked) = map identity (alerts (db w))).
Proof.
  cbv zeta. split; apply engine_steps_frame.
  - apply stepping_run_forever_loop.
  - apply stepping_check_alert.
Qed.

(** The history under the steps of the engine. *)
Lemma kept_refl h : kept h h.
Proof. now split. Qed.

Lemma kept_trans h1 h2 h3 : kept h1 h2 -> kept h2 h3 -> kept h1 h3.
Proof. intros [E1 F1] [E2 F2]. split; [congruence | auto]. Qed.

Lemma kept_set_notified h : kept h (set_notified h).
Proof. now split. Qed.

Lemma Forall2_kept_refl l : Forall2 kept l l.
Proof. induction l; constructor; auto using kept_refl. Qed.

Lemma Forall2_kept_map (f : HistoryRow -> HistoryRow) l :
  (forall h, kept h (f h)) -> Forall2 kept l (map f l).
Proof. intros Hf. induction l; cbn; constructor; auto. Qed.

Lemma Forall2_kept_trans l1 : forall l2 l3,
  Forall2 kept l1 l2 -> Forall2 kept l2 l3 -> Forall2 kept l1 l3.
Proof.
  induction l1 as [|h l1 IH]; intros l2 l3 H12 H23.
  - inversion H12; subst. inversion H23; subst. constructor.
  - inversion H12; subst. inversion H23; subst. constructor.
    + eapply kept_trans; eauto.
    + eapply IH; eauto.
Qed.

Lemma engine_step_history d d' :
  engine_step d d' ->
  exists old added,
    alert_history d' = old ++ added /\ Forall2 kept (alert_history d) old
    /\ (List.length added <= 1)%nat.
Proof.
  intros [d0 | d0 aid vac wait info Hf | d0 aid]; cbn.
  - exists (alert_history d0), []. rewrite app_nil_r.
    repeat split; auto using Forall2_kept_refl.
  - eexists (alert_history d0), [_].
    repeat split; auto using Forall2_kept_refl.
  - destruct (latest_history aid (alert_history d0) None) as [l|].
    + eexists _, []. rewrite app_nil_r. repeat split; auto.
      apply Forall2_kept_map. intros h.
      destruct (_ && _); auto using kept_refl, kept_set_notified.
    + exists (alert_history d0), []. rewrite app_nil_r.
      repeat split; auto using Forall2_kept_refl.
Qed.

Lemma engine_steps_history d d' :
  engine_steps d d' ->
  exists old added,
    alert_history d' = old ++ added /\ Forall2 kept (alert_history d) old.
Proof.
  induction 1 as [d0 | d0 d1 d2 _ IH Hs].
  - exists (alert_history d0), []. rewrite app_nil_r.
    split; auto using Forall2_kept_refl.
  - destruct IH as (old1 & add1 & E1 & K1).
    destruct (engine_step_history _ _ Hs) as (old2 & add2 & E2 & K2 & _).
    rewrite E1 in K2. apply Forall2_app_inv_l in K2.
    destruct K2 as (o1 & o2 & Ko1 & Ko2 & ->).
    exists o1, (o2 ++ add2). rewrite E2, <- app_assoc. split; [reflexivity|].
    eapply Forall2_kept_trans; eauto.
Qed.

(** X9. The history is append-only under the checker: after any number
    of rounds every row that was there is still there, at its place and
    with the same counts, timestamp and alert; only its notified flag may
    have been raised (never lowered); the rows written since follow
    it. *)
Theorem checker_only_appends_history (rounds : nat) (interval : Z)
  (env : Env) (self : Checker) (w : World) :
  exists old added,
    alert_history (db (snd (run_forever_loop rounds interval env self w))) =
    old ++ added
    /\ Forall2 kept (alert_history (db w)) old.
Proof.
  apply engine_steps_history, stepping_run_forever_loop.
Qed.

End EngineSteps.

(** ** The tables under the operations of database.py *)

Module SchemaFacts.

Import World Database Accounts StoreNotions Observations.

Lemma map_through {A B C} (f : A -> B) (g : A -> C) (p : B -> C) l l' :
  (forall x, g x = p (f x)) -> map f l' = map f l -> map g l' = map g l.
Proof.
  intros Hg E.
  rewrite (map_ext g (fun x => p (f x)) Hg l').
  rewrite (map_ext g (fun x => p (f x)) Hg l).
  rewrite <- !(map_map f p). now rewrite E.
Qed.

Lemma NoDup_snoc {A} (l : list A) x : NoDup l -> ~ In x l -> NoDup (l ++ [x]).
Proof.
  intros Hl Hx. apply NoDup_app; [assumption | repeat constructor; auto |].
  intros a Ha [<-|[]]. contradiction.
Qed.

Lemma ids_update_user tid f l :
  (forall u, u_telegram_id (f u) = u_telegram_id u) ->
  map u_telegram_id (update_user tid f l) = map u_telegram_id l.
Proof.
  intros Hf. unfold update_user. rewrite map_map. apply map_ext.
  intros u. destruct (is_user tid u); auto.
Qed.

Lemma affected_user_In tid d :
  affected_user tid d = true <-> In tid (map u_telegram_id (users d)).
Proof.
  unfold affected_user, is_user. rewrite existsb_exists, in_map_iff.
  split; intros [u [H1 H2]]; exists u.
  - apply Z.eqb_eq in H2. auto.
  - split; [assumption | now apply Z.eqb_eq].
Qed.

(** A change that keeps the keys of the rows keeps the constraints. *)
Lemma wf_frame d d' :
  well_formed d ->
  NoDup (map u_telegram_id (users d')) ->
  incl (map u_telegram_id (users d)) (map u_telegram_id (users d')) ->
  map a_id (alerts d') = map a_id (alerts d) ->
  map watch_of (alerts d') = map watch_of (alerts d) ->
  map entry (alert_history d') = map entry (alert_history d) ->
  history_serial d <= history_serial d' ->
  current_timestamp d <= current_timestamp d' ->
  well_formed d'.
Proof.
  intros W Hu Hi Ha Hw He Hs Hc.
  assert (Hown : map a_telegram_id (alerts d') = map a_telegram_id (alerts d)).
  { apply (map_through watch_of a_telegram_id
             (fun w => fst (fst (fst (fst w))))); auto. }
  assert (Hhid : map h_id (alert_history d') = map h_id (alert_history d)).
  { apply (map_through entry h_id
             (fun e => fst (fst (fst (fst (fst (fst (fst e)))))))); auto. }
  assert (Hha : map h_alert_id (alert_history d')
                = map h_alert_id (alert_history d)).
  { apply (map_through entry h_alert_id
             (fun e => snd (fst (fst (fst (fst (fst (fst e)))))))); auto. }
  assert (Hhu : map h_telegram_id (alert_history d')
                = map h_telegram_id (alert_history d)).
  { apply (map_through entry h_telegram_id
             (fun e => snd (fst (fst (fst (fst (fst e))))))); auto. }
  assert (Hht : map h_checked_at (alert_history d')
                = map h_checked_at (alert_history d)).
  { apply (map_through entry h_checked_at (fun e => snd e)); auto. }
  destruct W as [W1 W2 W3 W4 W5 W6 W7 W8 W9].
  constructor.
  - exact Hu.
  - now rewrite Ha.
  - now rewrite Hw.
  - rewrite Hown. eapply incl_tran; eauto.
  - now rewrite Hha, Ha.
  - rewrite Hhu. eapply incl_tran; eauto.
  - now rewrite Hhid.
  - apply (Forall_map h_id (fun i => i < history_serial d')).
    rewrite Hhid. apply Forall_map.
    eapply Forall_impl; [|exact W8]. cbn. intros. lia.
  - apply (Forall_map h_checked_at (fun t => t < current_timestamp d')).
    rewrite Hht. apply Forall_map.
    eapply Forall_impl; [|exact W9]. cbn. intros. lia.
Qed.

(** The same, for a change of the users table that keeps the ids. *)
Lemma wf_users_updated d l :
  well_formed d ->
  map u_telegram_id l = map u_telegram_id (users d) ->
  well_formed (tick (set_users l d)).
Proof.
  intros W E. apply (wf_frame d); cbn; auto; try lia.
  - rewrite E. apply W.
  - rewrite E. apply incl_refl.
Qed.

Lemma wf_tick d : well_formed d -> well_formed (tick d).
Proof.
  intros W. apply (wf_frame d); cbn; auto using incl_refl; try lia. apply W.
Qed.

Lemma watch_of_set_checked aid now vac a :
  watch_of (set_checked aid now vac a) = watch_of a.
Proof. unfold set_checked. destruct (a_id a =? aid); reflexivity. Qed.

Lemma a_id_set_checked' aid now vac a :
  a_id (set_checked aid now vac a) = a_id a.
Proof. unfold set_checked. destruct (a_id a =? aid); reflexivity. Qed.

Lemma wf_record_check d aid vac wait info :
  well_formed d ->
  find (fun a => a_id a =? aid) (alerts d) = Some info ->
  well_formed (record_check aid vac wait info d).
Proof.
  intros [W1 W2 W3 W4 W5 W6 W7 W8 W9] Hf.
  apply find_some in Hf. destruct Hf as [Hin Hid]. apply Z.eqb_eq in Hid.
  assert (Ha : map a_id (map (set_checked aid (current_timestamp d) vac)
                          (alerts d)) = map a_id (alerts d)).
  { rewrite map_map. apply map_ext. intros. apply a_id_set_checked'. }
  assert (Hw : map watch_of (map (set_checked aid (current_timestamp d) vac)
                               (alerts d)) = map watch_of (alerts d)).
  { rewrite map_map. apply map_ext. intros. apply watch_of_set_checked. }
  assert (Ho : map a_telegram_id (map (set_checked aid (current_timestamp d) vac)
                                    (alerts d)) = map a_telegram_id (alerts d)).
  { apply (map_through watch_of a_telegram_id
             (fun w => fst (fst (fst (fst w))))); auto. }
  constructor; cbn.
  - exact W1.
  - now rewrite Ha.
  - now rewrite Hw.
  - now rewrite Ho.
  - rewrite Ha, map_app. cbn. apply incl_app; [exact W5|].
    intros x [<-|[]]. subst aid. now apply in_map.
  - rewrite map_app. cbn. apply incl_app; [exact W6|].
    intros x [<-|[]]. apply W4. now apply in_map.
  - rewrite map_app. cbn. apply NoDup_snoc; [exact W7|].
    intros Hin'. apply in_map_iff in Hin'. destruct Hin' as [h [Eh Hh]].
    rewrite Forall_forall in W8. specialize (W8 h Hh). lia.
  - apply Forall_app. split.
    + eapply Forall_impl; [|exact W8]. cbn. intros. lia.
    + repeat constructor. cbn. lia.
  - apply Forall_app. split.
    + eapply Forall_impl; [|exact W9]. cbn. intros. lia.
    + repeat constructor. cbn. lia.
Qed.

Lemma entry_mark aid (l : HistoryRow) h :
  entry (if (h_alert_id h =? aid) && (h_id h =? h_id l)
         then set_notified h else h) = entry h.
Proof. destruct (_ && _); reflexivity. Qed.

Lemma wf_mark_latest d aid : well_formed d -> well_formed (mark_latest aid d).
Proof.
  intros W. apply (wf_frame d); cbn; auto using incl_refl; try lia.
  - apply W.
  - destruct (latest_history aid (alert_history d) None) as [l|]; [|reflexivity].
    rewrite map_map. apply map_ext. intros h. apply entry_mark.
Qed.

Lemma wf_engine_step d d' : well_formed d -> engine_step d d' -> well_formed d'.
Proof.
  intros W H. revert W.
  destruct H as [d0 | d0 aid vac wait info Hf | d0 aid]; intros W.
  - now apply wf_tick.
  - now apply wf_record_check.
  - now apply wf_mark_latest.
Qed.

Lemma wf_add_user tid name fault d :
  well_formed d -> well_formed (snd (add_user tid name fault d)).
Proof.
  intros W. unfold add_user. destruct fault; cbn [snd]; [assumption|].
  destruct (affected_user tid d) eqn:Ha.
  - apply wf_users_updated; [assumption|]. now apply ids_update_user.
  - apply (wf_frame d); cbn; auto; try lia.
    + rewrite map_app. cbn. apply NoDup_snoc; [apply W|].
      intros Hin. apply affected_user_In in Hin. congruence.
    + rewrite map_app. now apply incl_appl, incl_refl.
Qed.

Lemma wf_alerts_flagged d (p : AlertRow -> bool) l :
  well_formed d ->
  well_formed
    (tick {| users := l; alerts := alerts d; alert_history := alert_history d;
             history_serial := history_serial d;
             current_timestamp := current_timestamp d |}) ->
  well_formed
    (tick {| users := l;
             alerts := map (fun a => if p a then with_alert_active false a
                                     else a) (alerts d);
             alert_history := alert_history d;
             history_serial := history_serial d;
             current_timestamp := current_timestamp d |}).
Proof.
  intros W W'.
  eapply (wf_frame _ _ W'); cbn; auto using incl_refl; try lia.
  - apply W'.
  - rewrite map_map. apply map_ext. intros a. now destruct (p a).
  - rewrite map_map. apply map_ext. intros a. now destruct (p a).
Qed.

Lemma wf_delete_user tid fault d :
  well_formed d -> well_formed (snd (delete_user tid fault d)).
Proof.
  intros W. unfold delete_user. destruct fault; cbn [snd]; [assumption|].
  destruct (affected_user tid d) eqn:Ha; cbn [snd]; [|now apply wf_tick].
  destruct W as [W1 W2 W3 W4 W5 W6 W7 W8 W9].
  assert (Hkeep : forall x, In x (map u_telegram_id (users d)) -> x <> tid ->
            In x (map u_telegram_id
                    (filter (fun u => negb (is_user tid u)) (users d)))).
  { intros x Hx Hne. apply in_map_iff in Hx. destruct Hx as [u [<- Hu]].
    apply in_map, filter_In. split; [assumption|].
    unfold is_user. apply negb_true_iff, Z.eqb_neq. exact Hne. }
  constructor; cbn.
  - now apply Grouping.NoDup_map_filter.
  - now apply Grouping.NoDup_map_filter.
  - now apply Grouping.NoDup_map_filter.
  - intros x Hx. apply in_map_iff in Hx. destruct Hx as [a [<- Ha']].
    apply filter_In in Ha'. destruct Ha' as [Hin Hne].
    apply negb_true_iff, Z.eqb_neq in Hne.
    apply Hkeep; [|assumption]. apply W4. now apply in_map.
  - intros x Hx. apply in_map_iff in Hx. destruct Hx as [h [<- Hh]].
    apply filter_In in Hh. destruct Hh as [Hin Hk].
    apply negb_true_iff, orb_false_iff in Hk. destruct Hk as [_ Hk].
    assert (Hx : In (h_alert_id h) (map a_id (alerts d)))
      by (apply W5; now apply in_map).
    apply in_map_iff in Hx. destruct Hx as [a [Ea Hina]].
    apply in_map_iff. exists a. split; [assumption|].
    apply filter_In. split; [assumption|].
    destruct (a_telegram_id a =? tid) eqn:Eo; [|reflexivity].
    exfalso.
    assert (Hex : existsb (Z.eqb (h_alert_id h))
              (map a_id (filter (fun a => a_telegram_id a =? tid) (alerts d)))
            = true).
    { apply existsb_exists. exists (a_id a). split.
      - apply in_map, filter_In. auto.
      - apply Z.eqb_eq. congruence. }
    congruence.
  - intros x Hx. apply in_map_iff in Hx. destruct Hx as [h [<- Hh]].
    apply filter_In in Hh. destruct Hh as [Hin Hk].
    apply negb_true_iff, orb_false_iff in Hk. destruct Hk as [Hk _].
    apply Z.eqb_neq in Hk.
    apply Hkeep; [|assumption]. apply W6. now apply in_map.
  - now apply Grouping.NoDup_map_filter.
  - apply Forall_forall. intros h Hh. apply filter_In in Hh.
    rewrite Forall_forall in W8. apply W8, Hh.
  - apply Forall_forall. intros h Hh. apply filter_In in Hh.
    rewrite Forall_forall in W9. specialize (W9 h (proj1 Hh)). lia.
Qed.

Lemma same_watch_eq tid course index_no year sem a :
  same_watch tid course index_no year sem a = true <->
  watch_of a = (tid, course, index_no, year, sem).
Proof.
  unfold same_watch, watch_of. rewrite !andb_true_iff, Z.eqb_eq, !String.eqb_eq.
  split.
  - intros [[[[-> ->] ->] ->] ->]. reflexivity.
  - intros E. inversion E. auto.
Qed.

Lemma wf_add_alert year sem next_id tid course index_no y s fault d :
  well_formed d ->
  well_formed (snd (add_alert year sem next_id tid course index_no y s fault d)).
Proof.
  intros W. unfold add_alert. destruct fault; cbn [snd]; [assumption|].
  destruct (negb (affected_user tid d) || _ || _) eqn:Hc; cbn [snd];
    [assumption|].
  apply orb_false_iff in Hc. destruct Hc as [Hc Hw].
  apply orb_false_iff in Hc. destruct Hc as [Hu Hi].
  apply negb_false_iff, affected_user_In in Hu.
  destruct W as [W1 W2 W3 W4 W5 W6 W7 W8 W9].
  constructor; cbn.
  - exact W1.
  - rewrite map_app. cbn. apply NoDup_snoc; [exact W2|].
    intros Hin. apply in_map_iff in Hin. destruct Hin as [a [Ea Ha]].
    assert (existsb (fun a => a_id a =? next_id) (alerts d) = true).
    { apply existsb_exists. exists a. split; [assumption | now apply Z.eqb_eq]. }
    congruence.
  - rewrite map_app. cbn. apply NoDup_snoc; [exact W3|].
    intros Hin. apply in_map_iff in Hin. destruct Hin as [a [Ea Ha]].
    assert (existsb (same_watch tid (Py.upper course) index_no
                       (or_default y year) (or_default s sem)) (alerts d)
            = true).
    { apply existsb_exists. exists a. split; [assumption|].
      now apply same_watch_eq. }
    congruence.
  - rewrite map_app. cbn. apply incl_app; [exact W4|].
    intros x [<-|[]]. exact Hu.
  - rewrite map_app. intros x Hx. apply in_or_app. left. now apply W5.
  - exact W6.
  - exact W7.
  - exact W8.
  - eapply Forall_impl; [|exact W9]. cbn. intros. lia.
Qed.

Lemma wf_store_step d d' : well_formed d -> store_step d d' -> well_formed d'.
Proof.
  intros W H. revert W. destruct H; intros W.
  - eapply wf_engine_step; eauto.
  - now apply wf_add_user.
  - unfold get_user. destruct fault; cbn [snd]; [assumption | now apply wf_tick].
  - unfold deactivate_user. destruct fault; cbn [snd]; [assumption|].
    apply wf_users_updated; [assumption|]. now apply ids_update_user.
  - now apply wf_delete_user.
  - unfold pause_user. destruct fault; cbn [snd]; [assumption|].
    apply wf_users_updated; [assumption|]. now apply ids_update_user.
  - unfold resume_user. destruct fault; cbn [snd]; [assumption|].
    apply wf_users_updated; [assumption|]. now apply ids_update_user.
  - unfold stop_user. destruct fault; cbn [snd]; [assumption|].
    apply (wf_alerts_flagged d (fun a => a_telegram_id a =? tid)); [assumption|].
    apply (wf_users_updated d); [assumption|]. now apply ids_update_user.
  - unfold check_user_pause_status. destruct fault; cbn [snd]; [assumption|].
    destruct (find (is_user tid) (users d)) as [u|]; cbn [snd];
      [|now apply wf_tick].
    destruct (_ && _ && _); cbn [snd]; [|now apply wf_tick].
    destruct (existsb _ _); cbn [snd]; [|now apply wf_tick].
    apply wf_users_updated; [assumption|].
    rewrite map_map. apply map_ext. intros u0.
    now destruct (pause_expired tid (current_timestamp d) u0).
  - now apply wf_add_alert.
  - unfold remove_alert. destruct fault; cbn [snd]; [assumption|].
    apply (wf_alerts_flagged d (is_alert_of aid tid) (users d)); [assumption|].
    exact (wf_tick d W).
  - unfold get_alert_history. destruct fault; cbn [snd]; [assumption|].
    destruct (limit <? 0); cbn [snd]; [assumption | now apply wf_tick].
Qed.

Lemma engine_steps_store d d' : engine_steps d d' -> store_steps d d'.
Proof.
  induction 1 as [d0 | d0 d1 d2 _ IH Hs]; [apply store_none|].
  eapply store_more; [exact IH | now apply by_engine].
Qed.

(** X10. The operations keep the constraints of the schema: from tables
    that satisfy them (primary keys, the [UNIQUE] constraint on alerts,
    the foreign keys, history ids below the serial and timestamps in the
    past), any sequence of calls of the operations of database.py, failed
    or committed, leads to tables that satisfy them; so does the checker,
    however long it runs. *)
Theorem operations_keep_the_schema (w : World) :
  well_formed (db w) ->
  (forall d', store_steps (db w) d' -> well_formed d')
  /\ (forall rounds interval env self,
        well_formed
          (db (snd (VacancyChecker.run_forever_loop rounds interval env self
                      w)))).
Proof.
  intros W.
  assert (H : forall d', store_steps (db w) d' -> well_formed d').
  { intros d' Hs. induction Hs as [d0 | d0 d1 d2 _ IH Hs]; [assumption|].
    eapply wf_store_step; [apply IH; assumption | exact Hs]. }
  split; [exact H|].
  intros rounds interval env self. apply H, engine_steps_store.
  apply EngineSteps.stepping_run_forever_loop.
Qed.

End SchemaFacts.

(** ** Who is watched: pauses, stops and removals *)

Module AccountFacts.

Import World Database Accounts StoreNotions Observations.
Import Samples MoreSamples.

Lemma select_active_In d a :
  In a (select_active d) <->
  exists row, In row (alerts d) /\ selected d row = true /\ a = to_dict row.
Proof.
  unfold select_active. rewrite in_map_iff. split.
  - intros (row & <- & Hin).
    apply (Permutation_in _ (Grouping.order_perm _)) in Hin.
    apply filter_In in Hin. exists row. tauto.
  - intros (row & Hin & Hs & ->). exists row. split; [reflexivity|].
    apply (Permutation_in _ (Permutation_sym (Grouping.order_perm _))).
    apply filter_In. tauto.
Qed.

Lemma selected_iff d row :
  selected d row = true <->
  a_is_active row = true
  /\ exists u, In u (users d) /\ u_telegram_id u = a_telegram_id row
               /\ user_eligible (current_timestamp d) u = true.
Proof.
  unfold selected. rewrite andb_true_iff, existsb_exists.
  split; intros [Ha (u & Hu & H)]; (split; [assumption|]); exists u.
  - apply andb_prop in H. destruct H as [H1 H2]. apply Z.eqb_eq in H1. auto.
  - destruct H as [H1 H2]. split; [assumption|].
    apply andb_true_iff. split; [now apply Z.eqb_eq | assumption].
Qed.

Lemma loaded_iff aid d :
  loaded aid d <->
  exists row, In row (alerts d) /\ a_id row = aid /\ selected d row = true.
Proof.
  unfold loaded. rewrite in_map_iff. split.
  - intros (a & <- & Ha). apply select_active_In in Ha.
    destruct Ha as (row & Hin & Hs & ->). exists row. auto.
  - intros (row & Hin & <- & Hs). exists (to_dict row). split; [reflexivity|].
    apply select_active_In. exists row. auto.
Qed.

Lemma In_update_user tid f l u' :
  In u' (update_user tid f l) <->
  exists u, In u l /\ u' = (if is_user tid u then f u else u).
Proof.
  unfold update_user. rewrite in_map_iff.
  split; intros (u & H1 & H2); exists u; auto.
Qed.

Lemma identity_In l l' row :
  map identity l' = map identity l -> In row l ->
  exists row', In row' l' /\ identity row' = identity row.
Proof.
  intros E Hin. apply (in_map identity) in Hin. rewrite <- E in Hin.
  apply in_map_iff in Hin. destruct Hin as (row' & H1 & H2). eauto.
Qed.

(** What the checker loads after it has run for a while, read on the
    tables it started from: its own writes change neither who owns an
    alert, nor whether it is active, nor the users. *)
Lemma select_after_steps d1 d2 a :
  engine_steps d1 d2 -> In a (select_active d2) ->
  exists row u,
    In row (alerts d1) /\ a_id row = id a /\ a_telegram_id row = telegram_id a
    /\ a_is_active row = true
    /\ In u (users d1) /\ u_telegram_id u = telegram_id a
    /\ user_eligible (current_timestamp d2) u = true.
Proof.
  intros Hs Ha. apply EngineSteps.engine_steps_frame in Hs.
  destruct Hs as [Hu Hi].
  apply select_active_In in Ha. destruct Ha as (row2 & Hin2 & Hsel & ->).
  apply selected_iff in Hsel. destruct Hsel as (Hact & u & Hinu & Hid & Hel).
  destruct (identity_In (alerts d2) (alerts d1) row2 (eq_sym Hi) Hin2)
    as (row & Hin & Eid).
  unfold identity in Eid. inversion Eid.
  exists row, u. cbn [to_dict id telegram_id].
  rewrite <- Hu. repeat split; auto; congruence.
Qed.

Lemma loaded_after_steps d1 d2 row u :
  engine_steps d1 d2 -> In row (alerts d1) -> a_is_active row = true ->
  In u (users d1) -> u_telegram_id u = a_telegram_id row ->
  user_eligible (current_timestamp d2) u = true ->
  loaded (a_id row) d2.
Proof.
  intros Hs Hin Hact Hinu Hid Hel.
  apply EngineSteps.engine_steps_frame in Hs. destruct Hs as [Hu Hi].
  destruct (identity_In (alerts d1) (alerts d2) row Hi Hin)
    as (row2 & Hin2 & Eid).
  unfold identity in Eid. inversion Eid.
  apply loaded_iff. exists row2. repeat split; auto.
  apply selected_iff. split; [congruence|].
  exists u. rewrite Hu. repeat split; auto; congruence.
Qed.

Lemma tidy_db_well_formed : well_formed tidy_db.
Proof.
  constructor; cbn.
  - repeat constructor; cbn; intuition discriminate.
  - repeat constructor; cbn; intuition discriminate.
  - repeat constructor; cbn; intuition discriminate.
  - intros x Hx. cbn in *. intuition.
  - intros x [].
  - intros x [].
  - constructor.
  - constructor.
  - constructor.
Qed.

Lemma operations_keep_the_schema_witness :
  well_formed (snd (stop_user 7001 None tidy_db))
  /\ well_formed
       (db (snd (VacancyChecker.run_forever_loop 2 300 sample_env
                   sample_checker tidy_world))).
Proof.
  destruct (SchemaFacts.operations_keep_the_schema tidy_world
              tidy_db_well_formed) as [H1 H2].
  split.
  - apply H1. eapply store_more; [apply store_none | apply by_stop_user].
  - apply H2.
Defined.

(** X11. A paused user is skipped until the pause ends, and watched
    again afterwards without any further call: after [pause_user], however
    long the checker runs, no alert of the user is loaded while the clock
    has not passed [paused_until]; once it has, every active alert of the
    user (the user being active) is loaded again. *)
Theorem pause_skips_the_user_until_it_ends (minute tid duration : Z)
  (d d2 : Database) :
  engine_steps (snd (pause_user minute tid duration None d)) d2 ->
  (current_timestamp d2 <= current_timestamp d + duration * minute ->
   forall a, In a (select_active d2) -> telegram_id a <> tid)
  /\ (current_timestamp d + duration * minute < current_timestamp d2 ->
      forall row u,
        In row (alerts d) -> a_telegram_id row = tid ->
        a_is_active row = true ->
        In u (users d) -> u_telegram_id u = tid -> u_is_active u = true ->
        loaded (a_id row) d2).
Proof.
  intros Hs. split.
  - intros Hnow a Ha Htid.
    destruct (select_after_steps _ _ _ Hs Ha)
      as (row & u' & _ & _ & _ & _ & Hu' & Hid & Hel).
    cbn in Hu'. apply In_update_user in Hu'. destruct Hu' as (u & Hu & ->).
    unfold is_user in *.
    destruct (u_telegram_id u =? tid) eqn:E.
    + unfold user_eligible in Hel. cbn in Hel.
      apply andb_prop in Hel. destruct Hel as [_ Hel].
      apply Z.ltb_lt in Hel. lia.
    + apply Z.eqb_neq in E. congruence.
  - intros Hnow row u Hrow Hown Hact Hu Hid Hua.
    apply (loaded_after_steps _ _ row
             (with_pause true
                (Some (current_timestamp d + duration * minute))
                (Some "manual") u) Hs); auto.
    + cbn. apply In_update_user. exists u. split; [assumption|].
      unfold is_user. rewrite Hid, Z.eqb_refl. reflexivity.
    + cbn. congruence.
    + unfold user_eligible. cbn. rewrite Hua. cbn.
      apply Z.ltb_lt. lia.
Qed.

Lemma pause_skips_the_user_until_it_ends_witness :
  telegram_id (to_dict second_alert) <> 7001
  /\ loaded 1
       (tick (tick (tick (snd (pause_user 60 7001 0 None tidy_db))))).
Proof.
  split.
  - apply (proj1 (pause_skips_the_user_until_it_ends 60 7001 20 tidy_db
                    (tick (snd (pause_user 60 7001 20 None tidy_db)))
                    (steps_more _ _ _ (steps_none _) (step_tick _)))).
    + cbn. lia.
    + cbn. left. reflexivity.
  - apply (proj2 (pause_skips_the_user_until_it_ends 60 7001 0 tidy_db
                    (tick (tick (tick (snd (pause_user 60 7001 0 None tidy_db)))))
                    (steps_more _ _ _
                       (steps_more _ _ _
                          (steps_more _ _ _ (steps_none _) (step_tick _))
                          (step_tick _))
                       (step_tick _)))
             ltac:(cbn; lia)
             (sample_alert 1 "SC2103" "10001" 0) sample_user);
      cbn; auto.
Defined.

(** X12. [resume_user] ends a pause at once, whatever its kind: from
    then on, however long the checker runs, every active alert of the
    user (the user being active) is loaded.  Alerts that were set
    inactive stay out. *)
Theorem resume_brings_the_active_alerts_back (tid : Z) (d d2 : Database)
  (row : AlertRow) (u : UserRow) :
  engine_steps (snd (resume_user tid None d)) d2 ->
  In row (alerts d) -> a_telegram_id row = tid ->
  In u (users d) -> u_telegram_id u = tid -> u_is_active u = true ->
  (a_is_active row = true -> loaded (a_id row) d2)
  /\ (forall a, In a (select_active d2) -> telegram_id a = tid ->
        exists row', In row' (alerts d) /\ a_id row' = id a
                     /\ a_is_active row' = true).
Proof.
  intros Hs Hrow Hown Hu Hid Hua. split.
  - intros Hact.
    apply (loaded_after_steps _ _ row (with_pause false None None u) Hs); auto.
    + cbn. apply In_update_user. exists u. split; [assumption|].
      unfold is_user. rewrite Hid, Z.eqb_refl. reflexivity.
    + cbn. congruence.
    + unfold user_eligible. cbn. now rewrite Hua.
  - intros a Ha Ht.
    destruct (select_after_steps _ _ _ Hs Ha)
      as (row' & u' & Hin & Ei & _ & Hact & _).
    exists row'. cbn in Hin. auto.
Qed.

Lemma resume_brings_the_active_alerts_back_witness :
  loaded 1 (tick (snd (resume_user 7001 None
                         (snd (pause_user 60 7001 20 None tidy_db))))).
Proof.
  apply (proj1 (resume_brings_the_active_alerts_back 7001
                  (snd (pause_user 60 7001 20 None tidy_db))
                  (tick (snd (resume_user 7001 None
                                (snd (pause_user 60 7001 20 None tidy_db)))))
                  (sample_alert 1 "SC2103" "10001" 0)
                  (with_pause true (Some 1300) (Some "manual") sample_user)
                  (steps_more _ _ _ (steps_none _) (step_tick _))
                  ltac:(cbn; auto) eq_refl ltac:(cbn; auto) eq_refl eq_refl)).
  reflexivity.
Defined.

Lemma stopped_alerts_are_inactive tid d row :
  In row (alerts (snd (stop_user tid None d))) -> a_telegram_id row = tid ->
  a_is_active row = false.
Proof.
  cbn. intros Hin Hown. apply in_map_iff in Hin. destruct Hin as (x & <- & _).
  destruct (a_telegram_id x =? tid) eqn:E; [reflexivity|].
  apply Z.eqb_neq in E. contradiction.
Qed.

(** X13. [stop_user] turns the alerts of the user off for good: neither
    the passing of time nor [resume_user] brings them back, and after the
    steps the bot takes when the user adds an alert again ([resume_user],
    then [add_alert]) the one alert of the user that the checker loads is
    the new one. *)
Theorem stop_turns_the_alerts_off_for_good (year sem : string)
  (next_id tid : Z) (course index_no : string) (d d2 : Database)
  (a : AlertDict) :
  let stopped := snd (stop_user tid None d) in
  let resumed := snd (resume_user tid None stopped) in
  let added :=
    add_alert year sem next_id tid course index_no None None None resumed in
  engine_steps stopped d2 \/ engine_steps resumed d2
  \/ engine_steps (snd added) d2 ->
  In a (select_active d2) -> telegram_id a = tid ->
  engine_steps (snd added) d2
  /\ fst added = Py.Returns (Some next_id)
  /\ id a = next_id.
Proof.
  cbv zeta. intros Hs Ha Ht.
  assert (Hoff : forall row,
            In row (alerts (snd (stop_user tid None d))) ->
            a_telegram_id row = tid -> a_is_active row = true -> False).
  { intros row Hin Hown Hact.
    rewrite (stopped_alerts_are_inactive tid d row Hin Hown) in Hact.
    discriminate. }
  destruct Hs as [Hs | [Hs | Hs]].
  - exfalso.
    destruct (select_after_steps _ _ _ Hs Ha)
      as (row & u & Hin & _ & Hown & Hact & _).
    apply (Hoff row); auto. congruence.
  - exfalso.
    destruct (select_after_steps _ _ _ Hs Ha)
      as (row & u & Hin & _ & Hown & Hact & _).
    apply (Hoff row); auto. congruence.
  - split; [exact Hs|].
    destruct (select_after_steps _ _ _ Hs Ha)
      as (row & u & Hin & Hid & Hown & Hact & _).
    revert Hin. clear Hs. unfold add_alert.
    destruct (negb _ || _ || _); cbn [fst snd].
    + intros Hin. exfalso. apply (Hoff row); auto. congruence.
    + intros Hin. cbn in Hin. apply in_app_or in Hin.
      destruct Hin as [Hin | [<- | []]].
      * exfalso. apply (Hoff row); auto. congruence.
      * split; [reflexivity|]. cbn in Hid. congruence.
Qed.

Lemma stop_turns_the_alerts_off_for_good_witness :
  engine_steps
    (snd (add_alert "2025" "2" 4 7001 "sc1003" "10500" None None None
            (snd (resume_user 7001 None (snd (stop_user 7001 None tidy_db))))))
    (snd (add_alert "2025" "2" 4 7001 "sc1003" "10500" None None None
            (snd (resume_user 7001 None (snd (stop_user 7001 None tidy_db))))))
  /\ fst (add_alert "2025" "2" 4 7001 "sc1003" "10500" None None None
            (snd (resume_user 7001 None (snd (stop_user 7001 None tidy_db)))))
     = Py.Returns (Some 4)
  /\ id {| id := 4; telegram_id := 7001; course_code := "SC1003";
           index_number := "10500"; academic_year := "2025";
           semester := "2"; last_vacancy_count := 0 |} = 4.
Proof.
  apply (stop_turns_the_alerts_off_for_good "2025" "2" 4 7001 "sc1003" "10500"
           tidy_db
           (snd (add_alert "2025" "2" 4 7001 "sc1003" "10500" None None None
                   (snd (resume_user 7001 None
                           (snd (stop_user 7001 None tidy_db))))))).
  - right. right. apply steps_none.
  - vm_compute. right. left. reflexivity.
  - reflexivity.
Defined.

Lemma watch_exists_blocks_add year sem next_id tid course index_no y s d a :
  In a (alerts d) ->
  watch_of a = (tid, Py.upper course, index_no, or_default y year,
                or_default s sem) ->
  add_alert year sem next_id tid course index_no y s None d
  = (Py.Returns None, d).
Proof.
  intros Hin Hw. unfold add_alert.
  assert (E : existsb (same_watch tid (Py.upper course) index_no
                         (or_default y year) (or_default s sem)) (alerts d)
              = true).
  { apply existsb_exists. exists a. split; [assumption|].
    now apply SchemaFacts.same_watch_eq. }
  rewrite E, orb_true_r. reflexivity.
Qed.

(** X14. An alert that was removed, or turned off by [stop_user],
    cannot be added again: its row stays in the table, so [add_alert] for
    the same user, course, index, year and semester runs into the
    [UNIQUE] constraint, answers [None] and writes nothing. *)
Theorem removed_alert_cannot_be_added_again (year sem : string) (next_id : Z)
  (a : AlertRow) (course : string) (d : Database) :
  In a (alerts d) -> Py.upper course = a_course_code a ->
  let removed := snd (remove_alert (a_id a) (a_telegram_id a) None d) in
  let stopped := snd (stop_user (a_telegram_id a) None d) in
  add_alert year sem next_id (a_telegram_id a) course (a_index_number a)
    (Some (a_academic_year a)) (Some (a_semester a)) None removed
  = (Py.Returns None, removed)
  /\ add_alert year sem next_id (a_telegram_id a) course (a_index_number a)
       (Some (a_academic_year a)) (Some (a_semester a)) None stopped
     = (Py.Returns None, stopped).
Proof.
  intros Hin Hc. cbv zeta. split.
  - apply (watch_exists_blocks_add _ _ _ _ _ _ _ _ _
             (with_alert_active false a)).
    + cbn. apply in_map_iff. exists a. split; [|assumption].
      unfold is_alert_of. now rewrite !Z.eqb_refl.
    + cbn. unfold watch_of. cbn. now rewrite Hc.
  - apply (watch_exists_blocks_add _ _ _ _ _ _ _ _ _
             (with_alert_active false a)).
    + cbn. apply in_map_iff. exists a. split; [|assumption].
      now rewrite Z.eqb_refl.
    + cbn. unfold watch_of. cbn. now rewrite Hc.
Qed.

Lemma removed_alert_cannot_be_added_again_witness :
  add_alert "2025" "2" 4 7001 "sc2103" "10001" (Some "2025") (Some "2") None
    (snd (remove_alert 1 7001 None tidy_db))
  = (Py.Returns None, snd (remove_alert 1 7001 None tidy_db))
  /\ add_alert "2025" "2" 4 7001 "sc2103" "10001" (Some "2025") (Some "2") None
       (snd (stop_user 7001 None tidy_db))
     = (Py.Returns None, snd (stop_user 7001 None tidy_db)).
Proof.
  apply (removed_alert_cannot_be_added_again "2025" "2" 4
           (sample_alert 1 "SC2103" "10001" 0) "sc2103" tidy_db).
  - cbn. auto.
  - reflexivity.
Defined.

(** X15. [remove_alert] removes an alert only for its owner: it answers
    [True] exactly when an alert with this id belongs to this user; the
    alerts of other users and the other tables stay as they are, whatever
    the id; and however long the checker runs afterwards, it loads no
    alert with this id and owner. *)
Theorem remove_alert_checks_the_owner (alert_id tid : Z) (d : Database) :
  let removed := snd (remove_alert alert_id tid None d) in
  (fst (remove_alert alert_id tid None d) = Py.Returns true <->
   exists a, In a (alerts d) /\ a_id a = alert_id /\ a_telegram_id a = tid)
  /\ filter (fun a => negb (a_telegram_id a =? tid)) (alerts removed)
     = filter (fun a => negb (a_telegram_id a =? tid)) (alerts d)
  /\ users removed = users d
  /\ alert_history removed = alert_history d
  /\ forall d2 x, engine_steps removed d2 -> In x (select_active d2) ->
       ~ (id x = alert_id /\ telegram_id x = tid).
Proof.
  cbv zeta. cbn [remove_alert fst snd]. repeat apply conj.
  - intros E. inversion E as [E']. apply existsb_exists in E'.
    destruct E' as (a & Hin & Ha). unfold is_alert_of in Ha.
    apply andb_prop in Ha. destruct Ha as [H1 H2].
    apply Z.eqb_eq in H1, H2. eauto.
  - intros (a & Hin & H1 & H2). f_equal. apply existsb_exists.
    exists a. split; [assumption|]. unfold is_alert_of.
    now rewrite H1, H2, !Z.eqb_refl.
  - cbn. induction (alerts d) as [|a l IH]; [reflexivity|]. cbn [map filter].
    assert (Ho : a_telegram_id (if is_alert_of alert_id tid a
                                then with_alert_active false a else a)
                 = a_telegram_id a)
      by (destruct (is_alert_of alert_id tid a); reflexivity).
    rewrite Ho. destruct (a_telegram_id a =? tid) eqn:E; cbn [negb];
      [exact IH|].
    rewrite IH. f_equal. unfold is_alert_of. now rewrite E, andb_false_r.
  - reflexivity.
  - reflexivity.
  - intros d2 x Hs Hx [Hid Ht].
    destruct (select_after_steps _ _ _ Hs Hx)
      as (row & u & Hin & Hi & Hown & Hact & _).
    cbn in Hin. apply in_map_iff in Hin. destruct Hin as (r0 & <- & _).
    unfold is_alert_of in *.
    destruct ((a_id r0 =? alert_id) && (a_telegram_id r0 =? tid)) eqn:E.
    + discriminate.
    + apply andb_false_iff in E. destruct E as [E|E]; apply Z.eqb_neq in E;
        congruence.
Qed.

Lemma remove_alert_checks_the_owner_witness :
  (exists a, In a (alerts tidy_db) /\ a_id a = 1 /\ a_telegram_id a = 7001)
  /\ ~ (id (to_dict second_alert) = 1
        /\ telegram_id (to_dict second_alert) = 7001).
Proof.
  destruct (remove_alert_checks_the_owner 1 7001 tidy_db)
    as (Hanswer & _ & _ & _ & Hgone).
  split.
  - apply Hanswer. reflexivity.
  - apply (Hgone (snd (remove_alert 1 7001 None tidy_db))).
    + apply steps_none.
    + vm_compute. left. reflexivity.
Defined.

(** X16. [deactivate_user] writes the users table only: the alerts of
    the user stay in their table as they were, still marked active, and so
    does the history.  [get_user] no longer finds the user, the checker
    loads none of the user's alerts however many cycles it runs, and
    [add_user] (which the bot calls on every command) makes the user
    active again. *)
Theorem deactivate_user_leaves_the_alerts (tid : Z) (name : string)
  (d : Database) :
  alerts (snd (deactivate_user tid None d)) = alerts d
  /\ alert_history (snd (deactivate_user tid None d)) = alert_history d
  /\ fst (get_user tid None (snd (deactivate_user tid None d))) = None
  /\ (forall d2 a,
        engine_steps (snd (deactivate_user tid None d)) d2 ->
        In a (select_active d2) -> telegram_id a <> tid)
  /\ Forall (fun u => u_telegram_id u = tid -> u_is_active u = true)
       (users (snd (add_user tid name None
                      (snd (deactivate_user tid None d))))).
Proof.
  repeat apply conj.
  - reflexivity.
  - reflexivity.
  - cbn. induction (users d) as [|u l IH]; [reflexivity|].
    unfold update_user in *. cbn [map find]. cbv beta.
    destruct (is_user tid u) eqn:E.
    + unfold is_user in *. cbn [with_active u_telegram_id u_is_active].
      rewrite E. cbn [andb]. exact IH.
    + rewrite E. cbn [andb]. exact IH.
  - intros d2 a Hs Ha Ht.
    destruct (select_after_steps _ _ _ Hs Ha)
      as (row & u' & _ & _ & _ & _ & Hu' & Hid & Hel).
    cbn in Hu'. apply In_update_user in Hu'. destruct Hu' as (u & Hu & ->).
    unfold is_user in *.
    destruct (u_telegram_id u =? tid) eqn:E.
    + unfold user_eligible in Hel. cbn in Hel. discriminate.
    + apply Z.eqb_neq in E. congruence.
  - cbn [add_user snd].
    assert (Hex : forall l, affected_user tid
              (tick (set_users (update_user tid (with_active false) l) d))
              = existsb (is_user tid) l).
    { intros l. unfold affected_user. cbn. induction l as [|u l IH];
        [reflexivity|]. cbn [update_user map existsb].
      unfold update_user in IH. rewrite IH. f_equal.
      unfold is_user. destruct (u_telegram_id u =? tid) eqn:E; cbn; auto. }
    cbn [deactivate_user snd]. rewrite Hex.
    destruct (existsb (is_user tid) (users d)) eqn:Ex; cbn.
    + apply Forall_forall. intros u Hu Hid.
      apply In_update_user in Hu. destruct Hu as (u1 & Hu1 & ->).
      apply In_update_user in Hu1. destruct Hu1 as (u0 & Hu0 & ->).
      unfold is_user in *.
      destruct (u_telegram_id u0 =? tid) eqn:E; cbn in *.
      * rewrite E. reflexivity.
      * rewrite E in *. apply Z.eqb_neq in E. cbn in Hid. congruence.
    + apply Forall_forall. intros u Hu Hid. apply in_app_or in Hu.
      destruct Hu as [Hu | [<- | []]]; [|reflexivity].
      apply In_update_user in Hu. destruct Hu as (u0 & Hu0 & ->).
      exfalso.
      assert (existsb (is_user tid) (users d) = true).
      { apply existsb_exists. exists u0. split; [assumption|].
        unfold is_user in *. destruct (u_telegram_id u0 =? tid) eqn:E; auto.
        cbn in Hid. apply Z.eqb_neq in E. congruence. }
      congruence.
Qed.

Lemma deactivate_user_leaves_the_alerts_witness :
  alerts (snd (deactivate_user 7001 None tidy_db)) = alerts tidy_db
  /\ fst (get_user 7001 None (snd (deactivate_user 7001 None tidy_db))) = None
  /\ telegram_id (to_dict second_alert) <> 7001
  /\ select_active (snd (deactivate_user 7001 None tidy_db))
     = [to_dict second_alert].
Proof.
  destruct (deactivate_user_leaves_the_alerts 7001 "ann" tidy_db)
    as (Halerts & _ & Huser & Hskip & _).
  split; [exact Halerts | split; [exact Huser | split; [|reflexivity]]].
  apply (Hskip (snd (deactivate_user 7001 None tidy_db))).
  - apply steps_none.
  - vm_compute. left. reflexivity.
Defined.

(** The rows every operation keeps in step. *)
Lemma history_matches_frame d d' :
  history_matches d ->
  (forall a, In a (alerts d) ->
     exists a', In a' (alerts d') /\ a_id a' = a_id a
                /\ a_telegram_id a' = a_telegram_id a
                /\ a_course_code a' = a_course_code a
                /\ a_index_number a' = a_index_number a) ->
  (forall h', In h' (alert_history d') ->
     exists h, In h (alert_history d) /\ h_alert_id h = h_alert_id h'
               /\ h_telegram_id h = h_telegram_id h'
               /\ h_course_code h = h_course_code h'
               /\ h_index_number h = h_index_number h') ->
  history_matches d'.
Proof.
  intros Hm Ha Hh h' Hin'.
  destruct (Hh h' Hin') as (h & Hin & E1 & E2 & E3 & E4).
  destruct (Hm h Hin) as (a & Hina & F1 & F2 & F3 & F4).
  destruct (Ha a Hina) as (a' & Hina' & G1 & G2 & G3 & G4).
  exists a'. repeat split; congruence.
Qed.

Lemma history_matches_same d d' :
  history_matches d -> alerts d' = alerts d ->
  alert_history d' = alert_history d -> history_matches d'.
Proof.
  intros Hm Ea Eh. apply (history_matches_frame d); auto.
  - intros a Ha. exists a. rewrite Ea. auto.
  - intros h Hh. exists h. rewrite <- Eh. auto.
Qed.

Lemma history_matches_flagged d d' (p : AlertRow -> bool) :
  history_matches d ->
  alerts d' = map (fun a => if p a then with_alert_active false a else a)
                (alerts d) ->
  alert_history d' = alert_history d -> history_matches d'.
Proof.
  intros Hm Ea Eh. apply (history_matches_frame d); auto.
  - intros a Ha. exists (if p a then with_alert_active false a else a).
    rewrite Ea. split.
    + apply in_map_iff. exists a. auto.
    + destruct (p a); auto.
  - intros h Hh. exists h. rewrite <- Eh. auto.
Qed.

Lemma history_matches_engine_step d d' :
  history_matches d -> engine_step d d' -> history_matches d'.
Proof.
  intros Hm H. revert Hm.
  destruct H as [d0 | d0 aid vac wait info Hf | d0 aid]; intros Hm.
  - now apply (history_matches_same d0).
  - apply find_some in Hf. destruct Hf as [Hinfo Hid]. apply Z.eqb_eq in Hid.
    intros h Hh. cbn in Hh. apply in_app_or in Hh.
    assert (Hkeep : forall a, In a (alerts d0) ->
              exists a', In a' (alerts (record_check aid vac wait info d0))
                /\ a_id a' = a_id a /\ a_telegram_id a' = a_telegram_id a
                /\ a_course_code a' = a_course_code a
                /\ a_index_number a' = a_index_number a).
    { intros a Ha. exists (set_checked aid (current_timestamp d0) vac a).
      split; [cbn; now apply in_map|].
      unfold set_checked. destruct (a_id a =? aid); auto. }
    destruct Hh as [Hh | [<- | []]].
    + destruct (Hm h Hh) as (a & Hina & F1 & F2 & F3 & F4).
      destruct (Hkeep a Hina) as (a' & Hina' & G1 & G2 & G3 & G4).
      exists a'. repeat split; congruence.
    + destruct (Hkeep info Hinfo) as (a' & Hina' & G1 & G2 & G3 & G4).
      exists a'. split; [exact Hina'|]. cbn. repeat split; congruence.
  - apply (history_matches_frame d0); auto.
    + intros a Ha. exists a. auto.
    + intros h' Hh'. cbn in Hh'.
      destruct (latest_history aid (alert_history d0) None) as [l|];
        [|exists h'; auto].
      apply in_map_iff in Hh'. destruct Hh' as (h & <- & Hh).
      exists h. split; [assumption|]. destruct (_ && _); auto.
Qed.

Lemma history_matches_store_step d d' :
  history_matches d -> store_step d d' -> history_matches d'.
Proof.
  intros Hm H. revert Hm. destruct H; intros Hm.
  - eapply history_matches_engine_step; eauto.
  - unfold add_user. destruct fault; cbn [snd]; [assumption|].
    now apply (history_matches_same d).
  - unfold get_user. destruct fault; cbn [snd]; [assumption|].
    now apply (history_matches_same d).
  - unfold deactivate_user. destruct fault; cbn [snd]; [assumption|].
    now apply (history_matches_same d).
  - unfold delete_user. destruct fault; cbn [snd]; [assumption|].
    destruct (affected_user tid d); cbn [snd];
      [|now apply (history_matches_same d)].
    intros h Hh. cbn in Hh. apply filter_In in Hh. destruct Hh as [Hh Hk].
    apply negb_true_iff, orb_false_iff in Hk. destruct Hk as [Hk _].
    destruct (Hm h Hh) as (a & Hina & F1 & F2 & F3 & F4).
    exists a. cbn. split; [|auto]. apply filter_In. split; [assumption|].
    now rewrite F2, Hk.
  - unfold pause_user. destruct fault; cbn [snd]; [assumption|].
    now apply (history_matches_same d).
  - unfold resume_user. destruct fault; cbn [snd]; [assumption|].
    now apply (history_matches_same d).
  - unfold stop_user. destruct fault; cbn [snd]; [assumption|].
    now apply (history_matches_flagged d _ (fun a => a_telegram_id a =? tid)).
  - unfold check_user_pause_status. destruct fault; cbn [snd]; [assumption|].
    destruct (find (is_user tid) (users d)) as [u|]; cbn [snd];
      [|now apply (history_matches_same d)].
    destruct (_ && _ && _); cbn [snd]; [|now apply (history_matches_same d)].
    destruct (existsb _ _); cbn [snd]; now apply (history_matches_same d).
  - unfold add_alert. destruct fault; cbn [snd]; [assumption|].
    destruct (negb _ || _ || _); cbn [snd]; [assumption|].
    apply (history_matches_frame d); auto.
    + intros a Ha. exists a. cbn. split; [apply in_or_app; now left | auto].
    + intros h Hh. exists h. auto.
  - unfold remove_alert. destruct fault; cbn [snd]; [assumption|].
    now apply (history_matches_flagged d _ (is_alert_of aid tid)).
  - unfold get_alert_history. destruct fault; cbn [snd]; [assumption|].
    destruct (limit <? 0); cbn [snd]; [assumption|].
    now apply (history_matches_same d).
Qed.

(** X17. The history never loses track of its alert: from tables in
    which every history row carries the owner, the course and the index
    of the alert it refers to, any sequence of calls of the operations of
    database.py, and any run of the checker, leads to such tables. *)
Theorem history_rows_match_their_alert (w : World) :
  history_matches (db w) ->
  (forall d', store_steps (db w) d' -> history_matches d')
  /\ (forall rounds interval env self,
        history_matches
          (db (snd (VacancyChecker.run_forever_loop rounds interval env self
                      w)))).
Proof.
  intros Hm.
  assert (H : forall d', store_steps (db w) d' -> history_matches d').
  { intros d' Hs. induction Hs as [d0 | d0 d1 d2 _ IH Hs]; [assumption|].
    eapply history_matches_store_step; [apply IH; assumption | exact Hs]. }
  split; [exact H|].
  intros rounds interval env self. apply H, SchemaFacts.engine_steps_store.
  apply EngineSteps.stepping_run_forever_loop.
Qed.

Lemma tidy_db_history_matches : history_matches tidy_db.
Proof. intros h []. Qed.

Lemma history_rows_match_their_alert_witness :
  history_matches (snd (remove_alert 1 7001 None tidy_db))
  /\ history_matches
       (db (snd (VacancyChecker.run_forever_loop 2 300 sample_env
                   sample_checker tidy_world))).
Proof.
  destruct (history_rows_match_their_alert tidy_world tidy_db_history_matches)
    as [H1 H2].
  split.
  - apply H1. eapply store_more; [apply store_none | apply by_remove_alert].
  - apply H2.
Defined.

(** X18. [delete_user] removes the user with everything that refers to
    the user, and nothing else: in well-formed tables whose history
    matches its alerts, the rows left in each table are exactly the rows
    of the other users. *)
Theorem delete_user_removes_the_user_only (tid : Z) (d : Database) :
  well_formed d -> history_matches d ->
  let left := snd (delete_user tid None d) in
  (forall u, In u (users left) <-> In u (users d) /\ u_telegram_id u <> tid)
  /\ (forall a, In a (alerts left) <->
                In a (alerts d) /\ a_telegram_id a <> tid)
  /\ (forall h, In h (alert_history left) <->
                In h (alert_history d) /\ h_telegram_id h <> tid).
Proof.
  intros W Hm. cbv zeta. unfold delete_user.
  destruct (affected_user tid d) eqn:Ha; cbn [snd].
  - cbn. repeat apply conj.
    + intros u. rewrite filter_In. unfold is_user.
      rewrite negb_true_iff, Z.eqb_neq. reflexivity.
    + intros a. rewrite filter_In.
      rewrite negb_true_iff, Z.eqb_neq. reflexivity.
    + intros h. rewrite filter_In. rewrite negb_true_iff, orb_false_iff.
      rewrite Z.eqb_neq. split; [tauto|]. intros [Hh Hne].
      repeat split; auto.
      destruct (existsb _ _) eqn:Ex; [|reflexivity]. exfalso.
      apply existsb_exists in Ex. destruct Ex as (i & Hi & Ei).
      apply Z.eqb_eq in Ei. apply in_map_iff in Hi.
      destruct Hi as (a & Eid & Hina). apply filter_In in Hina.
      destruct Hina as [Hina Hown]. apply Z.eqb_eq in Hown.
      destruct (Hm h Hh) as (a' & Hina' & F1 & F2 & _).
      assert (a = a').
      { destruct W as [_ W2 _ _ _ _ _ _ _]. clear -W2 Hina Hina' Eid F1 Ei.
        assert (E : a_id a = a_id a') by congruence.
        induction (alerts d) as [|x l IH]; [destruct Hina|].
        cbn in W2. inversion W2 as [|? ? Hn Hr]; subst.
        destruct Hina as [->|Hina], Hina' as [->|Hina']; auto.
        - exfalso. apply Hn. rewrite E. now apply in_map.
        - exfalso. apply Hn. rewrite <- E. now apply in_map. }
      subst a'. congruence.
  - assert (Hno : forall x, In x (map u_telegram_id (users d)) -> x <> tid).
    { intros x Hx ->. apply SchemaFacts.affected_user_In in Hx. congruence. }
    cbn. repeat apply conj.
    + intros u. split; [|tauto]. intros Hu. split; [assumption|].
      apply Hno. now apply in_map.
    + intros a. split; [|tauto]. intros Hina. split; [assumption|].
      apply Hno. apply (wf_owner d W). now apply in_map.
    + intros h. split; [|tauto]. intros Hh. split; [assumption|].
      apply Hno. apply (wf_history_user d W). now apply in_map.
Qed.

Lemma delete_user_removes_the_user_only_witness :
  (forall u, In u (users (snd (delete_user 7001 None tidy_db))) <->
             In u (users tidy_db) /\ u_telegram_id u <> 7001)
  /\ (forall a, In a (alerts (snd (delete_user 7001 None tidy_db))) <->
                In a (alerts tidy_db) /\ a_telegram_id a <> 7001)
  /\ (forall h, In h (alert_history (snd (delete_user 7001 None tidy_db))) <->
                In h (alert_history tidy_db) /\ h_telegram_id h <> 7001).
Proof.
  exact (delete_user_removes_the_user_only 7001 tidy_db tidy_db_well_formed
           tidy_db_history_matches).
Defined.

Lemma find_fresh_id aid l (row : AlertRow) :
  ~ In aid (map a_id l) -> a_id row = aid ->
  find (fun a => a_id a =? aid) (l ++ [row]) = Some row.
Proof.
  intros Hn Hid. induction l as [|x l IH]; cbn.
  - now rewrite Hid, Z.eqb_refl.
  - destruct (a_id x =? aid) eqn:E.
    + apply Z.eqb_eq in E. exfalso. apply Hn. left. exact E.
    + apply IH. intros H. apply Hn. now right.
Qed.

(** X19. What [add_alert] leaves behind.  When it answers with an id,
    that id is the next value of the serial and was not in the table, the
    owner is a user, and the new alert is stored with the course code in
    upper case and a last vacancy count of 0: the first check that sees a
    seat will notify.  From then on the checker loads it whenever the
    owner is eligible.  When it answers [None] nothing is written. *)
Theorem add_alert_stores_an_unseen_alert (year sem : string)
  (next_id tid : Z) (course index_no : string) (y s : option string)
  (d : Database) :
  let answer := add_alert year sem next_id tid course index_no y s None d in
  match fst answer with
  | Py.Returns (Some alert_id) =>
      alert_id = next_id
      /\ ~ In next_id (map a_id (alerts d))
      /\ In tid (map u_telegram_id (users d))
      /\ (exists row,
            alerts (snd answer) = alerts d ++ [row]
            /\ identity row =
               (next_id, tid, Py.upper course, index_no, or_default y year,
                or_default s sem, true))
      /\ stored_count alert_id (snd answer) = Some 0
      /\ (forall d2 u,
            engine_steps (snd answer) d2 -> In u (users d) ->
            u_telegram_id u = tid ->
            user_eligible (current_timestamp d2) u = true ->
            loaded alert_id d2)
  | Py.Returns None => snd answer = d
  | Py.Raises _ => False
  end.
Proof.
  cbv zeta. unfold add_alert.
  destruct (negb (affected_user tid d) || _ || _) eqn:Hc; cbn [fst snd];
    [reflexivity|].
  apply orb_false_iff in Hc. destruct Hc as [Hc Hw].
  apply orb_false_iff in Hc. destruct Hc as [Hu Hi].
  apply negb_false_iff, SchemaFacts.affected_user_In in Hu.
  assert (Hfresh : ~ In next_id (map a_id (alerts d))).
  { intros Hin. apply in_map_iff in Hin. destruct Hin as (a & Ea & Ha).
    assert (existsb (fun a => a_id a =? next_id) (alerts d) = true).
    { apply existsb_exists. exists a. split; [assumption | now apply Z.eqb_eq]. }
    congruence. }
  repeat apply conj; auto.
  - eexists. split; reflexivity.
  - unfold stored_count. cbn [tick set_alerts alerts].
    rewrite (find_fresh_id next_id (alerts d));
      [reflexivity | exact Hfresh | reflexivity].
  - intros d2 u Hs Hin Hid Hel.
    apply (loaded_after_steps _ d2
             {| a_id := next_id; a_telegram_id := tid;
                a_course_code := Py.upper course; a_index_number := index_no;
                a_academic_year := or_default y year;
                a_semester := or_default s sem; a_is_active := true;
                a_last_checked := None; a_last_vacancy_count := 0 |}
             u Hs); cbn; auto.
    apply in_or_app. right. left. reflexivity.
Qed.

Lemma add_alert_stores_an_unseen_alert_witness :
  stored_count 4
    (snd (add_alert "2025" "2" 4 7001 "sc1003" "10500" None None None tidy_db))
  = Some 0
  /\ loaded 4
       (snd (add_alert "2025" "2" 4 7001 "sc1003" "10500" None None None
               tidy_db)).
Proof.
  pose proof (add_alert_stores_an_unseen_alert "2025" "2" 4 7001 "sc1003"
                "10500" None None tidy_db) as H.
  cbv zeta in H.
  change (fst (add_alert "2025" "2" 4 7001 "sc1003" "10500" None None None
                 tidy_db))
    with (@Py.Returns (option Z) (Some 4)) in H.
  cbv iota in H.
  destruct H as (_ & _ & _ & _ & Hcount & Hloaded).
  split; [exact Hcount|].
  apply (Hloaded _ sample_user (steps_none _)).
  - left. reflexivity.
  - reflexivity.
  - reflexivity.
Defined.

(** X20. No operation sets an alert active again: an alert that is
    active after a call of an operation of database.py, failed or
    committed, or after a write of the checker, was there and active
    before with the same owner, course and index, or has an id that was
    not in the table. *)
Theorem no_operation_reactivates_an_alert (d d' : Database) (a' : AlertRow) :
  store_step d d' -> In a' (alerts d') -> a_is_active a' = true ->
  (exists a, In a (alerts d) /\ identity a = identity a')
  \/ ~ In (a_id a') (map a_id (alerts d)).
Proof.
  intros H. revert a'.
  assert (Hsame : forall d0 d1 a', alerts d1 = alerts d0 ->
            In a' (alerts d1) ->
            (exists a, In a (alerts d0) /\ identity a = identity a')
            \/ ~ In (a_id a') (map a_id (alerts d0))).
  { intros d0 d1 a' E Hin. left. exists a'. rewrite <- E. auto. }
  assert (Hflag : forall (p : AlertRow -> bool) l a',
            In a' (map (fun a => if p a then with_alert_active false a else a) l) ->
            a_is_active a' = true ->
            exists a, In a l /\ identity a = identity a').
  { intros p l a' Hin Hact. apply in_map_iff in Hin.
    destruct Hin as (a & <- & Hin). exists a. split; [assumption|].
    destruct (p a); [discriminate | reflexivity]. }
  destruct H as [d0 d1 He | | | | | | | | | | | ]; intros a' Hin Hact.
  - left. apply EngineSteps.engine_step_frame in He. destruct He as [_ Hi].
    destruct (identity_In (alerts d1) (alerts d0) a' (eq_sym Hi) Hin)
      as (a & Ha & E). eauto.
  - apply (Hsame d (snd (add_user tid name fault d))); auto.
    unfold add_user. now destruct fault.
  - apply (Hsame d (snd (get_user tid fault d))); auto.
    unfold get_user. now destruct fault.
  - apply (Hsame d (snd (deactivate_user tid fault d))); auto.
    unfold deactivate_user. now destruct fault.
  - left. exists a'. split; [|reflexivity]. revert Hin. unfold delete_user.
    destruct fault; cbn [snd]; [auto|].
    destruct (affected_user tid d); cbn; [|auto].
    intros Hin. now apply filter_In in Hin.
  - apply (Hsame d (snd (pause_user minute tid dur fault d))); auto.
    unfold pause_user. now destruct fault.
  - apply (Hsame d (snd (resume_user tid fault d))); auto.
    unfold resume_user. now destruct fault.
  - left. revert Hin. unfold stop_user. destruct fault; cbn [snd].
    + intros Hin. exists a'. auto.
    + cbn. intros Hin. now apply (Hflag (fun a => a_telegram_id a =? tid)).
  - apply (Hsame d (snd (check_user_pause_status tid fault d))); auto.
    unfold check_user_pause_status. destruct fault; [reflexivity|].
    destruct (find _ _); [|reflexivity].
    destruct (_ && _ && _); [|reflexivity].
    now destruct (existsb _ _).
  - revert Hin. unfold add_alert. destruct fault; cbn [snd].
    + intros Hin. left. exists a'. auto.
    + destruct (negb _ || _ || _) eqn:Hc; cbn [snd].
      * intros Hin. left. exists a'. auto.
      * cbn. intros Hin. apply in_app_or in Hin.
        destruct Hin as [Hin | [<- | []]]; [left; exists a'; auto|].
        right. cbn.
        apply orb_false_iff in Hc. destruct Hc as [Hc _].
        apply orb_false_iff in Hc. destruct Hc as [_ Hi].
        intros Hx. apply in_map_iff in Hx. destruct Hx as (a & Ea & Ha).
        assert (existsb (fun a => a_id a =? next_id) (alerts d) = true).
        { apply existsb_exists. exists a. split; [assumption|].
          now apply Z.eqb_eq. }
        congruence.
  - left. revert Hin. unfold remove_alert. destruct fault; cbn [snd].
    + intros Hin. exists a'. auto.
    + cbn. intros Hin. now apply (Hflag (is_alert_of aid tid)).
  - apply (Hsame d (snd (get_alert_history aid limit fault d))); auto.
    unfold get_alert_history. destruct fault; [reflexivity|].
    now destruct (limit <? 0).
Qed.

Lemma no_operation_reactivates_an_alert_witness :
  (exists a, In a (alerts (snd (stop_user 7001 None tidy_db)))
             /\ identity a = identity second_alert)
  \/ ~ In (a_id second_alert)
         (map a_id (alerts (snd (stop_user 7001 None tidy_db)))).
Proof.
  apply (no_operation_reactivates_an_alert
           (snd (stop_user 7001 None tidy_db))
           (snd (resume_user 7001 None (snd (stop_user 7001 None tidy_db))))
           second_alert).
  - apply by_resume_user.
  - cbn. right. left. reflexivity.
  - reflexivity.
Defined.

(** Pauses under the operations. *)
Lemma coherent_update tid f l :
  (forall u, coherent_row u -> coherent_row (f u)) ->
  Forall coherent_row l -> Forall coherent_row (update_user tid f l).
Proof.
  intros Hf H. unfold update_user. apply Forall_map.
  eapply Forall_impl; [|exact H]. cbn. intros u Hu.
  destruct (is_user tid u); auto.
Qed.

Lemma coherent_store_step d d' :
  pause_coherent d -> store_step d d' -> pause_coherent d'.
Proof.
  intros Hc H. revert Hc. unfold pause_coherent.
  destruct H as [d0 d1 He | | | | | | | | | | | ]; intros Hc.
  - apply EngineSteps.engine_step_frame in He. destruct He as [-> _].
    exact Hc.
  - unfold add_user. destruct fault; cbn [snd]; [assumption|]. cbn.
    destruct (affected_user tid d).
    + apply coherent_update; [|assumption]. intros u Hu. exact Hu.
    + apply Forall_app. split; [assumption|]. repeat constructor.
      intros H. discriminate.
  - unfold get_user. now destruct fault.
  - unfold deactivate_user. destruct fault; cbn [snd]; [assumption|]. cbn.
    apply coherent_update; [|assumption]. intros u Hu. exact Hu.
  - unfold delete_user. destruct fault; cbn [snd]; [assumption|].
    destruct (affected_user tid d); cbn; [|assumption].
    apply Forall_forall. intros u Hu. apply filter_In in Hu.
    rewrite Forall_forall in Hc. now apply Hc.
  - unfold pause_user. destruct fault; cbn [snd]; [assumption|]. cbn.
    apply coherent_update; [|assumption]. intros u _ _ _. reflexivity.
  - unfold resume_user. destruct fault; cbn [snd]; [assumption|]. cbn.
    apply coherent_update; [|assumption]. intros u _ H. discriminate.
  - unfold stop_user. destruct fault; cbn [snd]; [assumption|]. cbn.
    apply coherent_update; [|assumption]. intros u _ _ H. now contradiction H.
  - unfold check_user_pause_status. destruct fault; cbn [snd]; [assumption|].
    destruct (find _ _); cbn [snd]; [|assumption].
    destruct (_ && _ && _); cbn [snd]; [|assumption].
    destruct (existsb _ _); cbn [snd]; [|assumption]. cbn.
    apply Forall_map. eapply Forall_impl; [|exact Hc]. cbn. intros u0 Hu.
    destruct (pause_expired tid (current_timestamp d) u0); [|assumption].
    intros H. discriminate.
  - unfold add_alert. destruct fault; cbn [snd]; [assumption|].
    now destruct (negb _ || _ || _).
  - unfold remove_alert. now destruct fault.
  - unfold get_alert_history. destruct fault; cbn [snd]; [assumption|].
    now destruct (limit <? 0).
Qed.

Lemma same_user l u u' :
  NoDup (map u_telegram_id l) -> In u l -> In u' l ->
  u_telegram_id u = u_telegram_id u' -> u = u'.
Proof.
  induction l as [|x l IH]; intros N Hu Hu' E; [destruct Hu|].
  cbn in N. inversion N as [|? ? Hn Hr]; subst.
  destruct Hu as [->|Hu], Hu' as [->|Hu']; auto.
  - exfalso. apply Hn. rewrite E. now apply in_map.
  - exfalso. apply Hn. rewrite <- E. now apply in_map.
Qed.

Lemma find_user l u :
  NoDup (map u_telegram_id l) -> In u l ->
  find (is_user (u_telegram_id u)) l = Some u.
Proof.
  intros N Hu. destruct (find (is_user (u_telegram_id u)) l) as [u'|] eqn:Hf.
  - apply find_some in Hf. destruct Hf as [Hin Hid]. unfold is_user in Hid.
    apply Z.eqb_eq in Hid. f_equal. symmetry. now apply (same_user l).
  - pose proof (find_none _ _ Hf u Hu) as H. unfold is_user in H.
    now rewrite Z.eqb_refl in H.
Qed.

(** X21. Every operation keeps the pauses coherent (a pause that has an
    end is a manual pause), and on coherent tables the bot and the checker
    agree on who is paused: [check_user_pause_status] answers "paused"
    exactly for a user whose alerts [get_all_active_alerts] would leave
    out at that moment on account of the pause.  A stop, which has no end,
    is never lifted by it. *)
Theorem pause_status_agrees_with_the_checker (d d' : Database)
  (u : UserRow) :
  pause_coherent d -> store_steps d d' ->
  NoDup (map u_telegram_id (users d')) -> In u (users d') ->
  pause_coherent d'
  /\ is_paused (fst (check_user_pause_status (u_telegram_id u) None d'))
     = negb (pause_over (current_timestamp d') u)
  /\ (u_paused_until u = None ->
      fst (check_user_pause_status (u_telegram_id u) None d') = status_of u
      /\ users (snd (check_user_pause_status (u_telegram_id u) None d'))
         = users d').
Proof.
  intros Hc Hs.
  assert (Hc' : pause_coherent d').
  { induction Hs as [d0 | d0 d1 d2 _ IH Hstep]; [assumption|].
    eapply coherent_store_step; [apply IH; assumption | exact Hstep]. }
  intros N Hu. split; [exact Hc'|].
  unfold check_user_pause_status. rewrite (find_user _ _ N Hu).
  unfold pause_coherent in Hc'. rewrite Forall_forall in Hc'.
  specialize (Hc' u Hu). unfold coherent_row in Hc'. unfold pause_over.
  destruct (u_is_paused u) eqn:Hp; cbn [andb negb orb].
  - destruct (u_paused_until u) as [t|] eqn:Ht; cbn [has_value andb].
    + rewrite (Hc' eq_refl ltac:(discriminate)). cbn [is_manual].
      change ("manual" =? "manual")%string with true. cbv iota.
      assert (Hex : existsb (pause_expired (u_telegram_id u)
                               (current_timestamp d')) (users d')
                    = (t <? current_timestamp d')).
      { destruct (t <? current_timestamp d') eqn:Hlt.
        - apply existsb_exists. exists u. split; [assumption|].
          unfold pause_expired, is_user. now rewrite Z.eqb_refl, Ht.
        - destruct (existsb _ _) eqn:Ex; [|reflexivity].
          apply existsb_exists in Ex. destruct Ex as (u' & Hu' & He).
          unfold pause_expired, is_user in He. apply andb_prop in He.
          destruct He as [Hid He]. apply Z.eqb_eq in Hid.
          assert (u = u') by (apply (same_user (users d')); auto).
          subst u'. rewrite Ht in He. congruence. }
      rewrite Hex. destruct (t <? current_timestamp d'); cbn.
      * split; [reflexivity | discriminate].
      * split; [exact Hp | discriminate].
    + cbn. split; [exact Hp | intros _; split; reflexivity].
  - cbn. split; [exact Hp | intros _; split; reflexivity].
Qed.

Lemma tidy_db_coherent : pause_coherent tidy_db.
Proof. repeat constructor; intros H; discriminate. Qed.

Lemma pause_status_agrees_with_the_checker_witness :
  pause_coherent (snd (stop_user 7001 None tidy_db))
  /\ is_paused (fst (check_user_pause_status 7001 None
                       (snd (stop_user 7001 None tidy_db))))
     = negb (pause_over 101
               (with_pause true None (Some "stopped") sample_user))
  /\ (u_paused_until (with_pause true None (Some "stopped") sample_user)
      = None ->
      fst (check_user_pause_status 7001 None
             (snd (stop_user 7001 None tidy_db)))
      = status_of (with_pause true None (Some "stopped") sample_user)
      /\ users (snd (check_user_pause_status 7001 None
                       (snd (stop_user 7001 None tidy_db))))
         = users (snd (stop_user 7001 None tidy_db))).
Proof.
  apply (pause_status_agrees_with_the_checker tidy_db
           (snd (stop_user 7001 None tidy_db))
           (with_pause true None (Some "stopped") sample_user)
           tidy_db_coherent
           (store_more _ _ _ (store_none _) (by_stop_user 7001 None tidy_db))).
  - cbn. repeat constructor; cbn; intuition discriminate.
  - cbn. left. reflexivity.
Defined.

End AccountFacts.

(** ** The two orderings of database.py *)

Module OrderFacts.

Import World Database Accounts StoreNotions Observations.
Import Samples MoreSamples.

Lemma checked_le_total x y : checked_le x y = false -> checked_le y x = true.
Proof.
  destruct x as [a|], y as [b|]; cbn; try reflexivity; try discriminate.
  intros H. apply Z.leb_gt in H. apply Z.leb_le. lia.
Qed.

Lemma checked_le_trans x y z :
  checked_le x y = true -> checked_le y z = true -> checked_le x z = true.
Proof.
  destruct x as [a|], y as [b|], z as [c|]; cbn; try reflexivity;
    try discriminate.
  intros H1 H2. apply Z.leb_le in H1, H2. apply Z.leb_le. lia.
Qed.

Lemma insert_by_last_checked_sorted a l :
  StronglySorted checked_before l ->
  StronglySorted checked_before (insert_by_last_checked a l).
Proof.
  induction 1 as [|b r Hr IH Hb]; cbn.
  - repeat constructor.
  - destruct (checked_le (a_last_checked a) (a_last_checked b)) eqn:E.
    + constructor; [now constructor|]. constructor; [exact E|].
      eapply Forall_impl; [|exact Hb]. intros c Hc.
      unfold checked_before in *. eapply checked_le_trans; eauto.
    + constructor; [exact IH|].
      apply (Permutation_Forall (Permutation_sym (Grouping.insert_perm a r))).
      constructor; [|exact Hb]. now apply checked_le_total.
Qed.

Lemma order_by_last_checked_sorted l :
  StronglySorted checked_before (order_by_last_checked l).
Proof.
  induction l as [|a l IH]; cbn; [constructor|].
  now apply insert_by_last_checked_sorted.
Qed.

(** X22. [get_all_active_alerts] answers with the selected alerts, each
    once, the one checked longest ago first and those never checked ahead
    of all: the checker works through its alerts starting with the most
    stale. *)
Theorem alerts_are_loaded_most_stale_first (d : Database) :
  exists rows,
    select_active d = map to_dict rows
    /\ Permutation rows (filter (selected d) (alerts d))
    /\ StronglySorted checked_before rows.
Proof.
  exists (order_by_last_checked (filter (selected d) (alerts d))).
  split; [reflexivity|]. split.
  - apply Grouping.order_perm.
  - apply order_by_last_checked_sorted.
Qed.

(** [ORDER BY checked_at DESC] *)
Lemma insert_by_checked_at_perm h l :
  Permutation (insert_by_checked_at h l) (h :: l).
Proof.
  induction l as [|x r IH]; cbn; [reflexivity|].
  destruct (h_checked_at x <=? h_checked_at h); [reflexivity|].
  rewrite IH. apply perm_swap.
Qed.

Lemma order_by_checked_at_perm l : Permutation (order_by_checked_at l) l.
Proof.
  induction l as [|h r IH]; cbn; [reflexivity|].
  rewrite insert_by_checked_at_perm. now constructor.
Qed.

Lemma insert_by_checked_at_sorted h l :
  StronglySorted not_newer l ->
  StronglySorted not_newer (insert_by_checked_at h l).
Proof.
  induction 1 as [|x r Hr IH Hx]; cbn.
  - repeat constructor.
  - destruct (Z.leb_spec (h_checked_at x) (h_checked_at h)) as [E|E].
    + constructor; [now constructor|]. constructor; [exact E|].
      eapply Forall_impl; [|exact Hx]. intros c Hc.
      unfold not_newer in *. lia.
    + constructor; [exact IH|].
      apply (Permutation_Forall
               (Permutation_sym (insert_by_checked_at_perm h r))).
      constructor; [|exact Hx]. unfold not_newer. lia.
Qed.

Lemma order_by_checked_at_sorted l :
  StronglySorted not_newer (order_by_checked_at l).
Proof.
  induction l as [|h l IH]; cbn; [constructor|].
  now apply insert_by_checked_at_sorted.
Qed.

Lemma firstn_sorted {A} (R : A -> A -> Prop) n : forall l,
  StronglySorted R l -> StronglySorted R (firstn n l).
Proof.
  induction n as [|n IH]; intros l H; [constructor|].
  destruct l as [|x l]; [constructor|]. cbn.
  apply StronglySorted_inv in H. destruct H as [Hl Hx].
  constructor; [now apply IH|].
  apply Forall_forall. intros y Hy. rewrite Forall_forall in Hx.
  apply Hx. rewrite <- (firstn_skipn n l). apply in_or_app. now left.
Qed.

Lemma In_firstn {A} n (l : list A) x : In x (firstn n l) -> In x l.
Proof.
  intros H. rewrite <- (firstn_skipn n l). apply in_or_app. now left.
Qed.

Lemma latest_history_filter aid rows : forall best,
  latest_history aid rows best =
  latest_history aid (filter (fun h => h_alert_id h =? aid) rows) best.
Proof.
  induction rows as [|h r IH]; intros best; [reflexivity|].
  cbn [latest_history filter].
  destruct (h_alert_id h =? aid) eqn:E.
  - cbn [latest_history]. rewrite E.
    destruct best as [b|]; [destruct (h_checked_at b <? h_checked_at h)|];
      apply IH.
  - apply IH.
Qed.

(** The newer of the best row so far and the head of the sorted rows;
    the best row so far wins a tie. *)
Lemma latest_history_sorted aid l :
  Forall (fun h => h_alert_id h = aid) l ->
  forall best,
    latest_history aid l best =
    match best, hd_error (order_by_checked_at l) with
    | None, m => m
    | Some b, None => Some b
    | Some b, Some m =>
        if h_checked_at b <? h_checked_at m then Some m else Some b
    end.
Proof.
  induction 1 as [|h r Hh Hr IH]; intros best.
  - destruct best; reflexivity.
  - cbn [latest_history order_by_checked_at fold_right].
    apply Z.eqb_eq in Hh. rewrite Hh.
    fold (order_by_checked_at r).
    assert (Hhd : hd_error (insert_by_checked_at h (order_by_checked_at r)) =
                  match hd_error (order_by_checked_at r) with
                  | None => Some h
                  | Some x => if h_checked_at x <=? h_checked_at h
                              then Some h else Some x
                  end).
    { destruct (order_by_checked_at r) as [|x s]; [reflexivity|]. cbn.
      destruct (h_checked_at x <=? h_checked_at h); reflexivity. }
    rewrite Hhd.
    destruct best as [b|].
    + destruct (Z.ltb_spec (h_checked_at b) (h_checked_at h)) as [E1|E1];
        rewrite IH;
        destruct (hd_error (order_by_checked_at r)) as [x|];
        try destruct (Z.leb_spec (h_checked_at x) (h_checked_at h)) as [E2|E2];
        repeat match goal with
               | |- context [?a <? ?b] => destruct (Z.ltb_spec a b)
               end;
        try reflexivity; try lia.
    + rewrite IH.
      destruct (hd_error (order_by_checked_at r)) as [x|]; [|reflexivity].
      destruct (Z.leb_spec (h_checked_at x) (h_checked_at h)) as [E2|E2];
        destruct (Z.ltb_spec (h_checked_at h) (h_checked_at x));
        try reflexivity; lia.
Qed.

(** X23. [get_alert_history] answers with history rows of the alert
    only, at most [limit] of them, newest first, and all of them when
    [limit] allows; if it answers at all, its first row is the row that
    [mark_notification_sent] marks. *)
Theorem history_is_listed_newest_first (alert_id limit : Z) (d : Database) :
  let rows := fst (get_alert_history alert_id limit None d) in
  let all := filter (fun h => h_alert_id h =? alert_id) (alert_history d) in
  Z.of_nat (List.length rows) <= Z.max limit 0
  /\ (forall h, In h rows -> In h (alert_history d) /\ h_alert_id h = alert_id)
  /\ StronglySorted not_newer rows
  /\ (Z.of_nat (List.length all) <= limit -> Permutation rows all)
  /\ (0 < limit ->
      hd_error rows = latest_history alert_id (alert_history d) None).
Proof.
  cbv zeta. unfold get_alert_history.
  set (all := filter (fun h => h_alert_id h =? alert_id) (alert_history d)).
  destruct (Z.ltb_spec limit 0) as [Hneg|Hpos]; cbn [fst].
  - repeat apply conj; try (intros; lia).
    + cbn. lia.
    + intros h [].
    + constructor.
  - repeat apply conj.
    + rewrite length_firstn. lia.
    + intros h Hh. apply In_firstn in Hh.
      apply (Permutation_in _ (order_by_checked_at_perm _)) in Hh.
      apply filter_In in Hh. destruct Hh as [H1 H2].
      apply Z.eqb_eq in H2. auto.
    + apply firstn_sorted, order_by_checked_at_sorted.
    + intros Hlen. rewrite firstn_all2.
      * apply order_by_checked_at_perm.
      * rewrite (Permutation_length (order_by_checked_at_perm all)). lia.
    + intros Hl.
      rewrite latest_history_filter. fold all.
      rewrite (latest_history_sorted alert_id all).
      * destruct (Z.to_nat limit) as [|k] eqn:Ek; [lia|].
        destruct (order_by_checked_at all); reflexivity.
      * apply Forall_forall. intros h Hh. apply filter_In in Hh.
        now apply Z.eqb_eq.
Qed.

Lemma history_is_listed_newest_first_witness :
  hd_error
    (fst (get_alert_history 1 10 None
            (db (cycle sample_env sample_checker tidy_world))))
  = latest_history 1
      (alert_history (db (cycle sample_env sample_checker tidy_world))) None
  /\ Permutation
       (fst (get_alert_history 1 10 None
               (db (cycle sample_env sample_checker tidy_world))))
       (filter (fun h => h_alert_id h =? 1)
          (alert_history (db (cycle sample_env sample_checker tidy_world)))).
Proof.
  destruct (history_is_listed_newest_first 1 10
              (db (cycle sample_env sample_checker tidy_world)))
    as (_ & _ & _ & Hall & Hhead).
  split.
  - apply Hhead. lia.
  - apply Hall. vm_compute. discriminate.
Defined.

End OrderFacts.

(** ** The cycle: groups, order and pace *)

Module PaceFacts.

Import VacancyParser World Database VacancyApiClient VacancyChecker.
Import Observations StoreNotions CheckerNotions Grouping Shape.
Import Samples MoreSamples.

Lemma events_of_app {A} (m : M A) w seg :
  trace (snd (m w)) = trace w ++ seg -> events_of m w = seg.
Proof.
  unfold events_of. intros ->. induction (trace w) as [|e l IH]; auto.
Qed.

Lemma key_in_seen k seen :
  existsb (key_eqb k) seen = true <-> In k seen.
Proof.
  rewrite existsb_exists. split.
  - intros (x & Hx & E). apply key_eqb_eq in E. now subst.
  - intros H. exists k. split; [assumption | apply key_eqb_refl].
Qed.

Lemma first_keys_fresh l : forall seen k,
  In k (first_keys seen l) -> ~ In k seen.
Proof.
  induction l as [|a l IH]; intros seen k Hk; [destruct Hk|].
  cbn [first_keys] in Hk.
  destruct (existsb (key_eqb (key_of a)) seen) eqn:E.
  - now apply IH.
  - destruct Hk as [<-|Hk].
    + intros H. apply key_in_seen in H. congruence.
    + apply IH in Hk. intros H. apply Hk. apply in_or_app. now left.
Qed.

Lemma watching_cons k a l :
  watching k (a :: l) =
  if key_eqb (key_of a) k then a :: watching k l else watching k l.
Proof. reflexivity. Qed.

Lemma watching_other k a l : key_of a <> k -> watching k (a :: l) = watching k l.
Proof.
  intros H. rewrite watching_cons.
  apply key_eqb_neq in H. now rewrite H.
Qed.

Lemma group_add_new a g :
  ~ In (key_of a) (map fst g) -> group_add a g = g ++ [(key_of a, [a])].
Proof.
  induction g as [|[k l] g IH]; intros H; [reflexivity|].
  cbn [group_add]. destruct (key_eqb k (key_of a)) eqn:E.
  - apply key_eqb_eq in E. exfalso. apply H. left. exact E.
  - cbn. rewrite IH; [reflexivity|]. intros H'. apply H. now right.
Qed.

Lemma group_add_old a r g :
  NoDup (map fst g) -> In (key_of a) (map fst g) ->
  map (fun kl => (fst kl, snd kl ++ watching (fst kl) r)) (group_add a g) =
  map (fun kl => (fst kl, snd kl ++ watching (fst kl) (a :: r))) g.
Proof.
  induction g as [|[k l] g IH]; intros N H; [destruct H|].
  cbn in N. inversion N as [|? ? Hn Hr]; subst.
  cbn [group_add]. destruct (key_eqb k (key_of a)) eqn:E.
  - apply key_eqb_eq in E. subst k. cbn [map fst snd].
    rewrite watching_cons, key_eqb_refl, <- app_assoc. cbn [app]. f_equal.
    apply map_ext_in. intros [k' l'] Hin. cbn [fst snd].
    rewrite watching_other; [reflexivity|].
    intros E'. apply Hn. rewrite E'.
    now apply (in_map fst) in Hin.
  - apply key_eqb_neq in E. cbn [map fst snd].
    rewrite (watching_other k a r) by congruence. f_equal.
    apply IH; [assumption|]. cbn in H.
    destruct H as [H|H]; [congruence | assumption].
Qed.

Lemma fold_group_add_shape l : forall g,
  NoDup (map fst g) ->
  fold_left (fun grouped alert => group_add alert grouped) l g =
  map (fun kl => (fst kl, snd kl ++ watching (fst kl) l)) g
  ++ map (fun k => (k, watching k l)) (first_keys (map fst g) l).
Proof.
  induction l as [|a r IH]; intros g N.
  - cbn. rewrite app_nil_r. symmetry. rewrite <- (map_id g) at 2.
    apply map_ext. intros [k l]. cbn. now rewrite app_nil_r.
  - cbn [fold_left first_keys].
    rewrite (IH _ (group_add_nodup a g N)).
    destruct (existsb (key_eqb (key_of a)) (map fst g)) eqn:E.
    + apply key_in_seen in E.
      destruct (group_add_keys a g) as [[_ ->] | [Hn _]]; [|contradiction].
      rewrite (group_add_old a r g N E). f_equal.
      apply map_ext_in. intros k Hk. f_equal.
      rewrite watching_other; [reflexivity|].
      apply first_keys_fresh in Hk. congruence.
    + assert (Hn : ~ In (key_of a) (map fst g)).
      { intros H. apply key_in_seen in H. congruence. }
      rewrite (group_add_new a g Hn), !map_app. cbn [map fst snd].
      rewrite <- app_assoc. cbn [app]. f_equal.
      * apply map_ext_in. intros [k l] Hin. cbn [fst snd].
        rewrite watching_other; [reflexivity|].
        intros E'. apply Hn. rewrite E'. now apply (in_map fst) in Hin.
      * rewrite watching_cons, key_eqb_refl. f_equal.
        apply map_ext_in. intros k Hk. f_equal.
        rewrite watching_other; [reflexivity|].
        apply first_keys_fresh in Hk. intros E'. apply Hk.
        apply in_or_app. right. left. exact E'.
Qed.

Lemma group_alerts_shape l :
  group_alerts l = map (fun k => (k, watching k l)) (first_keys [] l).
Proof.
  unfold group_alerts. rewrite fold_group_add_shape by constructor.
  reflexivity.
Qed.

Lemma first_keys_In l : forall seen k,
  In k (first_keys seen l) <-> In k (map key_of l) /\ ~ In k seen.
Proof.
  induction l as [|a l IH]; intros seen k; cbn [first_keys map].
  - cbn. tauto.
  - destruct (existsb (key_eqb (key_of a)) seen) eqn:E.
    + apply key_in_seen in E. rewrite IH. cbn. split; [tauto|].
      intros [[<-|H] Hn]; [contradiction | tauto].
    + assert (Hn : ~ In (key_of a) seen).
      { intros H. apply key_in_seen in H. congruence. }
      cbn. rewrite IH, in_app_iff. cbn.
      destruct (key_in_dec k [key_of a]) as [[<-|[]]|Hk].
      * tauto.
      * split; [intros [<-|[H1 H2]]; tauto|].
        intros [[<-|H] Hs]; [now left | right]. cbn in Hk. tauto.
Qed.

Lemma first_keys_NoDup l : forall seen, NoDup (first_keys seen l).
Proof.
  induction l as [|a l IH]; intros seen; cbn [first_keys]; [constructor|].
  destruct (existsb (key_eqb (key_of a)) seen); [apply IH|].
  constructor; [|apply IH].
  intros H. apply first_keys_fresh in H. apply H, in_or_app. right. now left.
Qed.

(** X24. The groups of a cycle: one group for every pair of course and
    index among the loaded alerts, each pair once, in the order in which
    the pairs first appear in the loaded list; each group holds all the
    alerts on its pair, in the order of that list. *)
Theorem groups_are_keys_in_first_appearance_order (alerts : list AlertDict) :
  group_alerts alerts =
    map (fun k => (k, watching k alerts)) (first_keys [] alerts)
  /\ NoDup (first_keys [] alerts)
  /\ (forall k, In k (first_keys [] alerts) <-> In k (map key_of alerts)).
Proof.
  split; [apply group_alerts_shape|]. split; [apply first_keys_NoDup|].
  intros k. rewrite first_keys_In. cbn. tauto.
Qed.

(** Fetches and pauses in the segments of the cycle. *)
Lemma beats_app s1 s2 : beats (s1 ++ s2) = beats s1 ++ beats s2.
Proof. apply flat_map_app. Qed.

Lemma story_no_beats v a seg : alert_story v a seg -> beats seg = [].
Proof. now intros []. Qed.

Lemma update_alerts_no_beats env self v l : forall w,
  exists seg,
    trace (snd (update_alerts env self v l w)) = trace w ++ seg
    /\ beats seg = [].
Proof.
  induction l as [|a l IH]; intros w; cbn [update_alerts].
  - exists []. cbn. now rewrite app_nil_r.
  - unfold bind.
    destruct (update_alert_story env self v a w) as (s1 & R1 & T1 & S1).
    destruct (update_alert env self v a w) as [r w1]. cbn [fst snd] in *.
    subst r. destruct (IH w1) as (s2 & T2 & B2).
    exists (s1 ++ s2).
    rewrite beats_app, B2, (story_no_beats _ _ _ S1), T2, T1, app_assoc.
    now split.
Qed.

Lemma check_groups_beats env self :
  running self = true ->
  forall g w,
  exists seg,
    trace (snd (check_groups env self g w)) = trace w ++ seg
    /\ beats seg = flat_map (fun kl => [BeatFetch (fst kl); BeatSleep 2]) g.
Proof.
  intros Hrun. induction g as [|[[course index_no] l] g IH]; intros w.
  { exists []. cbn. now rewrite app_nil_r. }
  cbn [check_groups]. rewrite Hrun. cbn [negb]. unfold bind, lift.
  destruct (get_index_vacancy_events env course index_no w)
    as (pre & Tf & Hpre & _).
  destruct (get_index_vacancy env course index_no w) as [answer w1].
  cbn [fst snd] in Tf.
  assert (Hb : beats (pre ++ [EvFetch course index_no answer])
               = [BeatFetch (course, index_no)]).
  { destruct Hpre as [-> | [out ->]]; reflexivity. }
  destruct answer as [v | f].
  - destruct (update_alerts_no_beats env self v l w1) as (s1 & T1 & B1).
    assert (R1 : exists r1 w2, update_alerts env self v l w1 = (r1, w2))
      by (destruct (update_alerts env self v l w1); eauto).
    destruct R1 as (r1 & w2 & E1). rewrite E1 in *. cbn [fst snd] in *.
    pose proof (update_alerts_no_traffic env self v l w1) as (s0 & R0 & _).
    rewrite E1 in R0. cbn [fst] in R0. subst r1.
    unfold sleep, effect.
    destruct (IH (emit (EvSleep 2) w2)) as (s2 & T2 & B2).
    exists ((pre ++ [EvFetch course index_no (Success v)]) ++ s1
            ++ [EvSleep 2] ++ s2).
    split.
    { rewrite T2. cbn [emit trace]. rewrite T1, Tf, <- !app_assoc. reflexivity. }
    remember (pre ++ [EvFetch course index_no (Success v)]) as head.
    rewrite !beats_app, Hb, B1, B2. reflexivity.
  - unfold sleep, effect.
    destruct (IH (emit (EvSleep 2)
                    (log (LogCouldNotGetVacancy course index_no (error_message f)) w1)))
      as (s2 & T2 & B2).
    exists ((pre ++ [EvFetch course index_no (Fail f)]) ++ [EvSleep 2] ++ s2).
    split.
    { rewrite T2. cbn [emit log trace]. rewrite Tf, <- !app_assoc. reflexivity. }
    remember (pre ++ [EvFetch course index_no (Fail f)]) as head.
    rewrite !beats_app, Hb, B2. reflexivity.
Qed.

Lemma check_groups_returns env self :
  running self = true ->
  forall g w, fst (check_groups env self g w) = Py.Returns tt.
Proof.
  intros Hrun. induction g as [|[[course index_no] l] g IH]; intros w;
    [reflexivity|].
  cbn [check_groups]. rewrite Hrun. cbn [negb]. unfold bind, lift.
  destruct (get_index_vacancy env course index_no w) as [[v | f] w1].
  - pose proof (update_alerts_no_traffic env self v l w1) as (s0 & R0 & _).
    destruct (update_alerts env self v l w1) as [r1 w2]. cbn [fst] in R0.
    subst r1. unfold sleep, effect. apply IH.
  - unfold sleep, effect. apply IH.
Qed.

(** X25. The pace of a cycle of a running checker: its fetches are one
    per pair of course and index among the loaded alerts, in the order in
    which the pairs first appear in the loaded list, and every fetch,
    failed or not, is followed by one pause of two seconds before the
    next. *)
Theorem fetches_follow_the_groups_in_order (env : Env) (self : Checker)
  (w w1 : World) (watches : list AlertDict) :
  running self = true ->
  get_all_active_alerts env w = (Py.Returns watches, w1) ->
  beats (events_of (check_all_alerts env self) w) =
  flat_map (fun k => [BeatFetch k; BeatSleep 2]) (first_keys [] watches).
Proof.
  intros Hrun Hload.
  assert (Tl : exists n, trace w1 = trace w ++ [EvListActive n]).
  { revert Hload. unfold get_all_active_alerts.
    destruct (db_fault env (trace w)); intros [= _ <-]; now eexists. }
  destruct Tl as (n & Tl).
  assert (Hg : flat_map (fun kl : Key * list AlertDict =>
                           [BeatFetch (fst kl); BeatSleep 2])
                 (group_alerts watches)
               = flat_map (fun k => [BeatFetch k; BeatSleep 2])
                   (first_keys [] watches)).
  { rewrite group_alerts_shape, flat_map_concat_map, map_map.
    now rewrite <- flat_map_concat_map. }
  rewrite <- Hg.
  destruct (check_groups_beats env self Hrun (group_alerts watches) w1)
    as (seg & T & B).
  pose proof (check_groups_returns env self Hrun (group_alerts watches) w1) as R.
  rewrite (events_of_app _ _ ([EvListActive n] ++ seg)).
  - rewrite beats_app, B. reflexivity.
  - unfold check_all_alerts, try_except, bind. rewrite Hload.
    destruct watches as [|a0 rest] eqn:Ew.
    + cbn [ret snd]. rewrite Tl.
      assert (seg = []) as ->; [|reflexivity].
      cbn in T. rewrite <- (app_nil_r (trace w1)) in T at 1.
      now apply app_inv_head in T.
    + rewrite <- Ew in *.
      destruct (check_groups env self (group_alerts watches) w1) as [r w2].
      cbn [fst snd] in *. subst r. cbn [snd].
      rewrite T, Tl, <- app_assoc. reflexivity.
Qed.

Lemma fetches_follow_the_groups_in_order_witness :
  beats (events_of (check_all_alerts sample_env sample_checker) tidy_world) =
  flat_map (fun k => [BeatFetch k; BeatSleep 2])
    (first_keys [] (select_active tidy_db)).
Proof.
  apply (fetches_follow_the_groups_in_order sample_env sample_checker
           tidy_world
           (set_db (tick tidy_db)
              (emit (EvListActive (Py.Returns 3%nat)) tidy_world))
           (select_active tidy_db)).
  - reflexivity.
  - reflexivity.
Defined.

Lemma check_alert_cases env self a w :
  exists seg ok,
    trace (snd (check_alert env self a w)) = trace w ++ seg
    /\ fst (check_alert env self a w) = Py.Returns ok
    /\ (ok = true <->
        existsb fetched seg = true /\ existsb db_failed seg = false).
Proof.
  unfold check_alert, try_except, bind, lift.
  destruct (get_index_vacancy_events env (course_code a) (index_number a) w)
    as (pre & Tf & Hpre & _).
  destruct (get_index_vacancy env (course_code a) (index_number a) w)
    as [out w1]. cbn [fst snd] in Tf.
  assert (Hp : existsb fetched pre = false /\ existsb db_failed pre = false).
  { destruct Hpre as [-> | [o ->]]; split; reflexivity. }
  destruct Hp as [Hp1 Hp2].
  destruct out as [v | f].
  2:{ eexists _, false. cbn [fst snd effect ret log trace].
      split; [exact Tf|]. split; [reflexivity|].
      rewrite !existsb_app, Hp1. cbn. split; [discriminate | tauto]. }
  destruct (update_alert_check_run env (id a) (vacancy v) (waitlist v) w1)
    as (r & w2 & -> & T1).
  destruct r as [b | msg].
  2:{ eexists _, false. cbn [fst snd effect ret log trace].
      split; [rewrite T1, Tf, <- !app_assoc; reflexivity|].
      split; [reflexivity|].
      rewrite !existsb_app, Hp2. cbn. split; [discriminate|].
      intros [_ H]. discriminate. }
  destruct (vacancy_opened (last_vacancy_count a) (vacancy v)) eqn:Ho.
  2:{ eexists _, true. cbn [fst snd effect ret log trace].
      split; [rewrite T1, Tf, <- !app_assoc; reflexivity|].
      split; [reflexivity|].
      rewrite !existsb_app, Hp1, Hp2. cbn. tauto. }
  destruct (send_notification_run env self a v w2) as (rs & w3 & -> & T2).
  destruct (mark_notification_sent_run env (id a) w3) as (rm & w4 & -> & T3).
  destruct rm as [bm | msg].
  - eexists _, true. cbn [fst snd effect ret log trace].
    split; [rewrite T3, T2, T1, Tf, <- !app_assoc; reflexivity|].
    split; [reflexivity|].
    rewrite !existsb_app, Hp1, Hp2. cbn. tauto.
  - eexists _, false. cbn [fst snd effect ret log trace].
    split; [rewrite T3, T2, T1, Tf, <- !app_assoc; reflexivity|].
    split; [reflexivity|].
    rewrite !existsb_app, Hp2. cbn. split; [discriminate|].
    intros [_ H]. discriminate.
Qed.

(** X26. [check_alert] never raises, and its answer tells what
    happened: it is [True] exactly when the fetch succeeded and no call
    of the database raised.  A message that could not be delivered does
    not make it [False]. *)
Theorem check_alert_reports_what_happened (env : Env) (self : Checker)
  (alert : AlertDict) (w : World) :
  exists ok,
    fst (check_alert env self alert w) = Py.Returns ok
    /\ (ok = true <->
        existsb fetched (events_of (check_alert env self alert) w) = true
        /\ existsb db_failed (events_of (check_alert env self alert) w)
           = false).
Proof.
  destruct (check_alert_cases env self alert w) as (seg & ok & T & R & H).
  exists ok. split; [exact R|].
  now rewrite (events_of_app _ _ seg T).
Qed.

(** X27. An alert that [get_all_active_alerts] does not select (it is
    inactive, or its owner is inactive or paused) is left alone by the
    cycle: no check is recorded for it, no notification is sent for it,
    and its stored count stays as it is. *)
Theorem unselected_alerts_are_left_alone (env : Env) (self : Checker)
  (w : World) (row : AlertRow) :
  NoDup (map a_id (alerts (db w))) -> In row (alerts (db w)) ->
  selected (db w) row = false ->
  about (a_id row) (events_of (check_all_alerts env self) w) = []
  /\ stored_count (a_id row) (db (cycle env self w))
     = stored_count (a_id row) (db w).
Proof.
  intros N Hin Hsel.
  destruct (get_all_active_alerts_returns env w) as (watches & w1 & Hload).
  destruct (cycle_shape env self w watches w1 N Hload)
    as (seg & _ & T & Hw & _ & _ & Hother & _).
  assert (Hout : ~ In (a_id row) (map id watches)).
  { intros H. apply in_map_iff in H. destruct H as (a & Ea & Ha).
    apply Hw in Ha. apply AccountFacts.select_active_In in Ha.
    destruct Ha as (row' & Hin' & Hs' & ->). cbn in Ea.
    assert (row' = row).
    { clear -N Hin Hin' Ea. induction (alerts (db w)) as [|x l IH];
        [destruct Hin|].
      cbn in N. inversion N as [|? ? Hn Hr]; subst.
      destruct Hin as [->|Hin], Hin' as [->|Hin']; auto.
      - exfalso. apply Hn. rewrite <- Ea. now apply in_map.
      - exfalso. apply Hn. rewrite Ea. now apply in_map. }
    subst row'. congruence. }
  pose proof (Hother _ Hout) as Habout.
  unfold cycle in *. rewrite (events_of_app _ _ seg T).
  split; [exact Habout|].
  destruct (Tracking.tracked_check_all_alerts env self w) as (seg' & lseg & F).
  pose proof (f_trace _ _ _ _ F) as T'. rewrite T in T'.
  apply app_inv_head in T'. subst seg'.
  rewrite (f_count _ _ _ _ F), replay_count_about, Habout. reflexivity.
Qed.

Lemma unselected_alerts_are_left_alone_witness :
  about 1
    (events_of (check_all_alerts sample_env sample_checker)
       {| db := snd (Accounts.pause_user 60 7001 20 None tidy_db);
          trace := []; logs := [] |}) = []
  /\ stored_count 1
       (db (cycle sample_env sample_checker
              {| db := snd (Accounts.pause_user 60 7001 20 None tidy_db);
                 trace := []; logs := [] |}))
     = stored_count 1 (snd (Accounts.pause_user 60 7001 20 None tidy_db)).
Proof.
  apply (unselected_alerts_are_left_alone sample_env sample_checker
           {| db := snd (Accounts.pause_user 60 7001 20 None tidy_db);
              trace := []; logs := [] |}
           (sample_alert 1 "SC2103" "10001" 0)).
  - cbn. repeat constructor; cbn; intuition discriminate.
  - cbn. left. reflexivity.
  - reflexivity.
Defined.

End PaceFacts.

(** ** The pages of the bot *)

Module PageFacts.

Import VacancyParser BotPages NumberFacts.

Lemma total_pages_bounds (l : list IndexInfo) :
  len l <= 5 * total_pages l < len l + 5 /\ 0 <= total_pages l.
Proof.
  unfold total_pages, INDEXES_PER_PAGE, len.
  pose proof (Z.div_mod (Z.of_nat (List.length l) + 5 - 1) 5 ltac:(lia)) as H.
  pose proof (Z.mod_pos_bound (Z.of_nat (List.length l) + 5 - 1) 5 ltac:(lia)).
  split; [lia|]. apply Z.div_pos; lia.
Qed.

(** A page that is not negative is the next five entries after the
    pages before it. *)
Lemma page_indexes_nat (l : list IndexInfo) (k : nat) :
  page_indexes l (Z.of_nat k) = firstn 5 (skipn (5 * k) l).
Proof.
  unfold page_indexes, slice, slice_bound, INDEXES_PER_PAGE, len.
  set (n := List.length l).
  assert (E1 : (Z.of_nat k * 5 <? 0) = false) by (apply Z.ltb_ge; lia).
  assert (E2 : (Z.min (Z.of_nat k * 5 + 5) (Z.of_nat n) <? 0) = false)
    by (apply Z.ltb_ge; lia).
  rewrite E1, E2.
  destruct (Nat.le_gt_cases n (5 * k)) as [Hle|Hgt].
  - rewrite (skipn_all2 l) by (fold n; lia).
    rewrite (skipn_all2 l) by (fold n; lia).
    now rewrite !firstn_nil.
  - replace (Z.to_nat (Z.min (Z.of_nat k * 5) (Z.of_nat n))) with (5 * k)%nat
      by lia.
    destruct (Nat.le_gt_cases (5 * k + 5) n) as [H5|H5].
    + f_equal. lia.
    + rewrite !firstn_all2; [reflexivity | |];
        rewrite length_skipn; fold n; lia.
Qed.

Lemma chunks_cover {A} m : forall l : list A,
  (List.length l <= 5 * m)%nat ->
  List.concat (map (fun k => firstn 5 (skipn (5 * k) l)) (seq 0 m)) = l.
Proof.
  induction m as [|m IH]; intros l Hl.
  - destruct l; [reflexivity | cbn in Hl; lia].
  - cbn [seq map List.concat]. rewrite <- seq_shift, map_map.
    replace (5 * 0)%nat with 0%nat by lia. cbn [skipn].
    transitivity (firstn 5 l ++ skipn 5 l); [|apply firstn_skipn]. f_equal.
    etransitivity;
      [|apply (IH (skipn 5 l)); rewrite length_skipn; lia].
    f_equal. apply map_ext. intros k.
    rewrite skipn_skipn. do 2 f_equal. lia.
Qed.

(** X28. The pages of an index list: page after page, from the first to
    the last, they show every index of the list exactly once and in
    order; every page has between one and five entries; what lies beyond
    the last page is empty. *)
Theorem pages_show_every_index_once (all_indexes : list IndexInfo) :
  List.concat (map (fun k => page_indexes all_indexes (Z.of_nat k))
            (seq 0 (Z.to_nat (total_pages all_indexes)))) = all_indexes
  /\ (forall page, 0 <= page < total_pages all_indexes ->
        1 <= len (page_indexes all_indexes page) <= 5)
  /\ (forall page, total_pages all_indexes <= page ->
        page_indexes all_indexes page = []).
Proof.
  destruct (total_pages_bounds all_indexes) as [[B1 B2] B0].
  unfold len in *. repeat apply conj.
  - rewrite (map_ext _ (fun k => firstn 5 (skipn (5 * k) all_indexes)))
      by (intros; apply page_indexes_nat).
    apply chunks_cover. lia.
  - intros page Hp. rewrite <- (Z2Nat.id page) by lia.
    rewrite page_indexes_nat, length_firstn, length_skipn. lia.
  - intros page Hp. rewrite <- (Z2Nat.id page) by lia.
    rewrite page_indexes_nat.
    rewrite skipn_all2 by lia. apply firstn_nil.
Qed.

Lemma pages_show_every_index_once_witness :
  1 <= len (page_indexes (repeat Samples.sample_index 12) 2) <= 5
  /\ page_indexes (repeat Samples.sample_index 12) 3 = [].
Proof.
  destruct (pages_show_every_index_once (repeat Samples.sample_index 12))
    as (_ & Hsize & Hbeyond).
  split.
  - apply Hsize. vm_compute. split; [discriminate | reflexivity].
  - apply Hbeyond. vm_compute. discriminate.
Defined.

(** The data of a button, taken apart again. *)
Lemma uint_no_underscore u :
  Forall (fun c => Ascii.eqb c "_" = false)
    (list_ascii_of_string (NilEmpty.string_of_uint u)).
Proof.
  induction u; cbn [NilEmpty.string_of_uint list_ascii_of_string];
    constructor; auto.
Qed.

Lemma str_of_int_no_underscore n :
  Forall (fun c => Ascii.eqb c "_" = false)
    (list_ascii_of_string (Py.str_of_int n)).
Proof.
  destruct n as [|p|p].
  - repeat constructor.
  - rewrite str_of_int_pos. apply uint_no_underscore.
  - rewrite str_of_int_neg. constructor; [reflexivity | apply uint_no_underscore].
Qed.

Lemma split_none sep s :
  Forall (fun c => Ascii.eqb c sep = false) (list_ascii_of_string s) ->
  split sep s = [s].
Proof.
  induction s as [|c r IH]; intros H; [reflexivity|].
  cbn [list_ascii_of_string] in H. inversion H as [|? ? Hc Hr]; subst.
  cbn [split]. now rewrite Hc, (IH Hr).
Qed.

Lemma split_at_first sep pre s :
  Forall (fun c => Ascii.eqb c sep = false) (list_ascii_of_string pre) ->
  split sep (pre ++ String sep s)%string = pre :: split sep s.
Proof.
  induction pre as [|c r IH]; intros H.
  - cbn [String.append split]. now rewrite Ascii.eqb_refl.
  - cbn [list_ascii_of_string] in H. inversion H as [|? ? Hc Hr]; subst.
    cbn [String.append split]. now rewrite Hc, (IH Hr).
Qed.

Lemma eqb_after_prefix pre s t :
  String.eqb (pre ++ s)%string (pre ++ t)%string = String.eqb s t.
Proof.
  induction pre as [|c r IH]; [reflexivity|].
  cbn [String.append String.eqb]. now rewrite Ascii.eqb_refl.
Qed.

Lemma prefix_of_append pre s : String.prefix pre (pre ++ s)%string = true.
Proof.
  induction pre as [|c r IH]; cbn [String.append String.prefix].
  - now destruct s.
  - destruct (ascii_dec c c); [exact IH | contradiction].
Qed.

Lemma str_of_int_not_info n : String.eqb (Py.str_of_int n) "info" = false.
Proof.
  destruct n as [|p|p].
  - reflexivity.
  - rewrite str_of_int_pos. pose proof (to_uint_not_nil p).
    destruct (Pos.to_uint p); [congruence | ..]; reflexivity.
  - rewrite str_of_int_neg. reflexivity.
Qed.

(** Pressing a button that carries a page number stores that number. *)
Lemma handle_pagination_number kind page current_page :
  Forall (fun c => Ascii.eqb c "_" = false) (list_ascii_of_string kind) ->
  handle_pagination kind (kind ++ "_" ++ Py.str_of_int page)%string
    current_page = Py.Returns page.
Proof.
  intros Hk. unfold handle_pagination.
  change (kind ++ "_info")%string with (kind ++ ("_" ++ "info"))%string.
  rewrite eqb_after_prefix.
  change ("_" ++ Py.str_of_int page)%string
    with (String "_" (Py.str_of_int page)).
  change ("_" ++ "info")%string with (String "_" "info").
  cbn [String.eqb]. rewrite Ascii.eqb_refl, str_of_int_not_info.
  assert (Hp : String.prefix (kind ++ "_")%string
                 (kind ++ String "_" (Py.str_of_int page))%string = true).
  { replace (kind ++ String "_" (Py.str_of_int page))%string
      with ((kind ++ "_") ++ Py.str_of_int page)%string.
    - apply prefix_of_append.
    - clear. induction kind as [|c r IH]; [reflexivity|].
      cbn [String.append]. now rewrite IH. }
  rewrite Hp, (split_at_first "_" kind _ Hk).
  rewrite (split_none "_" _ (str_of_int_no_underscore page)).
  cbn [nth_error]. now rewrite int_str_of_int.
Qed.

Lemma handle_pagination_info kind current_page :
  handle_pagination kind (kind ++ "_info")%string current_page
  = Py.Returns current_page.
Proof. unfold handle_pagination. now rewrite String.eqb_refl. Qed.

(** X29. The buttons under a page lead where they say: pressed, the
    buttons of page [current_page], in their order, store the page
    before (there is such a button exactly when the page is not the
    first), the page itself (the page indicator) and the page after
    (exactly when the page is not the last); so from a page of the list
    every button leads to a page of the list. *)
Theorem page_buttons_lead_to_pages (kind : string)
  (all_indexes : list IndexInfo) (current_page : Z) :
  Forall (fun c => Ascii.eqb c "_" = false) (list_ascii_of_string kind) ->
  0 <= current_page < total_pages all_indexes ->
  map (fun b => handle_pagination kind (callback_data b) current_page)
    (nav_buttons kind all_indexes current_page)
  = map Py.Returns
      ((if 0 <? current_page then [current_page - 1] else [])
       ++ [current_page]
       ++ (if current_page <? total_pages all_indexes - 1
           then [current_page + 1] else []))
  /\ Forall (fun b =>
       exists page,
         handle_pagination kind (callback_data b) current_page
         = Py.Returns page
         /\ 0 <= page < total_pages all_indexes)
       (nav_buttons kind all_indexes current_page).
Proof.
  intros Hk Hp.
  assert (H1 : map (fun b => handle_pagination kind (callback_data b)
                               current_page)
                 (nav_buttons kind all_indexes current_page)
               = map Py.Returns
                   ((if 0 <? current_page then [current_page - 1] else [])
                    ++ [current_page]
                    ++ (if current_page <? total_pages all_indexes - 1
                        then [current_page + 1] else []))).
  { unfold nav_buttons. rewrite !map_app.
    f_equal; [|f_equal].
    - destruct (0 <? current_page); [|reflexivity].
      cbn [map callback_data]. now rewrite handle_pagination_number.
    - cbn [map callback_data]. now rewrite handle_pagination_info.
    - destruct (current_page <? total_pages all_indexes - 1); [|reflexivity].
      cbn [map callback_data]. now rewrite handle_pagination_number. }
  split; [exact H1|].
  apply Forall_forall. intros b Hb.
  apply (in_map (fun b => handle_pagination kind (callback_data b)
                            current_page)) in Hb.
  rewrite H1 in Hb. apply in_map_iff in Hb. destruct Hb as (q & <- & Hq).
  exists q. split; [reflexivity|].
  apply in_app_or in Hq. destruct Hq as [Hq|Hq].
  - destruct (Z.ltb_spec 0 current_page); [|destruct Hq].
    destruct Hq as [<-|[]]. lia.
  - destruct Hq as [<-|Hq]; [lia|].
    destruct (Z.ltb_spec current_page (total_pages all_indexes - 1));
      [|destruct Hq].
    destruct Hq as [<-|[]]. lia.
Qed.

Lemma page_buttons_lead_to_pages_witness :
  map (fun b => handle_pagination "display" (callback_data b) 1)
    (nav_buttons "display" (repeat Samples.sample_index 12) 1)
  = map Py.Returns [0; 1; 2]
  /\ Forall (fun b =>
       exists page,
         handle_pagination "display" (callback_data b) 1 = Py.Returns page
         /\ 0 <= page < total_pages (repeat Samples.sample_index 12))
       (nav_buttons "display" (repeat Samples.sample_index 12) 1).
Proof.
  apply (page_buttons_lead_to_pages "display"
           (repeat Samples.sample_index 12) 1).
  - repeat constructor.
  - vm_compute. split; [discriminate | reflexivity].
Defined.

End PageFacts.

(** ** The /remove command *)

Module CommandFacts.

Import World Database Accounts StoreNotions.
Import Samples MoreSamples.

(** X30. The /remove command takes the id as /list prints it: given the
    decimal rendering of the id of an alert of the sender, it sets that
    alert inactive and replies that it has been removed; the same id sent
    by a user who owns no alert with it is answered with "not found" and
    changes no alert; an argument that is not a number is answered as
    invalid and writes nothing. *)
Theorem remove_command_takes_the_listed_id (row : AlertRow)
  (rest : list string) (d : Database) :
  In row (alerts d) ->
  BotCommands.remove_alert (Py.str_of_int (a_id row) :: rest)
    (a_telegram_id row) None d
  = (Py.Returns
       ("Alert " ++ Py.str_of_int (a_id row) ++ " has been removed.")%string,
     snd (Accounts.remove_alert (a_id row) (a_telegram_id row) None d))
  /\ Forall (fun a => a_id a = a_id row ->
                      a_telegram_id a = a_telegram_id row ->
                      a_is_active a = false)
       (alerts (snd (BotCommands.remove_alert
                       (Py.str_of_int (a_id row) :: rest)
                       (a_telegram_id row) None d)))
  /\ (forall user_id,
        existsb (is_alert_of (a_id row) user_id) (alerts d) = false ->
        fst (BotCommands.remove_alert (Py.str_of_int (a_id row) :: rest)
               user_id None d)
        = Py.Returns
            "Alert not found or you don't have permission to remove it."
        /\ alerts (snd (BotCommands.remove_alert
                          (Py.str_of_int (a_id row) :: rest) user_id None d))
           = alerts d)
  /\ (forall arg user_id,
        Py.int arg = None ->
        BotCommands.remove_alert (arg :: rest) user_id None d
        = (Py.Returns "Invalid alert ID. Please provide a number.", d)).
Proof.
  intros Hin.
  assert (Hex : existsb (is_alert_of (a_id row) (a_telegram_id row)) (alerts d)
                = true).
  { apply existsb_exists. exists row. split; [assumption|].
    unfold is_alert_of. now rewrite !Z.eqb_refl. }
  assert (Hcmd : BotCommands.remove_alert (Py.str_of_int (a_id row) :: rest)
                   (a_telegram_id row) None d
                 = (Py.Returns
                      ("Alert " ++ Py.str_of_int (a_id row)
                       ++ " has been removed.")%string,
                    snd (Accounts.remove_alert (a_id row) (a_telegram_id row)
                           None d))).
  { unfold BotCommands.remove_alert.
    rewrite NumberFacts.int_str_of_int. cbn [Accounts.remove_alert snd].
    now rewrite Hex. }
  split; [exact Hcmd|]. split; [|split].
  - rewrite Hcmd. cbn. apply Forall_map, Forall_forall. intros a _.
    unfold is_alert_of. intros H1 H2.
    destruct ((a_id a =? a_id row) && (a_telegram_id a =? a_telegram_id row))
      eqn:E; [reflexivity|].
    cbn in H1, H2. rewrite H1, H2, !Z.eqb_refl in E. discriminate.
  - intros user_id Hno. unfold BotCommands.remove_alert.
    rewrite NumberFacts.int_str_of_int. cbn [Accounts.remove_alert].
    rewrite Hno. cbn. split; [reflexivity|].
    rewrite <- (map_id (alerts d)) at 2. apply map_ext_in. intros a Ha.
    destruct (is_alert_of (a_id row) user_id a) eqn:E; [|reflexivity].
    exfalso.
    assert (existsb (is_alert_of (a_id row) user_id) (alerts d) = true)
      by (apply existsb_exists; eauto).
    congruence.
  - intros arg user_id Harg. unfold BotCommands.remove_alert.
    now rewrite Harg.
Qed.

Lemma remove_command_takes_the_listed_id_witness :
  BotCommands.remove_alert ["1"] 7001 None tidy_db
  = (Py.Returns "Alert 1 has been removed.",
     snd (Accounts.remove_alert 1 7001 None tidy_db))
  /\ fst (BotCommands.remove_alert ["1"] 7002 None tidy_db)
     = Py.Returns "Alert not found or you don't have permission to remove it."
  /\ BotCommands.remove_alert ["one"] 7001 None tidy_db
     = (Py.Returns "Invalid alert ID. Please provide a number.", tidy_db).
Proof.
  destruct (remove_command_takes_the_listed_id
              (sample_alert 1 "SC2103" "10001" 0) [] tidy_db)
    as (Hown & _ & Hother & Hbad).
  { cbn. left. reflexivity. }
  split; [exact Hown|]. split.
  - apply (Hother 7002). reflexivity.
  - apply Hbad. reflexivity.
Defined.

End CommandFacts.
